(** * Remo calendar assistant: the message handler, embedded and verified

    A shallow embedding of [handlers/messageHandler.ts]: the entity
    extractors, the date and time resolver, the per-user scheduling dialogue,
    the listing of meetings, the casual chat and the top-level router; and
    of [listUpcomingEvents] of [services/calendarService.ts].  The
    definitions come first, followed by the properties established about
    them.

    Modelling conventions.
    - A JavaScript string is a [string] of 8-bit characters.  Letter case,
      word characters, digits and white space are the ASCII ones; every
      other character is caseless and is not a word character.
    - A JavaScript number that the handler reads as an integer is a [Z];
      [NaN] and [undefined] are [None].
    - A [Date] is the number of milliseconds of local civil time since
      1970-01-01 00:00 (a [Z]); the local time zone has a fixed offset, so a
      civil day always lasts [msPerDay] milliseconds.
    - [userMeetingStates] is a [gmap Z MeetingState]; [ctx.reply] appends to
      the list of replies; the calendar service and the clock are read from
      a [World] record. *)

From Stdlib Require Import ZArith List Ascii String Bool Lia Sorted.
From stdpp Require Import gmap strings.

Local Open Scope string_scope.
Local Open Scope Z_scope.

(** ** JavaScript strings *)

Module JS.

Definition in_range (lo hi c : ascii) : bool :=
  (N_of_ascii lo <=? N_of_ascii c)%N && (N_of_ascii c <=? N_of_ascii hi)%N.

Definition is_upper (c : ascii) : bool := in_range "A" "Z" c.
Definition is_lower (c : ascii) : bool := in_range "a" "z" c.
Definition is_digit (c : ascii) : bool := in_range "0" "9" c.

Definition lower_char (c : ascii) : ascii :=
  if is_upper c then ascii_of_N (N_of_ascii c + 32) else c.

Definition upper_char (c : ascii) : ascii :=
  if is_lower c then ascii_of_N (N_of_ascii c - 32) else c.

(** [\w]: letters, digits and the underscore. *)
Definition is_word (c : ascii) : bool :=
  is_upper c || is_lower c || is_digit c || Ascii.eqb c "_".

(** White space removed by [trim] and matched by [\s]: tab, line feed,
    vertical tab, form feed, carriage return and space. *)
Definition is_space (c : ascii) : bool :=
  in_range "009" "013" c || Ascii.eqb c " ".

(** [s.toLowerCase()] *)
Fixpoint toLowerCase (s : string) : string :=
  match s with
  | EmptyString => EmptyString
  | String c s' => String (lower_char c) (toLowerCase s')
  end.

(** [s.includes(sub)] *)
Fixpoint includes (s sub : string) : bool :=
  String.prefix sub s ||
  match s with
  | EmptyString => false
  | String _ s' => includes s' sub
  end.

Fixpoint trimStart (s : string) : string :=
  match s with
  | String c s' => if is_space c then trimStart s' else s
  | EmptyString => EmptyString
  end.

Definition trim (s : string) : string :=
  String.rev (trimStart (String.rev (trimStart s))).

(** Value of a decimal digit. *)
Definition digit_val (c : ascii) : Z := Z.of_N (N_of_ascii c) - 48.

(** Value of a hexadecimal digit, when it is one. *)
Definition hex_val (c : ascii) : option Z :=
  if is_digit c then Some (digit_val c)
  else if in_range "a" "f" c then Some (Z.of_N (N_of_ascii c) - 87)
  else if in_range "A" "F" c then Some (Z.of_N (N_of_ascii c) - 55)
  else None.

(** The longest prefix of digits in the given radix, read left to right;
    [None] when there is no digit at all. *)
Fixpoint read_digits (radix : Z) (acc : option Z) (s : string) : option Z :=
  match s with
  | EmptyString => acc
  | String c s' =>
      match hex_val c with
      | Some d =>
          if d <? radix
          then read_digits radix (Some (radix * default 0 acc + d)) s'
          else acc
      | None => acc
      end
  end.

(** *** Numbers

    A number is a double.  Those the handler computes with have integer
    values: [Some n] is the double of value [n], [Some infinity] and
    [Some (- infinity)] are the two infinities, and [None] is [NaN]. *)
Definition two53 : Z := 9007199254740992.
Definition infinity : Z := Eval vm_compute in 2 ^ 1024.

(** The nearest integer with a significand of 53 bits, for [n] from
    [two53] on; of two that are as near, the one with the even
    significand. *)
Definition round53 (n : Z) : Z :=
  let e := Z.log2 n - 52 in
  let q := n / 2 ^ e in
  let r := n mod 2 ^ e in
  let half := 2 ^ (e - 1) in
  (if (half <? r) || ((r =? half) && Z.odd q) then q + 1 else q) * 2 ^ e.

(** The double nearest to an integer: the integer itself below [two53],
    an infinity from [2 ^ 1024 - 2 ^ 970] on. *)
Definition toNumber (n : Z) : Z :=
  if two53 <=? Z.abs n then Z.sgn n * Z.min infinity (round53 (Z.abs n)) else n.

Definition isFinite (n : Z) : bool := negb (infinity <=? Z.abs n).

(** [a * b] and [a + b] *)
Definition times (a b : option Z) : option Z :=
  match a, b with
  | Some x, Some y =>
      if ((x =? 0) && negb (isFinite y)) || ((y =? 0) && negb (isFinite x)) then None
      else Some (toNumber (x * y))
  | _, _ => None
  end.

Definition plus (a b : option Z) : option Z :=
  match a, b with
  | Some x, Some y =>
      if isFinite x && isFinite y then Some (toNumber (x + y))
      else if isFinite y then Some x
      else if isFinite x then Some y
      else if x =? y then Some x
      else None
  | _, _ => None
  end.

(** [parseInt(s)] with no radix: leading white space is skipped, a sign is
    read, a [0x] prefix selects radix 16, and the longest run of digits is
    the value; [None] stands for [NaN].  The value is exact: it is the
    number that [parseInt] gives as long as it is below [two53], and
    [toNumber] of it is the number in general. *)
Definition parseInt (s : string) : option Z :=
  let s1 := trimStart s in
  let '(sign, s2) :=
    match s1 with
    | String "-" r => (-1, r)
    | String "+" r => (1, r)
    | _ => (1, s1)
    end in
  let '(radix, s3) :=
    match s2 with
    | String "0" (String "x" r) => (16, r)
    | String "0" (String "X" r) => (16, r)
    | _ => (10, s2)
    end in
  match read_digits radix None s3 with
  | Some n => Some (sign * n)
  | None => None
  end.

(** Decimal digits of a natural number, most significant first. *)
Fixpoint digits_of (fuel : nat) (n : Z) (acc : string) : string :=
  match fuel with
  | O => acc
  | S f =>
      let acc' := String (ascii_of_N (Z.to_N (48 + n mod 10))) acc in
      if n / 10 =? 0 then acc' else digits_of f (n / 10) acc'
  end.

(** All the decimal digits of an integer, after its sign: [n.toString()]
    for an integer below [two53]. *)
Definition toString (n : Z) : string :=
  if n <? 0 then String "-" (digits_of (S (Z.to_nat (Z.log2 (- n)))) (- n) "")
  else digits_of (S (Z.to_nat (Z.log2 n))) n "".

Fixpoint repeat_char (c : ascii) (n : nat) : string :=
  match n with
  | O => EmptyString
  | S n' => String c (repeat_char c n')
  end.





(** [s.padStart(n, c)] for a one-character filler. *)
Definition padStart (n : nat) (c : ascii) (s : string) : string :=
  repeat_char c (n - String.length s) +:+ s.

(** [s.split(sep)] for a one-character separator. *)
Fixpoint split_go (sep : ascii) (cur : string) (s : string) : list string :=
  match s with
  | EmptyString => [String.rev cur]
  | String c s' =>
      if Ascii.eqb c sep then String.rev cur :: split_go sep EmptyString s'
      else split_go sep (String c cur) s'
  end.

Definition split (sep : ascii) (s : string) : list string := split_go sep EmptyString s.


End JS.

(** ** Regular expressions

    The patterns of the handler are written as terms of [regex] and run by a
    backtracking matcher with JavaScript's priorities: alternatives are tried
    left to right, quantifiers are greedy, and [exec] returns the leftmost
    match.  The flag [ci] is the [i] flag. *)

Module Regex.

Inductive regex : Type :=
| Empty
| Char (c : ascii)
| Class (neg : bool) (ranges : list (ascii * ascii))
| Seq (r1 r2 : regex)
| Alt (r1 r2 : regex)
| Star (r : regex)
| Group (n : nat) (r : regex)
| Bol
| Eol
| WordB.

(** [r?], [r+], a sequence, a choice and a literal word. *)
Definition Opt (r : regex) : regex := Alt r Empty.
Definition Plus (r : regex) : regex := Seq r (Star r).

Fixpoint seq (rs : list regex) : regex :=
  match rs with
  | [] => Empty
  | [r] => r
  | r :: rs' => Seq r (seq rs')
  end.

Fixpoint alt (rs : list regex) : regex :=
  match rs with
  | [] => Empty
  | [r] => r
  | r :: rs' => Alt r (alt rs')
  end.

Fixpoint lit (s : string) : regex :=
  match s with
  | EmptyString => Empty
  | String c EmptyString => Char c
  | String c s' => Seq (Char c) (lit s')
  end.

(** [\d], [\w], [\s] and [.] *)
Definition digit : regex := Class false [("0", "9")]%char.
Definition word_ranges : list (ascii * ascii) :=
  [("a", "z"); ("A", "Z"); ("0", "9"); ("_", "_")]%char.
Definition word : regex := Class false word_ranges.
Definition space : regex := Class false [("009", "013"); (" ", " ")]%char.
Definition dot : regex := Class true [("010", "010"); ("013", "013")]%char.

(** The state of a match: the character before the current position, the
    text from the current position on, the position, and the groups
    captured so far (latest first). *)
Record mstate : Type := MState {
  before : option ascii;
  rest : string;
  pos : nat;
  caps : list (nat * string)
}.

Definition char_eq (ci : bool) (c x : ascii) : bool :=
  if ci then Ascii.eqb (JS.upper_char c) (JS.upper_char x) else Ascii.eqb c x.

Definition range_has (ci : bool) (x : ascii) (r : ascii * ascii) : bool :=
  JS.in_range (fst r) (snd r) x
  || (ci && (JS.in_range (fst r) (snd r) (JS.upper_char x)
             || JS.in_range (fst r) (snd r) (JS.lower_char x))).

Definition class_has (ci neg : bool) (ranges : list (ascii * ascii)) (x : ascii) : bool :=
  xorb neg (existsb (range_has ci x) ranges).

Definition advance (x : ascii) (t : string) (s : mstate) : mstate :=
  MState (Some x) t (S (pos s)) (caps s).

Definition set_cap (n : nat) (v : string) (s : mstate) : mstate :=
  MState (before s) (rest s) (pos s) ((n, v) :: caps s).

Definition word_before (s : mstate) : bool :=
  match before s with Some c => JS.is_word c | None => false end.

Definition word_after (s : mstate) : bool :=
  match rest s with String c _ => JS.is_word c | EmptyString => false end.

(** [m ci r k s]: match [r] at state [s] and continue with [k]; [None] is
    failure, on which the caller backtracks.  An iteration of a star that
    consumes nothing is refused, as in JavaScript. *)
Fixpoint m (ci : bool) (r : regex) (k : mstate -> option mstate) (s : mstate)
  {struct r} : option mstate :=
  match r with
  | Empty => k s
  | Char c =>
      match rest s with
      | String x t => if char_eq ci c x then k (advance x t s) else None
      | EmptyString => None
      end
  | Class neg ranges =>
      match rest s with
      | String x t => if class_has ci neg ranges x then k (advance x t s) else None
      | EmptyString => None
      end
  | Seq r1 r2 => m ci r1 (m ci r2 k) s
  | Alt r1 r2 =>
      match m ci r1 k s with
      | Some e => Some e
      | None => m ci r2 k s
      end
  | Star r' =>
      (fix loop (fuel : nat) (s0 : mstate) {struct fuel} : option mstate :=
         match fuel with
         | O => k s0
         | S fuel' =>
             match m ci r' (fun s1 => if Nat.ltb (pos s0) (pos s1)
                                      then loop fuel' s1 else None) s0 with
             | Some e => Some e
             | None => k s0
             end
         end) (S (String.length (rest s))) s
  | Group n r' =>
      m ci r' (fun s1 => k (set_cap n (substring 0 (pos s1 - pos s) (rest s)) s1)) s
  | Bol => match before s with None => k s | Some _ => None end
  | Eol => match rest s with EmptyString => k s | String _ _ => None end
  | WordB => if xorb (word_before s) (word_after s) then k s else None
  end.

(** A successful match: where it starts, the matched text ([match[0]]),
    the captured groups, and the state where it ends. *)
Record mresult : Type := MResult {
  index : nat;
  matched : string;
  groups : list (nat * string);
  stop : mstate
}.

(** [match[n]]; [None] is [undefined]. *)
Fixpoint assoc (n : nat) (l : list (nat * string)) : option string :=
  match l with
  | [] => None
  | (i, v) :: l' => if Nat.eqb i n then Some v else assoc n l'
  end.

Definition group (n : nat) (res : mresult) : option string := assoc n (groups res).

Definition match_at (ci : bool) (r : regex) (s : mstate) : option mresult :=
  match m ci r Some s with
  | Some e => Some (MResult (pos s) (substring 0 (pos e - pos s) (rest s)) (caps e) e)
  | None => None
  end.

(** The leftmost match at or after the given position. *)
Fixpoint search (ci : bool) (r : regex) (b : option ascii) (p : nat) (t : string)
  : option mresult :=
  match match_at ci r (MState b t p []) with
  | Some res => Some res
  | None =>
      match t with
      | EmptyString => None
      | String c t' => search ci r (Some c) (S p) t'
      end
  end.

(** [s.match(r)] and [r.exec(s)] without the [g] flag; [r.test(s)]. *)
Definition exec (ci : bool) (r : regex) (s : string) : option mresult :=
  search ci r None O s.

Definition test (ci : bool) (r : regex) (s : string) : bool :=
  match exec ci r s with Some _ => true | None => false end.

(** [s.match(r)] with the [g] flag: the text of every match, left to right.
    After an empty match the search resumes one character further. *)
Fixpoint match_all_from (fuel : nat) (ci : bool) (r : regex)
  (b : option ascii) (p : nat) (t : string) : list string :=
  match fuel with
  | O => []
  | S fuel' =>
      match search ci r b p t with
      | None => []
      | Some res =>
          let e := stop res in
          matched res ::
          (if Nat.ltb (index res) (pos e)
           then match_all_from fuel' ci r (before e) (pos e) (rest e)
           else match rest e with
                | EmptyString => []
                | String c t' => match_all_from fuel' ci r (Some c) (S (pos e)) t'
                end)
      end
  end.

Definition match_all (ci : bool) (r : regex) (s : string) : list string :=
  match_all_from (S (String.length s)) ci r None O s.

End Regex.

(** ** Dates

    The part of [Date] the handler uses, over local civil time. *)

Module Date.

Definition msPerDay : Z := 86400000.

Definition Day (t : Z) : Z := t / msPerDay.
Definition TimeWithinDay (t : Z) : Z := t mod msPerDay.

(** Day number (days since 1970-01-01) of a civil date of the proleptic
    Gregorian calendar; [mo] is 1 to 12. *)
Definition days_from_civil (y mo d : Z) : Z :=
  let y' := if mo <=? 2 then y - 1 else y in
  let era := y' / 400 in
  let yoe := y' - era * 400 in
  let mp := (mo + 9) mod 12 in
  let doy := (153 * mp + 2) / 5 + d - 1 in
  let doe := yoe * 365 + yoe / 4 - yoe / 100 + doy in
  era * 146097 + doe - 719468.

(** Civil year and month (1 to 12) of a day number. *)
Definition year_month_of_day (z : Z) : Z * Z :=
  let z' := z + 719468 in
  let era := z' / 146097 in
  let doe := z' - era * 146097 in
  let yoe := (doe - doe / 1460 + doe / 36524 - doe / 146096) / 365 in
  let doy := doe - (365 * yoe + yoe / 4 - yoe / 100) in
  let mp := (5 * doy + 2) / 153 in
  let mo := if mp <? 10 then mp + 3 else mp - 9 in
  (if mo <=? 2 then yoe + era * 400 + 1 else yoe + era * 400, mo).

(** [MakeDay(year, month, date)]: [month] is 0-based and may lie outside
    0..11, [date] may lie outside the month. *)
Definition MakeDay (year month date : Z) : Z :=
  days_from_civil (year + month / 12) (month mod 12 + 1) 1 + date - 1.

Definition getFullYear (t : Z) : Z := fst (year_month_of_day (Day t)).
Definition getMonth (t : Z) : Z := snd (year_month_of_day (Day t)) - 1.

(** Day of the month: the distance to the first day of the month. *)
Definition getDate (t : Z) : Z :=
  Day t - MakeDay (getFullYear t) (getMonth t) 1 + 1.

(** Day of the week, Sunday = 0; 1970-01-01 was a Thursday. *)
Definition getDay (t : Z) : Z := (Day t + 4) mod 7.

(** [new Date(year, month, date)]: local midnight; a year from 0 to 99 is
    taken as 1900 + year. *)
Definition make (year month date : Z) : Z :=
  let yr := if (0 <=? year) && (year <=? 99) then 1900 + year else year in
  MakeDay yr month date * msPerDay.

(** [d.setDate(date)], [d.setMonth(month)], [d.setHours(0, 0, 0, 0)] and
    [d.setHours(h, min)]; each gives the new time value. *)
Definition setDate (t date : Z) : Z :=
  MakeDay (getFullYear t) (getMonth t) date * msPerDay + TimeWithinDay t.

Definition setMonth (t month : Z) : Z :=
  MakeDay (getFullYear t) month (getDate t) * msPerDay + TimeWithinDay t.

Definition startOfDay (t : Z) : Z := Day t * msPerDay.

(** [MakeTime(hour, min, sec, ms)] and [MakeDate(day, time)], which compute
    as the operators [*] and [+] do and give [NaN] for an argument or a
    result that is not finite. *)
Definition finite (x : option Z) : option Z :=
  match x with
  | Some n => if JS.isFinite n then Some n else None
  | None => None
  end.

Definition MakeTime (hour min sec ms : option Z) : option Z :=
  match finite hour, finite min, finite sec, finite ms with
  | Some h, Some m, Some s, Some milli =>
      JS.plus
        (JS.plus
           (JS.plus (JS.times (Some h) (Some 3600000)) (JS.times (Some m) (Some 60000)))
           (JS.times (Some s) (Some 1000)))
        (Some milli)
  | _, _, _, _ => None
  end.

Definition MakeDate (day time : option Z) : option Z :=
  match finite day, finite time with
  | Some d, Some t => finite (JS.plus (JS.times (Some d) (Some msPerDay)) (Some t))
  | _, _ => None
  end.

(** [d.setHours(h, min)] before [TimeClip]: the local time it makes, with
    the seconds and milliseconds of [t]. *)
Definition setHours (t : Z) (h mi : option Z) : option Z :=
  MakeDate (Some (Day t))
    (MakeTime h mi (Some (t / 1000 mod 60)) (Some (t mod 1000))).

(** The largest time value of a [Date], on either side of the epoch. *)
Definition maxTime : Z := 8640000000000000.

End Date.

Import Regex.

(** ** The collaborators of the handler *)

(** [CalendarEvent] of [types.ts]. *)
Record CalendarEvent : Type := {
  id : string;
  summary : option string;
  ev_description : option string;
  start_dateTime : string;
  ev_attendees : option (list string)
}.

(** The handlers the router chooses from. *)
Inductive Handler : Type :=
| MeetingRequest | CancelRequest | ListMeetingsRequest | UpdateRequest | Chat.

(** What one run of the handler reads from outside: the clock, the
    implementation-defined parts of [Date], and the calendar service.
    [None] from [startAuthProcess] or [listUpcomingEvents] is a rejected
    promise; a date that is [None] is an invalid date; [utcEpoch] is the
    local time of [new Date(null)].  The clock is read once per run: every
    [new Date()] of one run gives [now].  [serviceReplies] gives the texts
    sent by
    [handleListMeetingsRequest], [handleUpdateRequest] and [handleChat],
    which come from the calendar and chat services; these three handlers
    never touch [userMeetingStates]. *)
Record World : Type := {
  now : Z;
  parseDate : string -> option Z;
  utcEpoch : Z;
  toLocaleDateString : option Z -> string;
  toLocaleTimeString : option Z -> string;
  isUserAuthorized : Z -> bool;
  startAuthProcess : Z -> option string;
  createMeeting : Z -> string -> string -> option Z -> option Z -> list string -> bool;
  listUpcomingEvents : Z -> Z -> Z -> Z -> option (list CalendarEvent);
  serviceReplies : Handler -> Z -> string -> list string
}.

(** ** Time and date tables *)

Definition TIME_EXPRESSIONS : list (string * string) :=
  [ ("noon", "12:00");
    ("midnight", "00:00");
    ("midday", "12:00");
    ("morning", "09:00");
    ("afternoon", "14:00");
    ("evening", "18:00");
    ("night", "20:00");
    ("dawn", "06:00");
    ("dusk", "18:00");
    ("lunch", "12:00");
    ("breakfast", "08:00");
    ("dinner", "19:00");
    ("brunch", "10:30");
    ("eod", "17:00");
    ("cob", "17:00");
    ("early morning", "07:00");
    ("late night", "23:00") ].

Definition DATE_EXPRESSIONS : list (string * (Z -> Z)) :=
  [ ("today", fun date => date);
    ("tomorrow", fun date => Date.setDate date (Date.getDate date + 1));
    ("day after tomorrow", fun date => Date.setDate date (Date.getDate date + 2));
    ("next week", fun date => Date.setDate date (Date.getDate date + 7));
    ("weekend", fun date =>
       let daysToWeekend := 6 - Date.getDay date in
       Date.setDate date (Date.getDate date + daysToWeekend));
    ("month end", fun date =>
       Date.make (Date.getFullYear date) (Date.getMonth date + 1) 0);
    ("next month", fun date => Date.setMonth date (Date.getMonth date + 1));
    ("christmas", fun date => Date.make (Date.getFullYear date) 11 25);
    ("new year", fun date => Date.make (Date.getFullYear date + 1) 0 1) ].

(** The first entry of a table whose key occurs in the text: the [for]
    loop over [Object.entries] with its early [return]. *)
Fixpoint first_included {A : Type} (text : string) (table : list (string * A))
  : option (string * A) :=
  match table with
  | [] => None
  | (expr, v) :: table' =>
      if JS.includes text expr then Some (expr, v) else first_included text table'
  end.

(** ** Time extraction *)

(** The five patterns of [extractTime], each with its [i] flag:
    [/(\d{1,2})(?::(\d{2}))?\s*(am|pm|a\.m\.|p\.m\.)?/i],
    [/(\d{1,2})[.:](\d{2})/],
    [/(\d{1,2})\s*o['']\s*clock/i],
    [/(\d{1,2})\s*hrs/i] and
    [/at\s+(\d{1,2})(?::(\d{2}))?\s*(am|pm)?/i]. *)
Definition digits12 : regex := seq [digit; Opt digit].

Definition timePatterns : list (bool * regex) :=
  [ (true, seq [Group 1 digits12; Opt (seq [Char ":"; Group 2 (seq [digit; digit])]);
                Star space;
                Opt (Group 3 (alt [lit "am"; lit "pm"; lit "a.m."; lit "p.m."]))]);
    (false, seq [Group 1 digits12; Class false [(".", "."); (":", ":")]%char;
                 Group 2 (seq [digit; digit])]);
    (true, seq [Group 1 digits12; Star space; Char "o"; Class false [("'", "'")]%char;
                Star space; lit "clock"]);
    (true, seq [Group 1 digits12; Star space; lit "hrs"]);
    (true, seq [lit "at"; Plus space; Group 1 digits12;
                Opt (seq [Char ":"; Group 2 (seq [digit; digit])]);
                Star space; Opt (Group 3 (alt [lit "am"; lit "pm"]))]) ].

(** Truthiness of an optional string and of an optional number. *)
Definition truthy_str (o : option string) : bool :=
  match o with Some EmptyString | None => false | Some _ => true end.

Definition truthy_num (o : option Z) : bool :=
  match o with Some n => negb (n =? 0) | None => false end.

(** [n.toString().padStart(2, '0')]; [None] is [NaN]. *)
Definition pad2 (n : option Z) : string :=
  JS.padStart 2 "0" (match n with Some v => JS.toString v | None => "NaN" end).

(** The body of the pattern loop of [extractTime] once a pattern matched:
    hours, minutes and meridian are read from the groups and normalised. *)
Definition timeOfMatch (lowerMessage : string) (res : mresult) : string :=
  let hours := JS.parseInt (default "" (group 1 res)) in
  let minutes :=
    if truthy_str (group 2 res) then JS.parseInt (default "" (group 2 res)) else Some 0 in
  let meridian := JS.toLowerCase <$> group 3 res in
  let has (c : string) :=
    match meridian with Some mer => JS.includes mer c | None => false end in
  let lt12 (h : option Z) := match h with Some v => v <? 12 | None => false end in
  let hours := if has "p" && lt12 hours then Z.add 12 <$> hours else hours in
  let hours :=
    if has "a" && match hours with Some v => v =? 12 | None => false end
    then Some 0 else hours in
  let hours :=
    if negb (truthy_str meridian) && lt12 hours
       && (JS.includes lowerMessage "evening" || JS.includes lowerMessage "night")
    then Z.add 12 <$> hours else hours in
  pad2 hours +:+ ":" +:+ pad2 minutes.

(** The first pattern of the list that matches the message. *)
Fixpoint first_match (patterns : list (bool * regex)) (message : string)
  : option mresult :=
  match patterns with
  | [] => None
  | (ci, r) :: patterns' =>
      match exec ci r message with
      | Some res => Some res
      | None => first_match patterns' message
      end
  end.

Definition extractTime (message : string) : option string :=
  let lowerMessage := JS.toLowerCase message in
  match first_included lowerMessage TIME_EXPRESSIONS with
  | Some (_, time) => Some time
  | None =>
      match first_match timePatterns message with
      | Some res => Some (timeOfMatch lowerMessage res)
      | None => None
      end
  end.

(** ** Date resolution *)

Section Resolver.

Variable w : World.

(** [isValidFutureDate(date)]: not before today at midnight. *)
Definition isValidFutureDate (date : Z) : bool :=
  let today := Date.startOfDay (now w) in
  today <=? date.

(** [isValidFutureDate(date) ? date : null] *)
Definition validated (date : Z) : option Z :=
  if isValidFutureDate date then Some date else None.

(** [/^(\d{1,2})[-\/](\d{1,2})(?:[-\/](\d{4}))?$/] *)
Definition dashOrSlash : regex := Class false [("-", "-"); ("/", "/")]%char.
Definition digits4 : regex := seq [digit; digit; digit; digit].

Definition numericDatePattern : regex :=
  seq [Bol; Group 1 digits12; dashOrSlash; Group 2 digits12;
       Opt (seq [dashOrSlash; Group 3 digits4]); Eol].

Definition monthNames : list string :=
  ["january"; "february"; "march"; "april"; "may"; "june"; "july"; "august";
   "september"; "october"; "november"; "december"].

Definition dayNumbers : list (string * Z) :=
  [ ("first", 1); ("second", 2); ("third", 3); ("fourth", 4); ("fifth", 5);
    ("sixth", 6); ("seventh", 7); ("eighth", 8); ("ninth", 9); ("tenth", 10);
    ("eleventh", 11); ("twelfth", 12); ("thirteenth", 13); ("fourteenth", 14);
    ("fifteenth", 15); ("sixteenth", 16); ("seventeenth", 17); ("eighteenth", 18);
    ("nineteenth", 19); ("twentieth", 20); ("twenty-first", 21);
    ("twenty-second", 22); ("twenty-third", 23); ("twenty-fourth", 24);
    ("twenty-fifth", 25); ("twenty-sixth", 26); ("twenty-seventh", 27);
    ("twenty-eighth", 28); ("twenty-ninth", 29); ("thirtieth", 30);
    ("thirty-first", 31) ].

(** The pattern built for a month name, flag [i]:
    [(\d{1,2})(?:st|nd|rd|th)?\s+MON\w*(?:\s+(\d{4}))?] where [MON] is
    the first three letters of the name. *)
Definition pattern1 (monthName : string) : regex :=
  seq [Group 1 digits12; Opt (alt [lit "st"; lit "nd"; lit "rd"; lit "th"]);
       Plus space; lit (substring 0 3 monthName); Star word;
       Opt (seq [Plus space; Group 2 digits4])].

(** The pattern built for a spelled day and a month name, flag [i]:
    [DAYWORD\s+MONTH(?:\s+(\d{4}))?]. *)
Definition pattern2 (dayWord monthName : string) : regex :=
  seq [lit dayWord; Plus space; lit monthName;
       Opt (seq [Plus space; Group 1 digits4])].

(** [new Date(year, month, day)] from numbers that may be [NaN]; [None]
    is an invalid date. *)
Definition madeDate (year month day : option Z) : option Z :=
  match year, month, day with
  | Some y, Some mo, Some d => Some (Date.make y mo d)
  | _, _, _ => None
  end.

(** [const date = new Date(year, month, day);
     return isValidFutureDate(date) ? date : null;]
    an invalid date is never valid. *)
Definition validatedDate (year month day : option Z) : option Z :=
  match madeDate year month day with
  | Some date => validated date
  | None => None
  end.

(** [g ? parseInt(g) : today.getFullYear()] *)
Definition yearOr (today : Z) (g : option string) : option Z :=
  if truthy_str g then JS.parseInt (default "" g) else Some (Date.getFullYear today).

(** The inner loop over [dayNumbers]: the year, month and day read at the
    first spelled day whose pattern matches, where the loop body returns;
    [None] when the loop runs to its end. *)
Fixpoint scanDayWords (today : Z) (lowerInput : string) (month : Z)
  (monthName : string) (days : list (string * Z))
  : option (option Z * option Z * option Z) :=
  match days with
  | [] => None
  | (dayWord, dayNum) :: days' =>
      match exec true (pattern2 dayWord monthName) lowerInput with
      | Some match2 => Some (yearOr today (group 1 match2), Some month, Some dayNum)
      | None => scanDayWords today lowerInput month monthName days'
      end
  end.

(** The loop over [monthNames], likewise; [month] is the index in
    [monthNames] of the head of [months]. *)
Fixpoint scanMonths (today : Z) (lowerInput : string) (month : Z)
  (months : list string) : option (option Z * option Z * option Z) :=
  match months with
  | [] => None
  | monthName :: months' =>
      match exec true (pattern1 monthName) lowerInput with
      | Some match1 =>
          Some (yearOr today (group 2 match1), Some month,
                JS.parseInt (default "" (group 1 match1)))
      | None =>
          match scanDayWords today lowerInput month monthName dayNumbers with
          | Some r => Some r
          | None => scanMonths today lowerInput (month + 1) months'
          end
      end
  end.

(** The year, month and day read from a match of [numericDatePattern]. *)
Definition numericParts (today : Z) (numericMatch : mresult)
  : option Z * option Z * option Z :=
  let day := JS.parseInt (default "" (group 1 numericMatch)) in
  let month := Z.add (-1) <$> JS.parseInt (default "" (group 2 numericMatch)) in
  let year := yearOr today (group 3 numericMatch) in
  (year, month, day).

Definition parseDateInput (input : string) : option Z :=
  let today := Date.startOfDay (now w) in
  let lowerInput := JS.toLowerCase input in
  match first_included lowerInput DATE_EXPRESSIONS with
  | Some (_, getDate) => Some (getDate (now w))
  | None =>
      match exec false numericDatePattern lowerInput with
      | Some numericMatch =>
          let '(year, month, day) := numericParts today numericMatch in
          validatedDate year month day
      | None =>
          match scanMonths today lowerInput 0 monthNames with
          | Some (year, month, day) => validatedDate year month day
          | None =>
              match parseDate w input with
              | Some directDate =>
                  if isValidFutureDate directDate then Some directDate else None
              | None => None
              end
          end
      end
  end.

(** [getWeekdayDate(weekday, qualifier)] *)
Definition weekdays : list string :=
  ["sunday"; "monday"; "tuesday"; "wednesday"; "thursday"; "friday"; "saturday"].

Fixpoint indexOf (x : string) (l : list string) (i : Z) : option Z :=
  match l with
  | [] => None
  | y :: l' => if String.eqb x y then Some i else indexOf x l' (i + 1)
  end.

Definition getWeekdayDate (weekday qualifier : string) : option Z :=
  let today := now w in
  match indexOf (JS.toLowerCase weekday) weekdays 0 with
  | None => None
  | Some targetDay =>
      let currentDay := Date.getDay today in
      let wrap (daysToAdd : Z) := if daysToAdd <=? 0 then daysToAdd + 7 else daysToAdd in
      let q := JS.toLowerCase qualifier in
      if String.eqb q "next" then
        let daysToAdd := targetDay - currentDay + 7 in
        Some (Date.setDate today (Date.getDate today + daysToAdd))
      else if String.eqb q "this" then
        let daysToAdd := wrap (targetDay - currentDay) in
        Some (Date.setDate today (Date.getDate today + daysToAdd))
      else if String.eqb q "coming" then
        let daysToAdd := wrap (targetDay - currentDay) in
        Some (Date.setDate today (Date.getDate today + daysToAdd))
      else if String.eqb q "last" then
        let lastDay := Date.make (Date.getFullYear today) (Date.getMonth today + 1) 0 in
        let lastDayWeekday := Date.getDay lastDay in
        let daysToAdd := targetDay - lastDayWeekday in
        let daysToAdd := if 0 <? daysToAdd then daysToAdd - 7 else daysToAdd in
        Some (Date.setDate lastDay (Date.getDate lastDay + daysToAdd))
      else
        let daysToAdd := wrap (targetDay - currentDay) in
        Some (Date.setDate today (Date.getDate today + daysToAdd))
  end.

End Resolver.

(** [/^[a-zA-Z0-9._%+-]+@[a-zA-Z0-9.-]+\.[a-zA-Z]{2,}$/] *)
Definition letter : regex := Class false [("a", "z"); ("A", "Z")]%char.

Definition emailRegex : regex :=
  seq [Bol;
       Plus (Class false [("a", "z"); ("A", "Z"); ("0", "9"); (".", "."); ("_", "_");
                          ("%", "%"); ("+", "+"); ("-", "-")]%char);
       Char "@";
       Plus (Class false [("a", "z"); ("A", "Z"); ("0", "9"); (".", "."); ("-", "-")]%char);
       Char "."; letter; letter; Star letter; Eol].

Definition validateEmail (email : string) : option string :=
  if test false emailRegex email then Some email else None.

(** ** The scheduling dialogue *)

(** [MeetingState] of [types.ts]. *)
Inductive Step : Type :=
| StepDate | StepTime | StepEmail | StepDuration | StepDescription | StepConfirm
| StepConfirmCancel | StepSelectCancel.

Record Details : Type := {
  date : option Z;
  time : option string;
  duration : option Z;
  attendees : list string;
  description : option string;
  meetingId : option string;
  meetings : option (list CalendarEvent)
}.

Record MeetingState : Type := {
  step : Step;
  details : Details
}.

Definition with_date (v : option Z) (d : Details) : Details :=
  {| date := v; time := time d; duration := duration d; attendees := attendees d;
     description := description d; meetingId := meetingId d; meetings := meetings d |}.

Definition with_time (v : option string) (d : Details) : Details :=
  {| date := date d; time := v; duration := duration d; attendees := attendees d;
     description := description d; meetingId := meetingId d; meetings := meetings d |}.

Definition with_duration (v : option Z) (d : Details) : Details :=
  {| date := date d; time := time d; duration := v; attendees := attendees d;
     description := description d; meetingId := meetingId d; meetings := meetings d |}.

Definition with_attendees (v : list string) (d : Details) : Details :=
  {| date := date d; time := time d; duration := duration d; attendees := v;
     description := description d; meetingId := meetingId d; meetings := meetings d |}.

Definition with_description (v : option string) (d : Details) : Details :=
  {| date := date d; time := time d; duration := duration d; attendees := attendees d;
     description := v; meetingId := meetingId d; meetings := meetings d |}.

(** *** Entry-time extraction *)

(** The result of [analyzeMeetingRequest]. *)
Record ExtractedInfo : Type := {
  x_time : option string;
  x_name : option string;
  x_date : option string;
  x_duration : option Z;
  x_emails : list string;
  x_description : option string
}.

Record Analysis : Type := {
  hasTime : bool;
  hasName : bool;
  hasDate : bool;
  hasDuration : bool;
  hasEmail : bool;
  extractedInfo : ExtractedInfo
}.

(** [/(\d{1,2})(?::(\d{2}))?\s*(am|pm|AM|PM)?/] *)
Definition timePattern : regex :=
  seq [Group 1 digits12; Opt (seq [Char ":"; Group 2 (seq [digit; digit])]);
       Star space; Opt (Group 3 (alt [lit "am"; lit "pm"; lit "AM"; lit "PM"]))].

(** [/(?:with|for)\s+([A-Za-z]+)/i] *)
Definition namePattern : regex :=
  seq [alt [lit "with"; lit "for"]; Plus space;
       Group 1 (Plus (Class false [("A", "Z"); ("a", "z")]%char))].

(** [/(?:on|for|next|today|tomorrow)\s*
      (monday|tuesday|wednesday|thursday|friday|saturday|sunday|tomorrow|today)?/i] *)
Definition datePattern : regex :=
  seq [alt [lit "on"; lit "for"; lit "next"; lit "today"; lit "tomorrow"];
       Star space;
       Opt (Group 1 (alt [lit "monday"; lit "tuesday"; lit "wednesday"; lit "thursday";
                          lit "friday"; lit "saturday"; lit "sunday"; lit "tomorrow";
                          lit "today"]))].

(** [/(\d+)\s*(?:min|minutes?|hrs?|hours?)/i] *)
Definition durationPattern : regex :=
  seq [Group 1 (Plus digit); Star space;
       alt [lit "min"; seq [lit "minute"; Opt (Char "s")]; seq [lit "hr"; Opt (Char "s")];
            seq [lit "hour"; Opt (Char "s")]]].

(** [/[\w\.-]+@[\w\.-]+\.\w+/g] *)
Definition emailChars : regex :=
  Class false (word_ranges ++ [(".", "."); ("-", "-")]%char).

Definition emailPattern : regex :=
  seq [Plus emailChars; Char "@"; Plus emailChars; Char "."; Plus word].

(** [/(?:with description|description:?|about|regarding)\s*QUOTE?([^QUOTES]+)QUOTE?/i]
    where a QUOTE is a single or a double quote. *)
Definition quotes : list (ascii * ascii) := [("034", "034"); ("'", "'")]%char.

Definition descPattern : regex :=
  seq [alt [lit "with description"; seq [lit "description"; Opt (Char ":")];
            lit "about"; lit "regarding"];
       Star space; Opt (Class false quotes);
       Group 1 (Plus (Class true quotes)); Opt (Class false quotes)].

Definition is_some {A : Type} (o : option A) : bool :=
  match o with Some _ => true | None => false end.

(** [o || undefined] for an optional string: an empty string is dropped. *)
Definition or_undefined (o : option string) : option string :=
  if truthy_str o then o else None.

Definition analyzeMeetingRequest (message : string) : Analysis :=
  let timeMatch := exec false timePattern message in
  let nameMatch := exec true namePattern message in
  let dateMatch := exec true datePattern message in
  let durationMatch := exec true durationPattern message in
  let emailMatches := match_all false emailPattern message in
  let descMatch := exec true descPattern message in
  let hasToday := JS.includes (JS.toLowerCase message) "today" in
  let noDesc := JS.includes (JS.toLowerCase message) "no description" in
  let duration :=
    match durationMatch with
    | Some dm =>
        let num := JS.toNumber <$> JS.parseInt (default "" (group 1 dm)) in
        let unit := JS.toLowerCase (matched dm) in
        if JS.includes unit "hour" then JS.times num (Some 60) else num
    | None => None
    end in
  {| hasTime := is_some timeMatch;
     hasName := is_some nameMatch;
     hasDate := hasToday || is_some dateMatch;
     hasDuration := is_some durationMatch;
     hasEmail := negb (Nat.eqb (List.length emailMatches) 0);
     extractedInfo :=
       {| x_time := match timeMatch with
                    | Some tm => or_undefined (extractTime (matched tm))
                    | None => None
                    end;
          x_name := match nameMatch with Some nm => group 1 nm | None => None end;
          x_date := if hasToday then Some "today"
                    else or_undefined (match dateMatch with
                                       | Some dm => group 1 dm
                                       | None => None
                                       end);
          x_duration := duration;
          x_emails := emailMatches;
          x_description := if noDesc then None
                           else match descMatch with
                                | Some dm => group 1 dm
                                | None => None
                                end |} |}.

(** *** Replies

    Every [ctx.reply] of the dialogue, with the values its text is built
    from; [render] gives the text. *)
Inductive Reply : Type :=
| ReplyCancelled
| ReplyUnderstood (state : MeetingState)
| ReplyDateRetry
| ReplyAskTime
| ReplyAskEmail
| ReplyTimeRetry
| ReplyAskDuration
| ReplyEmailRetry
| ReplyAskDescription
| ReplyDurationRetry
| ReplyAskDescriptionAfterDuration
| ReplyConfirm (d : Details)
| ReplyAuthorize (authUrl : string)
| ReplyScheduled (startTime : option Z) (d : Details)
| ReplyNotScheduled
| ReplyStartOver
| ReplyError
| ReplyCancelAuthorize (authUrl : string)
| ReplyNoMeetings (targetDate : Z)
| ReplyFoundMeeting (meeting : CalendarEvent)
| ReplyChooseMeeting (targetDate : Z) (found : list CalendarEvent)
| ReplyCancelError
| ReplyText (text : string)
| ReplyRouterError.




(** [o || fallback] *)
Definition or_else (o : option string) (fallback : string) : string :=
  if truthy_str o then default fallback o else fallback.

Section Render.

Variable w : World.






End Render.

(** *** The dialogue handler *)

(** The store [userMeetingStates] after a run, and the replies sent. *)
Record Result : Type := {
  states : gmap Z MeetingState;
  replies : list Reply
}.

(** How the [switch] over the step ends: a [return] inside it, a [break]
    (which reaches the final [userMeetingStates.set(userId, state)]) or an
    exception (which reaches the [catch]). *)
Inductive Flow : Type :=
| Return (r : Result)
| Break (state : MeetingState) (store : gmap Z MeetingState) (sent : list Reply)
| Throw.

Definition cancelKeywords : list string :=
  ["cancel"; "stop"; "no"; "quit"; "exit"; "nevermind"; "never mind"].

(** [cancelKeywords.some(keyword => userMessage.toLowerCase().includes(keyword))] *)
Definition hasCancelKeyword (userMessage : string) : bool :=
  existsb (fun keyword => JS.includes (JS.toLowerCase userMessage) keyword) cancelKeywords.

(** [cancelKeywords.includes(userMessage.toLowerCase())] *)
Definition isCancelKeyword (userMessage : string) : bool :=
  existsb (String.eqb (JS.toLowerCase userMessage)) cancelKeywords.

Section Dialogue.

Variable w : World.

(** The state built from the first message, in the [if (!state)] block. *)
Definition initialState (userMessage : string) : MeetingState :=
  let analysis := analyzeMeetingRequest userMessage in
  let info := extractedInfo analysis in
  let d := {| date := None; time := None; duration := None; attendees := [];
              description := None; meetingId := None; meetings := None |} in
  let d := if truthy_str (x_time info) then with_time (x_time info) d else d in
  let d :=
    if truthy_str (x_date info)
    then match parseDateInput w (default "" (x_date info)) with
         | Some parsedDate => with_date (Some parsedDate) d
         | None => d
         end
    else d in
  let d := if truthy_num (x_duration info) then with_duration (x_duration info) d else d in
  let d :=
    if negb (Nat.eqb (List.length (x_emails info)) 0)
    then with_attendees (x_emails info) d else d in
  let d :=
    if is_some (x_description info) then with_description (x_description info) d else d in
  let d :=
    if JS.includes (JS.toLowerCase userMessage) "today"
    then with_date (Some (now w)) d else d in
  let step :=
    if negb (is_some (date d)) then StepDate
    else if negb (truthy_str (time d)) then StepTime
    else if Nat.eqb (List.length (attendees d)) 0 then StepEmail
    else if negb (truthy_num (duration d)) then StepDuration
    else StepConfirm in
  {| step := step; details := d |}.

(** [new Date(value)] for a time value, as the local time of the date
    ([None] is an invalid date), and [d.getTime()]. *)
Definition newDate (value : option Z) : option Z :=
  match value with
  | Some v => if Date.maxTime <? Z.abs v then None else Some (v + utcEpoch w)
  | None => None
  end.

Definition getTime (d : Z) : Z := d - utcEpoch w.

(** The [yes] branch of the [confirm] step.  [createMeeting] answers
    [false] when [toISOString] throws on an invalid date. *)
Definition confirmYes (store : gmap Z MeetingState) (userId : Z) (state : MeetingState)
  : Flow :=
  let d := details state in
  if negb (isUserAuthorized w userId) then
    match startAuthProcess w userId with
    | Some authUrl => Return {| states := store; replies := [ReplyAuthorize authUrl] |}
    | None => Throw
    end
  else
    let startTime := match date d with Some t => t | None => utcEpoch w end in
    match time d with
    | None => Throw
    | Some t =>
        let parts := JS.split ":" t in
        let hours := JS.toNumber <$> JS.parseInt (default "" (parts !! 0%nat)) in
        let minutes := match parts !! 1%nat with
                       | Some part => JS.toNumber <$> JS.parseInt part
                       | None => None
                       end in
        let startTime := newDate (getTime <$> Date.setHours startTime hours minutes) in
        let endTime :=
          newDate (JS.plus (getTime <$> startTime)
                     (JS.times (duration d) (Some 60000))) in
        match attendees d with
        | [] => Throw
        | first :: _ =>
            let success :=
              match startTime, endTime with
              | Some _, Some _ =>
                  createMeeting w userId
                    ("Meeting with " +:+ default "" (JS.split "@" first !! 0%nat))
                    (or_else (description d) "Meeting scheduled via Remo")
                    startTime endTime (attendees d)
              | _, _ => false
              end in
            Break state (delete userId store)
              [if success then ReplyScheduled startTime d else ReplyNotScheduled]
        end
    end.

(** The [switch (state.step)] of the handler. *)
Definition onStep (store : gmap Z MeetingState) (userId : Z) (userMessage : string)
  (state : MeetingState) : Flow :=
  let d := details state in
  match step state with
  | StepDate =>
      match parseDateInput w userMessage with
      | None => Return {| states := store; replies := [ReplyDateRetry] |}
      | Some parsedDate =>
          let d := with_date (Some parsedDate) d in
          Break {| step := if truthy_str (time d) then StepEmail else StepTime;
                   details := d |}
                store [if truthy_str (time d) then ReplyAskEmail else ReplyAskTime]
      end
  | StepTime =>
      match or_undefined (extractTime userMessage) with
      | None => Return {| states := store; replies := [ReplyTimeRetry] |}
      | Some timeDetails =>
          let d := with_time (Some timeDetails) d in
          let known := negb (Nat.eqb (List.length (attendees d)) 0) in
          Break {| step := if known then StepDuration else StepEmail; details := d |}
                store [if known then ReplyAskDuration else ReplyAskEmail]
      end
  | StepEmail =>
      match or_undefined (validateEmail userMessage) with
      | None => Return {| states := store; replies := [ReplyEmailRetry] |}
      | Some email =>
          let d := with_attendees [email] d in
          Break {| step := if truthy_num (duration d) then StepDescription else StepDuration;
                   details := d |}
                store [if truthy_num (duration d) then ReplyAskDescription
                       else ReplyAskDuration]
      end
  | StepDuration =>
      let duration := JS.parseInt userMessage in
      match duration with
      | None => Return {| states := store; replies := [ReplyDurationRetry] |}
      | Some n =>
          if (n <=? 0) || (480 <? n)
          then Return {| states := store; replies := [ReplyDurationRetry] |}
          else Break {| step := StepDescription; details := with_duration (Some n) d |}
                     store [ReplyAskDescriptionAfterDuration]
      end
  | StepDescription =>
      let d := if negb (String.eqb (JS.toLowerCase userMessage) "skip")
               then with_description (Some userMessage) d else d in
      Break {| step := StepConfirm; details := d |} store [ReplyConfirm d]
  | StepConfirm =>
      if JS.includes (JS.toLowerCase userMessage) "yes" then confirmYes store userId state
      else if negb (isCancelKeyword userMessage)
      then Break state (delete userId store) [ReplyStartOver]
      else Break state store []
  | StepConfirmCancel | StepSelectCancel => Break state store []
  end.

(** The body of the [try] block; [None] when it throws. *)
Definition meetingTry (userMeetingStates : gmap Z MeetingState) (userId : Z)
  (userMessage : string) : option Result :=
  let state := userMeetingStates !! userId in
  if hasCancelKeyword userMessage && is_some state then
    Some {| states := delete userId userMeetingStates; replies := [ReplyCancelled] |}
  else
    match state with
    | None =>
        let state := initialState userMessage in
        Some {| states := <[userId := state]> userMeetingStates;
                replies := [ReplyUnderstood state] |}
    | Some state =>
        match onStep userMeetingStates userId userMessage state with
        | Return r => Some r
        | Break state store sent =>
            Some {| states := <[userId := state]> store; replies := sent |}
        | Throw => None
        end
    end.

Definition handleMeetingRequest (userMeetingStates : gmap Z MeetingState) (userId : Z)
  (userMessage : string) : Result :=
  match meetingTry userMeetingStates userId userMessage with
  | Some r => r
  | None => {| states := delete userId userMeetingStates; replies := [ReplyError] |}
  end.

End Dialogue.

(** ** The cancel-meeting flow *)

Section CancelFlow.

Variable w : World.

(** The body of the [try] block of [handleCancelRequest]; [None] when it
    throws. *)
Definition cancelTry (userMeetingStates : gmap Z MeetingState) (userId : Z)
  (userMessage : string) : option Result :=
  if negb (isUserAuthorized w userId) then
    match startAuthProcess w userId with
    | Some authUrl =>
        Some {| states := userMeetingStates; replies := [ReplyCancelAuthorize authUrl] |}
    | None => None
    end
  else
    let today := now w in
    let targetDate :=
      if JS.includes (JS.toLowerCase userMessage) "tomorrow"
      then Date.setDate today (Date.getDate today + 1)
      else today in
    let targetDate := Date.startOfDay targetDate in
    let endDate := targetDate + (Date.msPerDay - 1) in
    match listUpcomingEvents w userId 1 targetDate endDate with
    | None => None
    | Some [] =>
        Some {| states := userMeetingStates; replies := [ReplyNoMeetings targetDate] |}
    | Some [meeting] =>
        let startTime := parseDate w (start_dateTime meeting) in
        Some {| states :=
                  <[userId :=
                      {| step := StepConfirmCancel;
                         details :=
                           {| date := Some targetDate;
                              meetingId := Some (id meeting);
                              time := Some (toLocaleTimeString w startTime);
                              attendees := default [] (ev_attendees meeting);
                              description := ev_description meeting;
                              duration := None;
                              meetings := None |} |}]> userMeetingStates;
                replies := [ReplyFoundMeeting meeting] |}
    | Some found =>
        Some {| states :=
                  <[userId :=
                      {| step := StepSelectCancel;
                         details :=
                           {| date := Some targetDate;
                              meetings := Some found;
                              time := None;
                              attendees := [];
                              description := None;
                              duration := None;
                              meetingId := None |} |}]> userMeetingStates;
                replies := [ReplyChooseMeeting targetDate found] |}
    end.

Definition handleCancelRequest (userMeetingStates : gmap Z MeetingState) (userId : Z)
  (userMessage : string) : Result :=
  match cancelTry userMeetingStates userId userMessage with
  | Some r => r
  | None => {| states := userMeetingStates; replies := [ReplyCancelError] |}
  end.

End CancelFlow.

(** ** Intent classification and routing *)

(** The seven patterns of [isMeetingRequest], all with the [i] flag:
    [/\b(schedule|set\s*up|book|arrange|plan)\b/i],
    [/\b(update|change|modify)\b/i], [/\b(reschedule|move|postpone)\b/i],
    [/\b(cancel|delete)\b/i], [/\bmeeting\b/i], [/\bcall\b/i] and
    [/\bappointment\b/i]. *)
Definition meetingKeywords : list regex :=
  [ seq [WordB; Group 1 (alt [lit "schedule"; seq [lit "set"; Star space; lit "up"];
                              lit "book"; lit "arrange"; lit "plan"]); WordB];
    seq [WordB; Group 1 (alt [lit "update"; lit "change"; lit "modify"]); WordB];
    seq [WordB; Group 1 (alt [lit "reschedule"; lit "move"; lit "postpone"]); WordB];
    seq [WordB; Group 1 (alt [lit "cancel"; lit "delete"]); WordB];
    seq [WordB; lit "meeting"; WordB];
    seq [WordB; lit "call"; WordB];
    seq [WordB; lit "appointment"; WordB] ].

Definition isMeetingRequest (message : string) : bool :=
  existsb (fun pattern => test true pattern message) meetingKeywords.

(** The three patterns of the router, without flags:
    [/\b(cancel|delete)\b.*\b(meeting|appointment)\b/],
    [/\b(check|list|show|view|get)\b.*\b(meetings|schedule|calendar)\b/] and
    [/\b(update|change|move|postpone|reschedule)\b/]. *)
Definition cancelPhrase : regex :=
  seq [WordB; Group 1 (alt [lit "cancel"; lit "delete"]); WordB; Star dot;
       WordB; Group 2 (alt [lit "meeting"; lit "appointment"]); WordB].

Definition listPhrase : regex :=
  seq [WordB; Group 1 (alt [lit "check"; lit "list"; lit "show"; lit "view"; lit "get"]);
       WordB; Star dot;
       WordB; Group 2 (alt [lit "meetings"; lit "schedule"; lit "calendar"]); WordB].

Definition updateVerb : regex :=
  seq [WordB; Group 1 (alt [lit "update"; lit "change"; lit "move"; lit "postpone";
                            lit "reschedule"]); WordB].

(** What the router needs of the Telegram context: the text of the message,
    if it is a text message, and the id of the sender, if there is one. *)
Record Context : Type := {
  message_text : option string;
  from_id : option Z
}.

(** The outcome of [handleMessage]: the handler it invoked, if any, with
    the store and the replies afterwards. *)
Record Outcome : Type := {
  invoked : option Handler;
  result : Result
}.

Section Router.

Variable w : World.

Definition served (h : Handler) (userMeetingStates : gmap Z MeetingState)
  (userId : Z) (userMessage : string) : Outcome :=
  {| invoked := Some h;
     result := {| states := userMeetingStates;
                  replies := ReplyText <$> serviceReplies w h userId userMessage |} |}.

Definition handleMessage (userMeetingStates : gmap Z MeetingState) (ctx : Context)
  : Outcome :=
  let ignored := {| invoked := None;
                    result := {| states := userMeetingStates; replies := [] |} |} in
  match message_text ctx with
  | None => ignored
  | Some text =>
      match from_id ctx with
      | None => ignored
      | Some userId =>
          if userId =? 0 then ignored
          else
            let userMessage := JS.trim text in
            let state := userMeetingStates !! userId in
            if isMeetingRequest userMessage || is_some state then
              {| invoked := Some MeetingRequest;
                 result := handleMeetingRequest w userMeetingStates userId userMessage |}
            else if test false cancelPhrase (JS.toLowerCase userMessage) then
              {| invoked := Some CancelRequest;
                 result := handleCancelRequest w userMeetingStates userId userMessage |}
            else if test false listPhrase (JS.toLowerCase userMessage) then
              served ListMeetingsRequest userMeetingStates userId userMessage
            else if test false updateVerb (JS.toLowerCase userMessage) then
              served UpdateRequest userMeetingStates userId userMessage
            else
              served Chat userMeetingStates userId userMessage
      end
  end.

End Router.

(** ** Sample collaborators, for running the handler on concrete inputs *)

(** A world whose clock shows [t]: the user is authorised and the calendar
    accepts every meeting. *)
Definition world_at (t : Z) : World :=
  {| now := t;
     parseDate := fun _ => None;
     utcEpoch := 0;
     toLocaleDateString := fun _ => "";
     toLocaleTimeString := fun _ => "";
     isUserAuthorized := fun _ => true;
     startAuthProcess := fun _ => None;
     createMeeting := fun _ _ _ _ _ _ => true;
     listUpcomingEvents := fun _ _ _ _ => Some [];
     serviceReplies := fun _ _ _ => [] |}.

(** ** Notions used in the statements *)

(** Reading the literal word [word] at state [s], character by character. *)
Fixpoint strip (ci : bool) (word : string) (s : mstate) : option mstate :=
  match word with
  | EmptyString => Some s
  | String c word' =>
      match rest s with
      | String x t => if char_eq ci c x then strip ci word' (advance x t s) else None
      | EmptyString => None
      end
  end.

(** The state of a match in the lower-cased text, at the same position. *)
Definition lower_state (s : mstate) : mstate :=
  MState (JS.lower_char <$> before s) (JS.toLowerCase (rest s)) (pos s) (caps s).

Definition at_boundary (s : mstate) : bool := xorb (word_before s) (word_after s).

(** The pattern [\b(w1|...|wn)\b] followed by anything: where it matches,
    one of the words stands between two word boundaries. *)
Definition word_at (ci : bool) (words : list string) (s : mstate) : Prop :=
  at_boundary s = true /\
  exists word s', In word words /\ strip ci word s = Some s' /\ at_boundary s' = true.

Definition isCancelStep (s : Step) : bool :=
  match s with
  | StepConfirmCancel | StepSelectCancel => true
  | _ => false
  end.

(** No user has a dialogue of the cancel-meeting flow. *)
Definition no_cancel_dialogue (store : gmap Z MeetingState) : Prop :=
  forall userId state, store !! userId = Some state -> isCancelStep (step state) = false.

(** The store after a sequence of inbound messages, each handled under the
    collaborators of its moment. *)
Fixpoint run_messages (store : gmap Z MeetingState) (inbox : list (World * Context))
  : gmap Z MeetingState :=
  match inbox with
  | [] => store
  | (w, ctx) :: inbox' => run_messages (states (result (handleMessage w store ctx))) inbox'
  end.

(** A creation dialogue at the [confirm] step with every slot filled. *)
Definition confirmState : MeetingState :=
  {| step := StepConfirm;
     details := {| date := Some (Date.make 2026 10 4);
                   time := Some "15:00";
                   duration := Some 30;
                   attendees := ["john@x.com"];
                   description := None;
                   meetingId := None;
                   meetings := None |} |}.

(** A creation dialogue waiting for the date, with the time, the duration
    and the attendee already filled. *)
Definition openedAtDate : MeetingState :=
  {| step := StepDate;
     details := {| date := None;
                   time := Some "15:00";
                   duration := Some 30;
                   attendees := ["john@x.com"];
                   description := None;
                   meetingId := None;
                   meetings := None |} |}.

(** A creation dialogue waiting for the duration. *)
Definition durationState : MeetingState :=
  {| step := StepDuration;
     details := {| date := Some (Date.make 2026 10 4);
                   time := Some "15:00";
                   duration := None;
                   attendees := ["john@x.com"];
                   description := None;
                   meetingId := None;
                   meetings := None |} |}.

(** The calendar date to which the non-relative branches of
    [parseDateInput] resolve an input, before the validity rule is applied:
    the numeric branch, then the month-name and spelled-ordinal scan, then
    the generic parse. *)
Definition resolvedDate (w : World) (input : string) : option Z :=
  let today := Date.startOfDay (now w) in
  let lowerInput := JS.toLowerCase input in
  match exec false numericDatePattern lowerInput with
  | Some numericMatch =>
      let '(year, month, day) := numericParts today numericMatch in
      madeDate year month day
  | None =>
      match scanMonths today lowerInput 0 monthNames with
      | Some (year, month, day) => madeDate year month day
      | None => parseDate w input
      end
  end.

(** ** Notions about texts and patterns *)

Fixpoint all_chars (Q : ascii -> bool) (t : string) : bool :=
  match t with
  | EmptyString => true
  | String x t' => Q x && all_chars Q t'
  end.

Fixpoint any_char (Q : ascii -> bool) (t : string) : bool :=
  match t with
  | EmptyString => false
  | String x t' => Q x || any_char Q t'
  end.

(** The text holds a decimal digit. *)
Definition has_digit (t : string) : bool := any_char JS.is_digit t.

(** Every character that an atom of the pattern accepts satisfies [Q]. *)
Fixpoint atoms_in (ci : bool) (Q : ascii -> bool) (r : regex) : Prop :=
  match r with
  | Char c => forall x, char_eq ci c x = true -> Q x = true
  | Class neg ranges => forall x, class_has ci neg ranges x = true -> Q x = true
  | Seq r1 r2 | Alt r1 r2 => atoms_in ci Q r1 /\ atoms_in ci Q r2
  | Star r' | Group _ r' => atoms_in ci Q r'
  | Empty | Bol | Eol | WordB => True
  end.

(** Every match of the pattern reads at least one character that
    satisfies [Q]. *)
Fixpoint reads_one (ci : bool) (Q : ascii -> bool) (r : regex) : Prop :=
  match r with
  | Char c => forall x, char_eq ci c x = true -> Q x = true
  | Class neg ranges => forall x, class_has ci neg ranges x = true -> Q x = true
  | Seq r1 r2 => reads_one ci Q r1 \/ reads_one ci Q r2
  | Alt r1 r2 => reads_one ci Q r1 /\ reads_one ci Q r2
  | Group _ r' => reads_one ci Q r'
  | Star _ | Empty | Bol | Eol | WordB => False
  end.

(** The pattern can match the empty text at any position. *)
Fixpoint nullable (r : regex) : bool :=
  match r with
  | Empty | Star _ => true
  | Seq r1 r2 => nullable r1 && nullable r2
  | Alt r1 r2 => nullable r1 || nullable r2
  | Group _ r' => nullable r'
  | Char _ | Class _ _ | Bol | Eol | WordB => false
  end.

(** The iterations of a star, as the matcher runs them. *)
Definition star_loop (ci : bool) (r' : regex) (k : mstate -> option mstate)
  : nat -> mstate -> option mstate :=
  fix loop (fuel : nat) (s0 : mstate) {struct fuel} : option mstate :=
    match fuel with
    | O => k s0
    | S fuel' =>
        match m ci r' (fun s1 => if Nat.ltb (pos s0) (pos s1)
                                 then loop fuel' s1 else None) s0 with
        | Some e => Some e
        | None => k s0
        end
    end.

(** The characters an address accepted by [validateEmail] is made of. *)
Definition email_char (x : ascii) : bool :=
  JS.is_upper x || JS.is_lower x || JS.is_digit x
  || existsb (Ascii.eqb x) ["."; "_"; "%"; "+"; "-"; "@"]%char.

(** ** Notions about dialogues *)

(** The slots a creation dialogue has filled when it waits at a step: the
    steps before it have been answered. *)
Definition slots_for_step (state : MeetingState) : bool :=
  let d := details state in
  let has_date := is_some (date d) in
  let has_time := truthy_str (time d) in
  let has_attendee := negb (Nat.eqb (List.length (attendees d)) 0) in
  let has_duration := truthy_num (duration d) in
  match step state with
  | StepDate => true
  | StepTime => has_date
  | StepEmail => has_date && has_time
  | StepDuration => has_date && has_time && has_attendee
  | StepDescription | StepConfirm => has_date && has_time && has_attendee && has_duration
  | StepConfirmCancel | StepSelectCancel => false
  end.

(** Every dialogue of the store has the slots of its step. *)
Definition slots_filled (store : gmap Z MeetingState) : Prop :=
  forall userId state, store !! userId = Some state -> slots_for_step state = true.

(** A world in which the user is not authorised and authorisation cannot
    be started. *)
Definition world_without_auth : World :=
  {| now := 0;
     parseDate := fun _ => None;
     utcEpoch := 0;
     toLocaleDateString := fun _ => "";
     toLocaleTimeString := fun _ => "";
     isUserAuthorized := fun _ => false;
     startAuthProcess := fun _ => None;
     createMeeting := fun _ _ _ _ _ _ => false;
     listUpcomingEvents := fun _ _ _ _ => None;
     serviceReplies := fun _ _ _ => [] |}.

(** ** Casual chat

    [handleChat] and its helpers.  [conversations] is a
    [gmap Z Conversation].  A conversation found in the map is the stored
    object itself: a message pushed to it is in the map from then on,
    whether or not [conversations.set] is reached. *)

Inductive Role : Type := RoleUser | RoleAssistant | RoleSystem.

Record ChatMessage : Type := {
  role : Role;
  content : string
}.

Record Conversation : Type := {
  messages : list ChatMessage;
  lastUpdate : Z
}.

(** What [handleChat] reads from outside: the personality prompt, the
    clock [Date.now()], the random source ([randomBelow n] stands for
    [Math.floor(Math.random() * n)], a number below [n]) and the chat
    completion service ([None]: the call throws; [Some None]: no content). *)
Record ChatWorld : Type := {
  REMO_PERSONALITY : string;
  dateNow : Z;
  randomBelow : nat -> nat;
  createChatCompletion : list ChatMessage -> option (option string)
}.

Definition greetings : list string :=
  [ "Hey! How's it going? 😊";
    "Hi there! What's on your mind today?";
    "Hello! How can I help you today? 💫";
    "Hey! Nice to see you! What's up? 😊";
    "Hi! How's your day going so far? ✨";
    "Hello there! What can I do for you today? 🌟" ].

(** The patterns of [isGreeting], all with the [i] flag: [/^hi\b/],
    [/^hello\b/], [/^hey\b/], [/^greetings\b/] and
    [/^good\s*(morning|afternoon|evening)\b/]. *)
Definition greetingPatterns : list regex :=
  [ Seq Bol (seq [lit "hi"; WordB]);
    Seq Bol (seq [lit "hello"; WordB]);
    Seq Bol (seq [lit "hey"; WordB]);
    Seq Bol (seq [lit "greetings"; WordB]);
    Seq Bol (seq [lit "good"; Star space;
                  Group 1 (alt [lit "morning"; lit "afternoon"; lit "evening"]); WordB]) ].

Definition isGreeting (message : string) : bool :=
  existsb (fun pattern => test true pattern (JS.trim message)) greetingPatterns.

(** The patterns of [isHowAreYou], all with the [i] flag: [/^how are you/],
    [/^how(')?s it going/], [/^how do you feel/] and [/^how(')?re you/]. *)
Definition howAreYouPatterns : list regex :=
  [ Seq Bol (lit "how are you");
    Seq Bol (seq [lit "how"; Opt (Group 1 (Char "'")); lit "s it going"]);
    Seq Bol (lit "how do you feel");
    Seq Bol (seq [lit "how"; Opt (Group 1 (Char "'")); lit "re you"]) ].

Definition isHowAreYou (message : string) : bool :=
  existsb (fun pattern => test true pattern (JS.trim message)) howAreYouPatterns.

Section ChatHelpers.

Variable cw : ChatWorld.

(** [list[Math.floor(Math.random() * list.length)]] *)
Definition pickRandom (choices : list string) : string :=
  default "" (choices !! (randomBelow cw (List.length choices) mod List.length choices)%nat).

Definition getRandomGreeting : string := pickRandom greetings.

Definition getRandomHowAreYouResponse : string :=
  pickRandom
    [ "I'm doing great, thank you! How can I help you today? 😊";
      "I'm feeling fantastic! What can I do for you? ✨";
      "I'm wonderful, thanks for asking! How can I assist you? 🌟";
      "I'm doing well! What's on your mind? 💫";
      "I'm great! Ready to help you with whatever you need! 😊" ].

Definition getRepetitiveHowAreYouResponse (count : nat) : string :=
  if Nat.ltb 4 count then
    "I notice you've asked how I am several times. While I appreciate your interest, I'm always here and ready to help! Is there something specific you'd like assistance with? 😊"
  else
    pickRandom
      [ "I see you're checking on me again! 😊 I'm still doing great and ready to help!";
        "You're very thoughtful to keep asking! I'm always here and ready to assist you. What's on your mind?";
        "I appreciate your concern! But maybe I should be asking - how are YOU doing? 😊";
        "Still doing great! Though I'm more interested in how I can help YOU right now! 🌟";
        "You seem very interested in my well-being! I'm always good, but I'd love to know what you need help with! 💫" ].

Definition getRepetitiveGreetingResponse (count : nat) : string :=
  if Nat.eqb count 2 then "Hey again! 👋 Nice to see you're still here!"
  else if Nat.eqb count 3 then "Hi once more! You're very friendly today! 😊"
  else "I see you're saying hi a lot! I'm always here and happy to chat. What's on your mind? 🌟".

Definition isUserMessage (msg : ChatMessage) : bool :=
  match role msg with RoleUser => true | _ => false end.

(** The number of user messages of the list that equal [userMessage],
    letter case apart. *)
Definition countSame (userMessage : string) (msgs : list ChatMessage) : nat :=
  List.length
    (List.filter (fun text => String.eqb text (JS.toLowerCase userMessage))
       (map (fun msg => JS.toLowerCase (content msg)) (List.filter isUserMessage msgs))).

Definition push (msg : ChatMessage) (conversation : Conversation) : Conversation :=
  {| messages := messages conversation ++ [msg]; lastUpdate := lastUpdate conversation |}.

Definition handleChat (conversations : gmap Z Conversation) (userId : Z)
  (userMessage : string) : gmap Z Conversation * string :=
  let existing := conversations !! userId in
  let conversation :=
    match existing with
    | Some found => found
    | None => {| messages := [{| role := RoleSystem; content := REMO_PERSONALITY cw |}];
                 lastUpdate := dateNow cw |}
    end in
  if isMeetingRequest userMessage then
    (conversations, "I'll help you schedule a meeting. Please provide the details.")
  else
    let conversation := push {| role := RoleUser; content := userMessage |} conversation in
    let conversations :=
      match existing with
      | Some _ => <[userId := conversation]> conversations
      | None => conversations
      end in
    let repetitionCount := countSame userMessage (messages conversation) in
    if isGreeting userMessage then
      let response :=
        if Nat.ltb 1 repetitionCount then getRepetitiveGreetingResponse repetitionCount
        else getRandomGreeting in
      (<[userId := push {| role := RoleAssistant; content := response |} conversation]>
         conversations, response)
    else if isHowAreYou userMessage then
      let response :=
        if Nat.ltb 1 repetitionCount then getRepetitiveHowAreYouResponse repetitionCount
        else getRandomHowAreYouResponse in
      (<[userId := push {| role := RoleAssistant; content := response |} conversation]>
         conversations, response)
    else
      let note :=
        {| role := RoleSystem;
           content := "The user has sent similar messages "
                      +:+ JS.toString (Z.of_nat repetitionCount)
                      +:+ " times. If repetitive, acknowledge it naturally." |} in
      match createChatCompletion cw (messages conversation ++ [note]) with
      | None => (conversations, "I'm having a moment. Could you try again?")
      | Some answer =>
          let response :=
            or_else answer "I'm having trouble understanding. Could you rephrase that?" in
          (<[userId := {| messages := messages conversation
                                      ++ [{| role := RoleAssistant; content := response |}];
                          lastUpdate := dateNow cw |}]> conversations,
           response)
      end.

End ChatHelpers.

(** The two periodic clean-ups of [conversations]: each deletes the
    conversations whose last update is older than its threshold, one hour
    for the first and five minutes for the second. *)
Definition cleanup (threshold : Z) (current : Z) (conversations : gmap Z Conversation)
  : gmap Z Conversation :=
  filter (fun entry => ~ (current - lastUpdate (snd entry) > threshold)) conversations.

Definition hourlyCleanup : Z -> gmap Z Conversation -> gmap Z Conversation :=
  cleanup 3600000.

Definition minuteCleanup : Z -> gmap Z Conversation -> gmap Z Conversation :=
  cleanup (5 * 60 * 1000).

(** A chat world with fixed answers, for running [handleChat]. *)
Definition chat_world : ChatWorld :=
  {| REMO_PERSONALITY := "You are Remo";
     dateNow := 1000;
     randomBelow := fun _ => 0%nat;
     createChatCompletion := fun _ => Some (Some "Sure!") |}.

(** ** Notions about conversations *)

(** The conversation [handleChat] starts for a user it has none for. *)
Definition freshConversation (cw : ChatWorld) : Conversation :=
  {| messages := [{| role := RoleSystem; content := REMO_PERSONALITY cw |}];
     lastUpdate := dateNow cw |}.

(** A history opens with one system message and has no other. *)
Definition history_shape (conversation : Conversation) : Prop :=
  exists prompt rest,
    messages conversation = {| role := RoleSystem; content := prompt |} :: rest
    /\ Forall (fun msg => role msg <> RoleSystem) rest.

Definition histories_shaped (conversations : gmap Z Conversation) : Prop :=
  forall userId conversation,
    conversations !! userId = Some conversation -> history_shape conversation.

(** The text starts with the letters [a] and [b], letter case apart. *)
Definition starts_ci (a b : ascii) (t : string) : Prop :=
  exists x y t', t = String x (String y t')
                 /\ char_eq true a x = true /\ char_eq true b y = true.

(** A store of two conversations, one idle for ten minutes and one for
    one minute at time [600000]. *)
Definition two_conversations : gmap Z Conversation :=
  <[7 := {| messages := []; lastUpdate := 0 |}]>
    (<[8 := {| messages := []; lastUpdate := 540000 |}]> ∅).

(** ** Listing meetings *)

(** [/\d{1,2}(?:st|nd|rd|th)/], [/\d{1,2}[-\/]\d{1,2}/] and
    [/(next|last|this)\s+(monday|tuesday|wednesday|thursday|friday|saturday|sunday)/i] *)
Definition ordinalPattern : regex :=
  seq [digits12; alt [lit "st"; lit "nd"; lit "rd"; lit "th"]].

Definition dayMonthPattern : regex := seq [digits12; dashOrSlash; digits12].

Definition weekdayPhrase : regex :=
  seq [Group 1 (alt [lit "next"; lit "last"; lit "this"]); Plus space;
       Group 2 (alt [lit "monday"; lit "tuesday"; lit "wednesday"; lit "thursday";
                     lit "friday"; lit "saturday"; lit "sunday"])].

(** The test for a specific date in the message. *)
Definition mentionsDate (message : string) : bool :=
  JS.includes message "3rd" || JS.includes message "2nd" || JS.includes message "1st"
  || test false ordinalPattern message || test false dayMonthPattern message.

(** [d.setHours(23, 59, 59, 999)] *)
Definition endOfDay (t : Z) : Z :=
  Date.Day t * Date.msPerDay + (23 * 3600000 + 59 * 60000 + 59 * 1000 + 999).

(** The range asked from the calendar: [startDate], [endDate] and [days]. *)
Record Range : Type := {
  startDate : Z;
  endDate : Z;
  days : Z
}.

(** The meetings of one day, in the order of the [Map] that groups them. *)
Definition Groups : Type := list (string * list CalendarEvent).

(** [if (!meetingsByDate.has(date)) meetingsByDate.set(date, []);
     meetingsByDate.get(date)?.push(meeting)]: a new date goes to the end
    of the map, a meeting to the end of the list of its date. *)
Fixpoint addMeeting (date : string) (meeting : CalendarEvent) (meetingsByDate : Groups)
  : Groups :=
  match meetingsByDate with
  | [] => [(date, [meeting])]
  | (d, dayMeetings) :: others =>
      if String.eqb d date then (d, dayMeetings ++ [meeting])%list :: others
      else (d, dayMeetings) :: addMeeting date meeting others
  end.

Section ListMeetings.

Variable w : World.

(** [toLocaleTimeString([], { hour: '2-digit', minute: '2-digit' })] *)
Variable shortTime : option Z -> string.

Definition single (date : Z) : Range :=
  {| startDate := date; endDate := date; days := 1 |}.

(** The chain of tests on the lower-cased message, before the times of day
    are set. *)
Definition chosenRange (message : string) : Range :=
  let today := now w in
  if mentionsDate message then
    match parseDateInput w message with
    | Some parsedDate => single parsedDate
    | None => single today
    end
  else if JS.includes message "tomorrow" then
    single (Date.setDate today (Date.getDate today + 1))
  else if JS.includes message "day after tomorrow" then
    single (Date.setDate today (Date.getDate today + 2))
  else if JS.includes message "this week" then
    {| startDate := today;
       endDate := Date.setDate today (Date.getDate today + (7 - Date.getDay today));
       days := 7 |}
  else if JS.includes message "next week" then
    let startDate := Date.setDate today (Date.getDate today + (7 - Date.getDay today) + 1) in
    {| startDate := startDate;
       endDate := Date.setDate startDate (Date.getDate startDate + 6);
       days := 7 |}
  else
    match exec true weekdayPhrase message with
    | Some found =>
        match getWeekdayDate w (default "" (group 2 found)) (default "" (group 1 found)) with
        | Some weekdayDate => single weekdayDate
        | None => single today
        end
    | None => single today
    end.

Definition listRange (message : string) : Range :=
  let chosen := chosenRange message in
  {| startDate := Date.startOfDay (startDate chosen);
     endDate := endOfDay (endDate chosen);
     days := days chosen |}.

Definition dateKey (meeting : CalendarEvent) : string :=
  toLocaleDateString w (parseDate w (start_dateTime meeting)).

(** [meetings.forEach(...)] into [meetingsByDate] *)
Definition groupByDate (meetings : list CalendarEvent) : Groups :=
  fold_left (fun meetingsByDate meeting => addMeeting (dateKey meeting) meeting meetingsByDate)
    meetings [].



Definition noMeetingsText (range : Range) : string :=
  "No meetings found for " +:+ toLocaleDateString w (Some (startDate range)) +:+
  (if startDate range <? endDate range
   then " to " +:+ toLocaleDateString w (Some (endDate range)) else "") +:+
  "! 📅".




End ListMeetings.

(** A calendar with three meetings on two days, and a world that reads the
    day off the first two characters of a time stamp. *)
Definition meetingAt (dateTime title : string) : CalendarEvent :=
  {| id := title; summary := Some title; ev_description := None;
     start_dateTime := dateTime; ev_attendees := None |}.



(** The meetings of a date, in a grouping. *)
Fixpoint groupOf (date : string) (meetingsByDate : Groups) : list CalendarEvent :=
  match meetingsByDate with
  | [] => []
  | (d, dayMeetings) :: others =>
      if String.eqb d date then dayMeetings else groupOf date others
  end.

(** The character before the position reached after reading [read], when
    [b] was the character before. *)
Fixpoint last_char (read : string) (b : option ascii) : option ascii :=
  match read with
  | EmptyString => b
  | String c read' => last_char read' (Some c)
  end.

(** The pattern has no capture group. *)
Fixpoint group_free (r : regex) : bool :=
  match r with
  | Group _ _ => false
  | Seq r1 r2 | Alt r1 r2 => group_free r1 && group_free r2
  | Star r' => group_free r'
  | Empty | Char _ | Class _ _ | Bol | Eol | WordB => true
  end.

(** The match of the duration pattern in [schedule a call for 2 hrs]. *)
Definition twoHrsMatch : mresult :=
  Eval vm_compute in
    default (MResult 0 "" [] (MState None "" 0 []))
      (exec true durationPattern "schedule a call for 2 hrs").

(** A dialogue opened by [schedule a meeting with a@b.com at 3pm]: the
    time and the attendee are known, the date is asked for. *)
Definition askedForDate : gmap Z MeetingState :=
  Eval vm_compute in
    states (handleMeetingRequest (world_at 0) ∅ 7 "schedule a meeting with a@b.com at 3pm").

(** ** The calendar service

    [listUpcomingEvents] of [services/calendarService.ts], over what it
    reads from outside: the clock, the time zone, the stored tokens and the
    answer of the calendar API.  Here a [Date] is its time value, the
    number of milliseconds since the epoch in UTC, and the time zone is
    any: it need not keep one offset all year. *)

Module CalendarService.

(** An event as the API returns it: [start] may be missing, and so may its
    [dateTime] and its [date]; the attendees are given by their addresses. *)
Record ApiEvent : Type := {
  api_id : option string;
  api_summary : option string;
  api_description : option string;
  api_start : option (option string * option string);
  api_attendees : option (list string)
}.

(** [clock] is the time value of [new Date()]; [localTime] is
    [LocalTime(t)], the local time at a time value, and [utcTime] is
    [UTC(t)], the time value of a local time; [parseText] is the time value
    of [new Date(text)]; [hasToken] is the truthiness of
    [userTokens.get(userId.toString())];
    [eventsList userId timeMin timeMax] is [response.data.items] of
    [calendar.events.list], [None] when the call throws and [Some None]
    when the answer has no items; [isoNow] is [new Date().toISOString()]. *)
Record Service : Type := {
  clock : Z;
  localTime : Z -> Z;
  utcTime : Z -> Z;
  parseText : string -> option Z;
  isoNow : string;
  hasToken : Z -> bool;
  eventsList : Z -> Z -> Z -> option (option (list ApiEvent))
}.

Section Service.

Variable service : Service.

Definition isUserAuthorized (userId : Z) : bool := hasToken service userId.

(** [new Date(value)]: [None] is an invalid date. *)
Definition newDate (value : option Z) : option Z :=
  match value with
  | Some v => if Date.maxTime <? Z.abs v then None else Some v
  | None => None
  end.

(** [d.setHours(h, min, sec, ms)] on the date of time value [t]: the new
    time value. *)
Definition setHours (t : Z) (h mi sec ms : Z) : option Z :=
  newDate (utcTime service
             <$> Date.MakeDate (Some (Date.Day (localTime service t)))
                   (Date.MakeTime (Some h) (Some mi) (Some sec) (Some ms))).

(** [timeMin] and [timeMax], once the times of day are set; [None] when
    one of them is an invalid date, on which [toISOString] throws. *)
Definition window (days : Z) (startDate endDate : option Z) : option (Z * Z) :=
  let timeMin := match startDate with Some d => d | None => clock service end in
  let timeMax :=
    match endDate with
    | Some d => Some d
    | None =>
        newDate
          (JS.plus (Some timeMin)
             (JS.times (JS.times (JS.times (JS.times (Some days) (Some 24)) (Some 60))
                          (Some 60))
                (Some 1000)))
    end in
  match setHours timeMin 0 0 0 0, timeMax ≫= (fun t => setHours t 23 59 59 999) with
  | Some timeMin, Some timeMax => Some (timeMin, timeMax)
  | _, _ => None
  end.

(** [event.start?.dateTime || event.start?.date] *)
Definition startText (event : ApiEvent) : option string :=
  match api_start event with
  | Some (dateTime, date) => if truthy_str dateTime then dateTime else or_undefined date
  | None => None
  end.

(** The test of the [filter]. *)
Definition inWindow (timeMin timeMax : Z) (event : ApiEvent) : bool :=
  match startText event with
  | None => false
  | Some text =>
      match parseText service text with
      | Some eventStart => (timeMin <=? eventStart) && (eventStart <=? timeMax)
      | None => false
      end
  end.

(** The function of the [map]. *)
Definition toCalendarEvent (event : ApiEvent) : CalendarEvent :=
  {| id := or_else (api_id event) "";
     summary := api_summary event;
     ev_description := api_description event;
     start_dateTime := default (isoNow service) (startText event);
     ev_attendees := api_attendees event |}.

Definition startTime (event : CalendarEvent) : option Z :=
  parseText service (start_dateTime event).

(** [aTime - bTime <= 0]; a comparison with [NaN] counts as a tie. *)
Definition notAfter (a b : CalendarEvent) : bool :=
  match startTime a, startTime b with
  | Some aTime, Some bTime => aTime <=? bTime
  | _, _ => true
  end.

(** [sort((a, b) => aTime - bTime)]: the sort is stable, so for events with
    valid start times, the only ones the filter lets through, the result
    is the one of a stable insertion sort. *)
Fixpoint insertSorted (event : CalendarEvent) (sorted : list CalendarEvent)
  : list CalendarEvent :=
  match sorted with
  | [] => [event]
  | next :: others =>
      if notAfter event next then event :: next :: others
      else next :: insertSorted event others
  end.

Fixpoint sortByStart (events : list CalendarEvent) : list CalendarEvent :=
  match events with
  | [] => []
  | event :: others => insertSorted event (sortByStart others)
  end.

(** [None] is a rejected promise. *)
Definition listUpcomingEvents (userId : Z) (days : Z) (startDate endDate : option Z)
  : option (list CalendarEvent) :=
  if negb (hasToken service userId) then Some []
  else
    match window days startDate endDate with
    | None => None
    | Some (timeMin, timeMax) =>
        match eventsList service userId timeMin timeMax with
        | None => None
        | Some items =>
            let events := default [] items in
            let filteredEvents :=
              toCalendarEvent <$> List.filter (inWindow timeMin timeMax) events in
            Some (sortByStart filteredEvents)
        end
    end.

End Service.

End CalendarService.

(** A service in UTC whose calendar has three events, one of them outside
    every window, and which reads a time as a number. *)
Definition apiEventAt (dateTime : string) : CalendarService.ApiEvent :=
  {| CalendarService.api_id := Some dateTime;
     CalendarService.api_summary := None;
     CalendarService.api_description := None;
     CalendarService.api_start := Some (Some dateTime, None);
     CalendarService.api_attendees := None |}.

Definition sampleService : CalendarService.Service :=
  {| CalendarService.clock := 1000;
     CalendarService.localTime := fun t => t;
     CalendarService.utcTime := fun t => t;
     CalendarService.parseText := JS.parseInt;
     CalendarService.isoNow := "1000";
     CalendarService.hasToken := fun _ => true;
     CalendarService.eventsList := fun _ _ _ =>
       Some (Some [apiEventAt "7000"; apiEventAt "500000000"; apiEventAt "3000"]) |}.

(** A service in a time zone five hours behind UTC that moves its clocks
    one hour forward at 02:00 of the second day after the epoch (time
    value 111600000), asked at 23:30 of the day before the change; it has
    no token for user 8. *)
Definition springForward : CalendarService.Service :=
  {| CalendarService.clock := 102600000;
     CalendarService.localTime :=
       fun t => if t <? 111600000 then t - 18000000 else t - 14400000;
     CalendarService.utcTime :=
       fun t => if t <? 97200000 then t + 18000000 else t + 14400000;
     CalendarService.parseText := JS.parseInt;
     CalendarService.isoNow := "102600000";
     CalendarService.hasToken := fun userId => negb (userId =? 8);
     CalendarService.eventsList := fun _ _ _ => None |}.

(** The start of the first event is not after the start of the second. *)
Definition startsInOrder (service : CalendarService.Service) (a b : CalendarEvent) : Prop :=
  exists aTime bTime,
    CalendarService.startTime service a = Some aTime
    /\ CalendarService.startTime service b = Some bTime
    /\ aTime <= bTime.

(** The start of the event lies in the window. *)
Definition startsWithin (service : CalendarService.Service) (timeMin timeMax : Z)
  (event : CalendarEvent) : Prop :=
  exists eventStart,
    CalendarService.startTime service event = Some eventStart
    /\ timeMin <= eventStart <= timeMax.

(** The time [hh:mm] as [extractTime] writes it. *)
Definition clockText (h mi : Z) : string := pad2 (Some h) +:+ ":" +:+ pad2 (Some mi).

(** Reading [hh:mm] back, as the confirm step does, gives [h] and [mi]. *)
Definition readsBack (h mi : Z) : bool :=
  let parts := JS.split ":" (clockText h mi) in
  match JS.parseInt (default "" (parts !! 0%nat)),
        match parts !! 1%nat with Some part => JS.parseInt part | None => None end with
  | Some a, Some b => (a =? h) && (b =? mi)
  | _, _ => false
  end.

(** A world whose calendar has one meeting today, and the dialogue that
    [handleCancelRequest] opens in it. *)
Definition world_with_one_meeting : World :=
  {| now := 0;
     parseDate := fun _ => None;
     utcEpoch := 0;
     toLocaleDateString := fun _ => "";
     toLocaleTimeString := fun _ => "";
     isUserAuthorized := fun _ => true;
     startAuthProcess := fun _ => None;
     createMeeting := fun _ _ _ _ _ _ => true;
     listUpcomingEvents := fun _ _ _ _ => Some [meetingAt "04T09:00" "standup"];
     serviceReplies := fun _ _ _ => [] |}.

Definition askedToConfirmCancel : gmap Z MeetingState :=
  Eval vm_compute in
    states (handleCancelRequest world_with_one_meeting ∅ 7 "cancel my meeting").

(** A date written in digits, day first: [d-m] or [d/m], each of the two
    numbers with or without a leading zero. *)
Definition numberText (padded : bool) (n : Z) : string :=
  if padded then pad2 (Some n) else JS.toString n.

Definition numericText (paddedDay paddedMonth : bool) (sep : ascii) (d m : Z) : string :=
  numberText paddedDay d +:+ String sep (numberText paddedMonth m).

(** What the resolver reads in such a text: no relative expression, and a
    match of the numeric pattern whose groups give back the day and the
    month, without a year. *)
Definition readsNumericDate (paddedDay paddedMonth : bool) (sep : ascii) (d m : Z)
  : bool :=
  let lowerInput := JS.toLowerCase (numericText paddedDay paddedMonth sep d m) in
  negb (is_some (first_included lowerInput DATE_EXPRESSIONS))
  && match exec false numericDatePattern lowerInput with
     | Some numericMatch =>
         match JS.parseInt (default "" (group 1 numericMatch)),
               JS.parseInt (default "" (group 2 numericMatch)) with
         | Some day, Some month => (day =? d) && (month =? m)
         | _, _ => false
         end
         && negb (truthy_str (group 3 numericMatch))
     | None => false
     end.

(** The spelled days without [twenty-first] to [twenty-ninth] and
    [thirty-first], and the resolver over any table of spelled days:
    [scanMonths] and [parseDateInput] with the table in the place of
    [dayNumbers]. *)
Definition liveDayNumbers : list (string * Z) :=
  List.filter (fun '(_, dayNum) => (dayNum <=? 20) || (dayNum =? 30)) dayNumbers.

Fixpoint scanMonthsOver (days : list (string * Z)) (today : Z) (lowerInput : string)
  (month : Z) (months : list string) : option (option Z * option Z * option Z) :=
  match months with
  | [] => None
  | monthName :: months' =>
      match exec true (pattern1 monthName) lowerInput with
      | Some match1 =>
          Some (yearOr today (group 2 match1), Some month,
                JS.parseInt (default "" (group 1 match1)))
      | None =>
          match scanDayWords today lowerInput month monthName days with
          | Some r => Some r
          | None => scanMonthsOver days today lowerInput (month + 1) months'
          end
      end
  end.

Definition parseDateInputOver (w : World) (days : list (string * Z)) (input : string)
  : option Z :=
  let today := Date.startOfDay (now w) in
  let lowerInput := JS.toLowerCase input in
  match first_included lowerInput DATE_EXPRESSIONS with
  | Some (_, getDate) => Some (getDate (now w))
  | None =>
      match exec false numericDatePattern lowerInput with
      | Some numericMatch =>
          let '(year, month, day) := numericParts today numericMatch in
          validatedDate w year month day
      | None =>
          match scanMonthsOver days today lowerInput 0 monthNames with
          | Some (year, month, day) => validatedDate w year month day
          | None =>
              match parseDate w input with
              | Some directDate =>
                  if isValidFutureDate w directDate then Some directDate else None
              | None => None
              end
          end
      end
  end.

(** The two loops of the resolver before the year is read: where they
    stop, with the group that holds the year, the month and the day. *)
Fixpoint dayWordFound (lowerInput : string) (month : Z) (monthName : string)
  (days : list (string * Z)) : option (option string * option Z * option Z) :=
  match days with
  | [] => None
  | (dayWord, dayNum) :: days' =>
      match exec true (pattern2 dayWord monthName) lowerInput with
      | Some match2 => Some (group 1 match2, Some month, Some dayNum)
      | None => dayWordFound lowerInput month monthName days'
      end
  end.

Fixpoint monthFound (lowerInput : string) (month : Z) (months : list string)
  : option (option string * option Z * option Z) :=
  match months with
  | [] => None
  | monthName :: months' =>
      match exec true (pattern1 monthName) lowerInput with
      | Some match1 =>
          Some (group 2 match1, Some month, JS.parseInt (default "" (group 1 match1)))
      | None =>
          match dayWordFound lowerInput month monthName dayNumbers with
          | Some r => Some r
          | None => monthFound lowerInput (month + 1) months'
          end
      end
  end.

(** The text holds no relative expression and is not a date in digits,
    and the loops stop at the given month and day, without a year. *)
Definition readsSpelled (input : string) (monthIndex dayNum : Z) : bool :=
  let lowerInput := JS.toLowerCase input in
  negb (is_some (first_included lowerInput DATE_EXPRESSIONS))
  && negb (is_some (exec false numericDatePattern lowerInput))
  && match monthFound lowerInput 0 monthNames with
     | Some (g, Some month, Some day) =>
         negb (truthy_str g) && (month =? monthIndex) && (day =? dayNum)
     | _ => false
     end.

(** * Properties *)

Ltac by_cases_on_char c :=
  destruct c as [[] [] [] [] [] [] [] []]; vm_compute; try reflexivity; try congruence.

(** Linear arithmetic with division and remainder by constants. *)
Ltac lia_div := Z.div_mod_to_equations; lia.

(** ** Characters and lower-casing *)

Lemma is_word_lower_char (c : ascii) : JS.is_word (JS.lower_char c) = JS.is_word c.
Proof. by_cases_on_char c. Qed.

Lemma upper_lower_char (c : ascii) : JS.upper_char (JS.lower_char c) = JS.upper_char c.
Proof. by_cases_on_char c. Qed.

(** ** The matcher on sample inputs *)

Example exec_time_pattern :
  (fun res => (index res, matched res, group 1 res, group 2 res, group 3 res))
    <$> exec false timePattern "set up call tomorrow 2:30pm"
  = Some (21%nat, "2:30pm", Some "2", Some "30", Some "pm").
Proof. vm_compute. reflexivity. Qed.

Example exec_date_pattern :
  (fun res => (matched res, group 1 res))
    <$> exec true datePattern "a meeting tomorrow at 3pm"
  = Some ("tomorrow ", None)
  /\ (fun res => (matched res, group 1 res))
        <$> exec true datePattern "a meeting for Tomorrow at 3pm"
      = Some ("for Tomorrow", Some "Tomorrow").
Proof. split; vm_compute; reflexivity. Qed.

Example match_all_emails :
  match_all false emailPattern "invite john@x.com and b.c@d-e.org."
  = ["john@x.com"; "b.c@d-e.org"].
Proof. vm_compute. reflexivity. Qed.

Example word_boundaries :
  map (test true (seq [WordB; lit "call"; WordB])) ["Call me"; "recall"; "a call."; "calls"]
  = [true; false; true; false].
Proof. vm_compute. reflexivity. Qed.

Example numeric_date_is_anchored :
  map (test false numericDatePattern) ["25/03"; "25-03-2027"; "on 25/03"; "25/03/27"]
  = [true; true; false; false].
Proof. vm_compute. reflexivity. Qed.

Example validateEmail_samples :
  map validateEmail ["john@x.com"; "john@x"; "a b@x.com"; "A.b-c+d@Ex-ample.co.uk"]
  = [Some "john@x.com"; None; None; Some "A.b-c+d@Ex-ample.co.uk"].
Proof. vm_compute. reflexivity. Qed.

(** ** The matcher on alternatives of literal words *)

Lemma m_lit (ci : bool) (word : string) (k : mstate -> option mstate) (s : mstate) :
  m ci (lit word) k s = match strip ci word s with Some s' => k s' | None => None end.
Proof.
  revert s. induction word as [|c word' IH]; intros s; [reflexivity|].
  destruct word' as [|c' word''].
  - simpl. destruct (rest s) as [|x t]; [reflexivity|].
    destruct (char_eq ci c x); reflexivity.
  - change (lit (String c (String c' word''))) with (Seq (Char c) (lit (String c' word''))).
    cbn [m strip]. destruct (rest s) as [|x t]; [reflexivity|].
    destruct (char_eq ci c x); [apply IH | reflexivity].
Qed.

Lemma m_alt_Some (ci : bool) (rs : list regex) (k : mstate -> option mstate)
  (s e : mstate) :
  rs <> [] -> m ci (alt rs) k s = Some e -> exists r, In r rs /\ m ci r k s = Some e.
Proof.
  induction rs as [|r rs' IH]; intros Hne H; [congruence|].
  destruct rs' as [|r' rs''].
  - exists r. split; [now left | exact H].
  - change (alt (r :: r' :: rs'')) with (Alt r (alt (r' :: rs''))) in H.
    cbn [m] in H. destruct (m ci r k s) as [e'|] eqn:Hr.
    + exists r. split; [now left | congruence].
    + destruct (IH ltac:(discriminate) H) as (r0 & Hin & Hm).
      exists r0. split; [now right | exact Hm].
Qed.

Lemma m_alt_is_some (ci : bool) (rs : list regex) (k : mstate -> option mstate)
  (s : mstate) (r : regex) :
  In r rs -> is_some (m ci r k s) = true -> is_some (m ci (alt rs) k s) = true.
Proof.
  induction rs as [|r0 rs' IH]; intros Hin H; [destruct Hin|].
  destruct rs' as [|r' rs''].
  - destruct Hin as [->|[]]. exact H.
  - change (alt (r0 :: r' :: rs'')) with (Alt r0 (alt (r' :: rs''))).
    cbn [m]. destruct (m ci r0 k s) as [e'|] eqn:Hr; [reflexivity|].
    destruct Hin as [->|Hin]; [rewrite Hr in H; discriminate|].
    apply IH; assumption.
Qed.

Lemma at_boundary_lower (s : mstate) : at_boundary (lower_state s) = at_boundary s.
Proof.
  unfold at_boundary, word_before, word_after, lower_state. cbn [before rest].
  destruct (before s) as [c|]; destruct (rest s) as [|x t]; cbn;
    rewrite ?is_word_lower_char; reflexivity.
Qed.

(** A word read without the [i] flag in the lower-cased text is read with
    the [i] flag in the text itself, and ends at the same position. *)
Lemma strip_lower (word : string) (s sl' : mstate) :
  strip false word (lower_state s) = Some sl' ->
  exists s', strip true word s = Some s' /\ sl' = lower_state s'.
Proof.
  revert s. induction word as [|c word' IH]; intros s H.
  - exists s. split; [reflexivity | now inversion H].
  - cbn [strip] in *. unfold lower_state in H at 1. cbn [rest] in H.
    destruct (rest s) as [|x t] eqn:Hrest; cbn [JS.toLowerCase] in H; [discriminate|].
    unfold char_eq in *. destruct (Ascii.eqb_spec c (JS.lower_char x)) as [->|]; [|discriminate].
    rewrite upper_lower_char, Ascii.eqb_refl.
    apply (IH (advance x t s)).
    rewrite <- H. f_equal.
Qed.

Lemma bounded_word_sound (ci : bool) (n : nat) (words : list string) (r : regex)
  (k : mstate -> option mstate) (s e : mstate) :
  words <> [] ->
  m ci (Seq WordB (Seq (Group n (alt (lit <$> words))) (Seq WordB r))) k s = Some e ->
  word_at ci words s.
Proof.
  intros Hne H. cbn [m] in H. fold (at_boundary s) in H.
  destruct (at_boundary s) eqn:Hb; [|discriminate].
  apply m_alt_Some in H; [|destruct words; [congruence | discriminate]].
  destruct H as (r0 & Hin & Hm).
  apply list_elem_of_In, list_elem_of_fmap in Hin. destruct Hin as (word & -> & Hin).
  rewrite m_lit in Hm. destruct (strip ci word s) as [s'|] eqn:Hs; [|discriminate].
  split; [exact Hb|]. exists word, s'. split; [now apply list_elem_of_In|].
  split; [exact Hs|].
  match type of Hm with context [xorb (word_before ?x) (word_after ?x)] =>
    change (xorb (word_before x) (word_after x)) with (at_boundary s') in Hm end.
  destruct (at_boundary s'); [reflexivity | discriminate].
Qed.

Lemma bounded_word_complete (ci : bool) (n : nat) (words : list string) (s : mstate) :
  word_at ci words s ->
  is_some (m ci (Seq WordB (Seq (Group n (alt (lit <$> words))) WordB)) Some s) = true.
Proof.
  intros (Hb & word & s' & Hin & Hs & Hb'). cbn [m]. fold (at_boundary s). rewrite Hb.
  apply (m_alt_is_some _ _ _ _ (lit word)).
  - apply list_elem_of_In, list_elem_of_fmap. exists word. split; [reflexivity|].
    now apply list_elem_of_In.
  - rewrite m_lit, Hs.
    match goal with |- context [xorb (word_before ?x) (word_after ?x)] =>
      change (xorb (word_before x) (word_after x)) with (at_boundary s') end.
    rewrite Hb'. reflexivity.
Qed.

Lemma word_at_lower (words : list string) (s : mstate) :
  word_at false words (lower_state s) -> word_at true words s.
Proof.
  intros (Hb & word & sl' & Hin & Hs & Hb'). rewrite at_boundary_lower in Hb.
  destruct (strip_lower _ _ _ Hs) as (s' & Hs' & ->). rewrite at_boundary_lower in Hb'.
  split; [exact Hb|]. exists word, s'. auto.
Qed.

(** A search in the lower-cased text against a search in the text itself. *)
Lemma search_lower (r1 r2 : regex) :
  (forall s, is_some (m false r1 Some (lower_state s)) = true ->
             is_some (m true r2 Some s) = true) ->
  forall t b p,
    is_some (search false r1 (JS.lower_char <$> b) p (JS.toLowerCase t)) = true ->
    is_some (search true r2 b p t) = true.
Proof.
  intros Hlocal t. induction t as [|c t' IH]; intros b p H.
  - cbn [search JS.toLowerCase] in *. unfold match_at in *.
    specialize (Hlocal (MState b EmptyString p [])). unfold lower_state in Hlocal.
    cbn [before rest pos caps JS.toLowerCase] in Hlocal.
    destruct (m false r1 Some (MState (JS.lower_char <$> b) EmptyString p [])); [|discriminate].
    destruct (m true r2 Some (MState b EmptyString p [])); [reflexivity|].
    now apply Hlocal.
  - cbn [search JS.toLowerCase] in *. unfold match_at in *.
    specialize (Hlocal (MState b (String c t') p [])). unfold lower_state in Hlocal.
    cbn [before rest pos caps JS.toLowerCase] in Hlocal.
    destruct (m true r2 Some (MState b (String c t') p [])); [reflexivity|].
    destruct (m false r1 Some (MState (JS.lower_char <$> b) (String (JS.lower_char c)
                (JS.toLowerCase t')) p [])).
    + discriminate (Hlocal eq_refl).
    + apply (IH (Some c)). exact H.
Qed.

Lemma test_lower (r1 r2 : regex) (text : string) :
  (forall s, is_some (m false r1 Some (lower_state s)) = true ->
             is_some (m true r2 Some s) = true) ->
  test false r1 (JS.toLowerCase text) = true -> test true r2 text = true.
Proof.
  intros Hlocal H. unfold test, exec in *.
  pose proof (search_lower r1 r2 Hlocal text None O) as Hs. cbn [fmap option_fmap option_map] in Hs.
  destruct (search false r1 None 0 (JS.toLowerCase text)); [|discriminate].
  destruct (search true r2 None 0 text); [reflexivity|].
  now apply Hs.
Qed.

(** Every message whose lower-cased text matches the cancel phrase of the
    router is a meeting request: it matches [/\b(cancel|delete)\b/i]. *)
Lemma cancelPhrase_isMeetingRequest (userMessage : string) :
  test false cancelPhrase (JS.toLowerCase userMessage) = true ->
  isMeetingRequest userMessage = true.
Proof.
  intros H.
  assert (Hkw : test true (seq [WordB; Group 1 (alt [lit "cancel"; lit "delete"]); WordB])
                  userMessage = true).
  { apply (test_lower cancelPhrase); [|exact H]. intros s Hs.
    apply (bounded_word_complete true 1 ["cancel"; "delete"]).
    apply word_at_lower.
    destruct (m false cancelPhrase Some (lower_state s)) as [e|] eqn:Hm; [|discriminate].
    eapply (bounded_word_sound false 1 ["cancel"; "delete"]); [discriminate|].
    exact Hm. }
  unfold isMeetingRequest, meetingKeywords. cbn [existsb].
  rewrite Hkw. rewrite !orb_true_r. reflexivity.
Qed.

(** ** Routing *)

Lemma no_cancel_dialogue_delete (store : gmap Z MeetingState) (userId : Z) :
  no_cancel_dialogue store -> no_cancel_dialogue (delete userId store).
Proof.
  intros H u st Hu. apply lookup_delete_Some in Hu. destruct Hu as [_ Hu]. eauto.
Qed.

Lemma no_cancel_dialogue_insert (store : gmap Z MeetingState) (userId : Z)
  (state : MeetingState) :
  isCancelStep (step state) = false ->
  no_cancel_dialogue store -> no_cancel_dialogue (<[userId := state]> store).
Proof.
  intros Hst H u st Hu. apply lookup_insert_Some in Hu.
  destruct Hu as [[_ <-]|[_ Hu]]; eauto.
Qed.

Lemma initialState_step (w : World) (userMessage : string) :
  isCancelStep (step (initialState w userMessage)) = false.
Proof. unfold initialState. cbn [step]. repeat case_match; reflexivity. Qed.

(** The [switch] of the dialogue handler leaves a creation dialogue in the
    creation flow, and changes the store at most by deleting the user. *)
Lemma onStep_flow (w : World) (store : gmap Z MeetingState) (userId : Z)
  (userMessage : string) (state : MeetingState) :
  isCancelStep (step state) = false ->
  match onStep w store userId userMessage state with
  | Return r => states r = store
  | Break state' store' _ =>
      isCancelStep (step state') = false /\ (store' = store \/ store' = delete userId store)
  | Throw => True
  end.
Proof.
  intros Hst. unfold onStep, confirmYes.
  destruct (step state) eqn:Hstep; try discriminate;
    repeat case_match; simplify_eq; cbn [states step]; rewrite ?Hstep; auto.
Qed.

Lemma handleMeetingRequest_no_cancel (w : World) (store : gmap Z MeetingState)
  (userId : Z) (userMessage : string) :
  no_cancel_dialogue store ->
  no_cancel_dialogue (states (handleMeetingRequest w store userId userMessage)).
Proof.
  intros H. unfold handleMeetingRequest, meetingTry.
  destruct (hasCancelKeyword userMessage && is_some (store !! userId)).
  { cbn [states]. now apply no_cancel_dialogue_delete. }
  destruct (store !! userId) as [state|] eqn:Hstate.
  - pose proof (onStep_flow w store userId userMessage state (H _ _ Hstate)) as Hflow.
    destruct (onStep w store userId userMessage state) as [r|state' store' sent|].
    + rewrite Hflow. exact H.
    + cbn [states]. destruct Hflow as [Hst' [->| ->]].
      * now apply no_cancel_dialogue_insert.
      * apply no_cancel_dialogue_insert; [exact Hst'|]. now apply no_cancel_dialogue_delete.
    + cbn [states]. now apply no_cancel_dialogue_delete.
  - cbn [states]. apply no_cancel_dialogue_insert; [apply initialState_step | exact H].
Qed.

(** C8: a text message that is a meeting request, or whose sender has an
    open dialogue, goes to the scheduling dialogue handler, before the
    cancel-phrase, list-phrase and update-verb rules are looked at; in
    particular a message with both meeting keywords and list keywords is
    routed to scheduling, not to listing. *)
Theorem C8_meeting_route_first (w : World) (store : gmap Z MeetingState)
  (ctx : Context) (text : string) (userId : Z) :
  message_text ctx = Some text ->
  from_id ctx = Some userId ->
  userId <> 0 ->
  isMeetingRequest (JS.trim text) = true \/ is_some (store !! userId) = true ->
  handleMessage w store ctx =
    {| invoked := Some MeetingRequest;
       result := handleMeetingRequest w store userId (JS.trim text) |}
  /\ (test false listPhrase (JS.toLowerCase (JS.trim text)) = true ->
      invoked (handleMessage w store ctx) <> Some ListMeetingsRequest).
Proof.
  intros Htext Hfrom Hid Hroute.
  assert (Heq : handleMessage w store ctx =
                {| invoked := Some MeetingRequest;
                   result := handleMeetingRequest w store userId (JS.trim text) |}).
  { unfold handleMessage. rewrite Htext, Hfrom.
    destruct (Z.eqb_spec userId 0) as [|_]; [contradiction|].
    destruct Hroute as [-> | ->]; [reflexivity|].
    rewrite orb_true_r. reflexivity. }
  split; [exact Heq|]. intros _. rewrite Heq. discriminate.
Qed.

(** C8 at the message [show my meeting schedule], which has both a meeting
    keyword and a list phrase, from a user without a dialogue. *)
Lemma C8_meeting_route_first_witness :
  let ctx := {| message_text := Some "show my meeting schedule"; from_id := Some 7 |} in
  let w := world_at 0 in
  handleMessage w ∅ ctx =
    {| invoked := Some MeetingRequest;
       result := handleMeetingRequest w ∅ 7 (JS.trim "show my meeting schedule") |}
  /\ (test false listPhrase (JS.toLowerCase (JS.trim "show my meeting schedule")) = true ->
      invoked (handleMessage w ∅ ctx) <> Some ListMeetingsRequest).
Proof.
  intros ctx w.
  apply (C8_meeting_route_first w ∅ ctx "show my meeting schedule" 7).
  - reflexivity.
  - reflexivity.
  - lia.
  - left. vm_compute. reflexivity.
Defined.

(** The router on any context: the cancel-meeting flow is not entered, and
    a store without a dialogue of that flow stays without one. *)
Lemma handleMessage_no_cancel (w : World) (store : gmap Z MeetingState) (ctx : Context) :
  no_cancel_dialogue store ->
  invoked (handleMessage w store ctx) <> Some CancelRequest
  /\ no_cancel_dialogue (states (result (handleMessage w store ctx))).
Proof.
  intros Hstore. unfold handleMessage, served.
  destruct (message_text ctx) as [text|]; [|split; [discriminate | exact Hstore]].
  destruct (from_id ctx) as [userId|]; [|split; [discriminate | exact Hstore]].
  destruct (userId =? 0); [split; [discriminate | exact Hstore]|].
  destruct (isMeetingRequest (JS.trim text)) eqn:Hmeeting; cbn [orb].
  { split; [discriminate|]. cbn [result]. now apply handleMeetingRequest_no_cancel. }
  destruct (is_some (store !! userId)).
  { split; [discriminate|]. cbn [result]. now apply handleMeetingRequest_no_cancel. }
  destruct (test false cancelPhrase (JS.toLowerCase (JS.trim text))) eqn:Hcancel.
  { apply cancelPhrase_isMeetingRequest in Hcancel. congruence. }
  repeat case_match; (split; [discriminate | exact Hstore]).
Qed.

(** From the empty store, no sequence of messages, under any collaborators,
    ever leaves a dialogue of the cancel-meeting flow in the store. *)
Lemma no_cancel_dialogue_ever (inbox : list (World * Context)) :
  no_cancel_dialogue (run_messages ∅ inbox).
Proof.
  assert (Hgen : forall store, no_cancel_dialogue store ->
                               no_cancel_dialogue (run_messages store inbox)).
  { induction inbox as [|[w ctx] inbox' IH]; intros store Hstore; [exact Hstore|].
    cbn [run_messages]. apply IH. now apply handleMessage_no_cancel. }
  apply Hgen. intros u st Hu. rewrite lookup_empty in Hu. discriminate.
Qed.

(** C10: the router never invokes [handleCancelRequest]: a message matching
    the cancel phrase is a meeting request, and that route is taken first.
    Hence no dialogue of the cancel-meeting flow is ever created: a store
    without one stays without one. *)
Theorem C10_cancel_flow_unreachable (w : World) (store : gmap Z MeetingState)
  (ctx : Context) :
  no_cancel_dialogue store ->
  invoked (handleMessage w store ctx) <> Some CancelRequest
  /\ no_cancel_dialogue (states (result (handleMessage w store ctx))).
Proof. apply handleMessage_no_cancel. Qed.

(** C10 at the message [cancel my meeting], from a user without a dialogue. *)
Lemma C10_cancel_flow_unreachable_witness :
  let ctx := {| message_text := Some "cancel my meeting"; from_id := Some 7 |} in
  no_cancel_dialogue ∅ /\
  (invoked (handleMessage (world_at 0) ∅ ctx) <> Some CancelRequest
   /\ no_cancel_dialogue (states (result (handleMessage (world_at 0) ∅ ctx)))).
Proof.
  intros ctx.
  assert (Hempty : no_cancel_dialogue ∅).
  { intros u st Hu. rewrite lookup_empty in Hu. discriminate. }
  split; [exact Hempty|].
  apply (C10_cancel_flow_unreachable (world_at 0) ∅ ctx Hempty).
Defined.

(** ** The dialogue *)

Lemma prefix_refl (t : string) : String.prefix t t = true.
Proof.
  induction t as [|c t' IH]; [reflexivity|]. cbn [String.prefix].
  destruct (ascii_dec c c); [exact IH | congruence].
Qed.

Lemma includes_refl (t : string) : JS.includes t t = true.
Proof. destruct t; cbn [JS.includes]; now rewrite prefix_refl. Qed.

(** A message that is a cancel keyword contains a cancel keyword. *)
Lemma isCancelKeyword_hasCancelKeyword (userMessage : string) :
  isCancelKeyword userMessage = true -> hasCancelKeyword userMessage = true.
Proof.
  unfold isCancelKeyword, hasCancelKeyword. intros H.
  apply existsb_exists in H. destruct H as (keyword & Hin & Heq).
  apply existsb_exists. exists keyword. split; [exact Hin|].
  apply String.eqb_eq in Heq. rewrite Heq. apply includes_refl.
Qed.

(** The handler on a message with no cancel keyword, for a user with a
    dialogue: the [switch], then the final [set]. *)
Lemma handleMeetingRequest_onStep (w : World) (store : gmap Z MeetingState)
  (userId : Z) (state : MeetingState) (userMessage : string) :
  store !! userId = Some state ->
  hasCancelKeyword userMessage = false ->
  handleMeetingRequest w store userId userMessage =
    match onStep w store userId userMessage state with
    | Return r => r
    | Break state' store' sent => {| states := <[userId := state']> store'; replies := sent |}
    | Throw => {| states := delete userId store; replies := [ReplyError] |}
    end.
Proof.
  intros Hstate Hkw. unfold handleMeetingRequest, meetingTry.
  rewrite Hstate, Hkw. cbn [andb]. destruct (onStep w store userId userMessage state); reflexivity.
Qed.

(** The handler for a user without a dialogue: a new dialogue is built from
    the message alone. *)
Lemma handleMeetingRequest_new (w : World) (store : gmap Z MeetingState)
  (userId : Z) (userMessage : string) :
  store !! userId = None ->
  handleMeetingRequest w store userId userMessage =
    {| states := <[userId := initialState w userMessage]> store;
       replies := [ReplyUnderstood (initialState w userMessage)] |}.
Proof.
  intros Hstate. unfold handleMeetingRequest, meetingTry.
  rewrite Hstate, andb_false_r. reflexivity.
Qed.

(** The handler on a message with a cancel keyword, for a user with a
    dialogue. *)
Lemma handleMeetingRequest_cancel (w : World) (store : gmap Z MeetingState)
  (userId : Z) (state : MeetingState) (userMessage : string) :
  store !! userId = Some state ->
  hasCancelKeyword userMessage = true ->
  handleMeetingRequest w store userId userMessage =
    {| states := delete userId store; replies := [ReplyCancelled] |}.
Proof.
  intros Hstate Hkw. unfold handleMeetingRequest, meetingTry. now rewrite Hstate, Hkw.
Qed.

(** At the [confirm] step, a reply without [yes] and without a cancel
    keyword sends the starting-over message, deletes the entry of the user
    and then, after the [switch], sets it again: the store is unchanged. *)
Lemma confirm_other_reply (w : World) (store : gmap Z MeetingState) (userId : Z)
  (state : MeetingState) (userMessage : string) :
  store !! userId = Some state ->
  step state = StepConfirm ->
  hasCancelKeyword userMessage = false ->
  JS.includes (JS.toLowerCase userMessage) "yes" = false ->
  handleMeetingRequest w store userId userMessage =
    {| states := store; replies := [ReplyStartOver] |}.
Proof.
  intros Hstate Hstep Hkw Hyes.
  rewrite (handleMeetingRequest_onStep w store userId state) by assumption.
  unfold onStep. rewrite Hstep, Hyes.
  destruct (isCancelKeyword userMessage) eqn:Hc.
  { apply isCancelKeyword_hasCancelKeyword in Hc. congruence. }
  cbn [negb]. now rewrite insert_delete_id.
Qed.

(** At the [confirm] step, [yes] from an authorised user whose dialogue has
    a time and an attendee: the meeting is handed to the calendar, the
    entry of the user is deleted and then set again, whatever the calendar
    answers: the store is unchanged. *)
Lemma confirm_yes_executed (w : World) (store : gmap Z MeetingState) (userId : Z)
  (state : MeetingState) (userMessage t first : string) (others : list string) :
  store !! userId = Some state ->
  step state = StepConfirm ->
  hasCancelKeyword userMessage = false ->
  JS.includes (JS.toLowerCase userMessage) "yes" = true ->
  isUserAuthorized w userId = true ->
  time (details state) = Some t ->
  attendees (details state) = first :: others ->
  exists sent,
    handleMeetingRequest w store userId userMessage = {| states := store; replies := [sent] |}
    /\ (sent = ReplyNotScheduled \/ exists startTime, sent = ReplyScheduled startTime (details state)).
Proof.
  intros Hstate Hstep Hkw Hyes Hauth Htime Hatt.
  rewrite (handleMeetingRequest_onStep w store userId state) by assumption.
  unfold onStep, confirmYes. rewrite Hstep, Hyes, Hauth, Htime, Hatt. cbn [negb].
  rewrite insert_delete_id by assumption.
  eexists. split; [reflexivity|].
  match goal with |- context [if ?c then _ else _] => destruct c end; eauto.
Qed.

(** C1, on the code: at the [confirm] step the reply [maybe] (no [yes], no
    cancel keyword) gets the starting-over message, and the reply [yes] with
    a calendar that accepts the meeting gets the success message; in both
    runs the entry of the user is deleted and then set again by the
    statement that follows the [switch], so the store still holds the
    dialogue when the handler returns. *)
Theorem C1_confirm_dialogue_survives (w : World) (store : gmap Z MeetingState)
  (userId : Z) (d : Details) :
  let state := {| step := StepConfirm; details := d |} in
  let other := handleMeetingRequest w (<[userId := state]> store) userId "maybe" in
  let done := handleMeetingRequest (world_at 0) (<[userId := confirmState]> store) userId "yes" in
  (replies other = [ReplyStartOver] /\ states other !! userId = Some state)
  /\ (replies done =
        [ReplyScheduled (Some (Date.make 2026 10 4 + 15 * 3600000)) (details confirmState)]
      /\ states done !! userId = Some confirmState).
Proof.
  intros state other done. split.
  - subst other. rewrite (confirm_other_reply w _ userId state).
    + cbn [replies states]. split; [reflexivity | apply lookup_insert_eq].
    + apply lookup_insert_eq.
    + reflexivity.
    + vm_compute. reflexivity.
    + vm_compute. reflexivity.
  - subst done. rewrite (handleMeetingRequest_onStep _ _ userId confirmState).
    + cbn. split; [reflexivity | apply lookup_insert_eq].
    + apply lookup_insert_eq.
    + vm_compute. reflexivity.
Qed.

(** C2, on the code: for a user without a dialogue, the message
    [schedule a meeting with john@x.com tomorrow at 3pm for 30 minutes]
    fills the time, the duration and the attendees, but [datePattern]
    captures nothing after [tomorrow], so no date is extracted: the dialogue
    opens at the [date] step with an empty date slot, not at [confirm]. *)
Theorem C2_full_message_opens_at_date (w : World) (store : gmap Z MeetingState)
  (userId : Z) :
  let message := "schedule a meeting with john@x.com tomorrow at 3pm for 30 minutes" in
  let r := handleMeetingRequest w (delete userId store) userId message in
  x_date (extractedInfo (analyzeMeetingRequest message)) = None
  /\ hasDate (analyzeMeetingRequest message) = true
  /\ states r !! userId = Some openedAtDate
  /\ replies r = [ReplyUnderstood openedAtDate].
Proof.
  intros message r.
  assert (Hinit : initialState w message = openedAtDate) by (vm_compute; reflexivity).
  split; [vm_compute; reflexivity|]. split; [vm_compute; reflexivity|].
  subst r. rewrite handleMeetingRequest_new by apply lookup_delete_eq.
  rewrite Hinit. cbn [states replies]. split; [apply lookup_insert_eq | reflexivity].
Qed.

(** The same request worded with [for tomorrow] or with [today] does fill
    the date slot and opens at the [confirm] step. *)
Example date_slot_filled_by_other_wordings :
  let w := world_at (Date.make 2026 10 3 + 36000000) in
  let opened (message : string) :=
    let state := initialState w message in (step state, date (details state)) in
  map opened
    ["schedule a meeting with john@x.com for tomorrow at 3pm for 30 minutes";
     "schedule a meeting with john@x.com today at 3pm for 30 minutes";
     "schedule a meeting with john@x.com tomorrow at 3pm for 30 minutes"]
  = [(StepConfirm, Some (Date.make 2026 10 4 + 36000000));
     (StepConfirm, Some (Date.make 2026 10 3 + 36000000));
     (StepDate, None)].
Proof. vm_compute. reflexivity. Qed.

(** C6: at every step, a message with a cancel keyword is handled before
    the step: the entry of the user is deleted and the cancellation is
    acknowledged.  The store is then what it was before the dialogue
    started, and the next message of the user opens a dialogue built from
    that message alone. *)
Theorem C6_cancel_keyword_clears (w : World) (store : gmap Z MeetingState)
  (userId : Z) (state : MeetingState) (userMessage : string) :
  store !! userId = Some state ->
  hasCancelKeyword userMessage = true ->
  let r := handleMeetingRequest w store userId userMessage in
  r = {| states := delete userId store; replies := [ReplyCancelled] |}
  /\ states r !! userId = None
  /\ (forall store0, store0 !! userId = None -> store = <[userId := state]> store0 ->
       states r = store0)
  /\ (forall next,
       handleMeetingRequest w (states r) userId next =
         {| states := <[userId := initialState w next]> (states r);
            replies := [ReplyUnderstood (initialState w next)] |}).
Proof.
  intros Hstate Hkw r.
  assert (Hr : r = {| states := delete userId store; replies := [ReplyCancelled] |}).
  { subst r. now apply (handleMeetingRequest_cancel w store userId state). }
  rewrite Hr. cbn [states]. split; [reflexivity|].
  split; [apply lookup_delete_eq|]. split.
  - intros store0 Hnone ->. now apply delete_insert_id.
  - intros next. apply handleMeetingRequest_new, lookup_delete_eq.
Qed.

(** C6 at the [duration] step, with the message [never mind]. *)
Lemma C6_cancel_keyword_clears_witness :
  let store : gmap Z MeetingState := <[7 := durationState]> ∅ in
  let r := handleMeetingRequest (world_at 0) store 7 "Never mind" in
  store !! 7 = Some durationState /\
  hasCancelKeyword "Never mind" = true /\
  (r = {| states := delete 7 store; replies := [ReplyCancelled] |}
   /\ states r !! 7 = None
   /\ (forall store0, store0 !! 7 = None -> store = <[7 := durationState]> store0 ->
        states r = store0)
   /\ (forall next,
        handleMeetingRequest (world_at 0) (states r) 7 next =
          {| states := <[7 := initialState (world_at 0) next]> (states r);
             replies := [ReplyUnderstood (initialState (world_at 0) next)] |})).
Proof.
  intros store r.
  assert (H1 : store !! 7 = Some durationState) by apply lookup_insert_eq.
  assert (H2 : hasCancelKeyword "Never mind" = true) by (vm_compute; reflexivity).
  split; [exact H1|]. split; [exact H2|].
  exact (C6_cancel_keyword_clears (world_at 0) store 7 durationState "Never mind" H1 H2).
Defined.

(** C9 as stated fails: at the [duration] step the message [no] parses to
    [NaN], yet it is not answered by a re-prompt with the dialogue left
    unchanged; it contains a cancel keyword, and the dialogue is deleted. *)
Lemma C9_counterexample :
  let store : gmap Z MeetingState := <[7 := durationState]> ∅ in
  let r := handleMeetingRequest (world_at 0) store 7 "no" in
  JS.parseInt "no" = None
  /\ replies r = [ReplyCancelled]
  /\ states r !! 7 = None
  /\ states r !! 7 <> store !! 7.
Proof.
  intros store r.
  assert (Hr : r = {| states := delete 7 store; replies := [ReplyCancelled] |}).
  { apply (handleMeetingRequest_cancel (world_at 0) store 7 durationState "no").
    - apply lookup_insert_eq.
    - vm_compute. reflexivity. }
  rewrite Hr. cbn [states replies].
  split; [vm_compute; reflexivity|]. split; [reflexivity|].
  rewrite lookup_delete_eq. split; [reflexivity|].
  subst store. rewrite lookup_insert_eq. discriminate.
Qed.

(** C9, amended: at the [duration] step, for every message without a cancel
    keyword, an input that parses to [NaN], to a value at most 0 or to a
    value above 480 is answered by the re-prompt and the store is unchanged;
    an input that parses to a value from 1 to 480 (1 and 480 included) is
    stored as the duration and the dialogue moves to the [description]
    step, every other slot unchanged. *)
Theorem C9_duration_step (w : World) (store : gmap Z MeetingState) (userId : Z)
  (state : MeetingState) (userMessage : string) :
  store !! userId = Some state ->
  step state = StepDuration ->
  hasCancelKeyword userMessage = false ->
  let r := handleMeetingRequest w store userId userMessage in
  (JS.parseInt userMessage = None
   \/ (exists n, JS.parseInt userMessage = Some n /\ (n <= 0 \/ 480 < n)) ->
   r = {| states := store; replies := [ReplyDurationRetry] |})
  /\ (forall n, JS.parseInt userMessage = Some n -> 1 <= n <= 480 ->
       r = {| states := <[userId := {| step := StepDescription;
                                       details := with_duration (Some n) (details state) |}]>
                          store;
              replies := [ReplyAskDescriptionAfterDuration] |}).
Proof.
  intros Hstate Hstep Hkw r. subst r.
  rewrite (handleMeetingRequest_onStep w store userId state) by assumption.
  unfold onStep. rewrite Hstep. split.
  - intros [-> | (n & -> & Hn)]; [reflexivity|].
    destruct (Z.leb_spec n 0); [reflexivity|]. cbn [orb].
    destruct (Z.ltb_spec 480 n); [reflexivity | lia].
  - intros n -> Hn.
    destruct (Z.leb_spec n 0); [lia|]. cbn [orb].
    destruct (Z.ltb_spec 480 n); [lia | reflexivity].
Qed.

(** C9 at the boundary input [480]. *)
Lemma C9_duration_step_witness :
  let store : gmap Z MeetingState := <[7 := durationState]> ∅ in
  let r := handleMeetingRequest (world_at 0) store 7 "480" in
  store !! 7 = Some durationState /\
  step durationState = StepDuration /\
  hasCancelKeyword "480" = false /\
  ((JS.parseInt "480" = None
    \/ (exists n, JS.parseInt "480" = Some n /\ (n <= 0 \/ 480 < n)) ->
    r = {| states := store; replies := [ReplyDurationRetry] |})
   /\ (forall n, JS.parseInt "480" = Some n -> 1 <= n <= 480 ->
        r = {| states := <[7 := {| step := StepDescription;
                                   details := with_duration (Some n) (details durationState) |}]>
                           store;
               replies := [ReplyAskDescriptionAfterDuration] |})).
Proof.
  intros store r.
  assert (H1 : store !! 7 = Some durationState) by apply lookup_insert_eq.
  assert (H2 : hasCancelKeyword "480" = false) by (vm_compute; reflexivity).
  split; [exact H1|]. split; [reflexivity|]. split; [exact H2|].
  exact (C9_duration_step (world_at 0) store 7 durationState "480" H1 eq_refl H2).
Defined.

(** The boundary inputs of the duration step: [1] and [480] are accepted,
    [0], [481] and a text that is not a number are answered by the
    re-prompt. *)
Example duration_boundaries :
  let store : gmap Z MeetingState := <[7 := durationState]> ∅ in
  let step_after (userMessage : string) :=
    step <$> states (handleMeetingRequest (world_at 0) store 7 userMessage) !! 7 in
  map step_after ["1"; "480"; "0"; "481"; "abc"]
  = [Some StepDescription; Some StepDescription; Some StepDuration; Some StepDuration;
     Some StepDuration].
Proof. vm_compute. reflexivity. Qed.

(** ** Named time expressions *)

Lemma first_included_first {A : Type} (text : string) (table : list (string * A))
  (i : nat) (expr : string) (v : A) :
  table !! i = Some (expr, v) ->
  JS.includes text expr = true ->
  (forall (j : nat) e v', (j < i)%nat -> table !! j = Some (e, v') ->
                          JS.includes text e = false) ->
  first_included text table = Some (expr, v).
Proof.
  revert i. induction table as [|[e0 v0] table' IH]; intros i Hi Hin Hbefore.
  - destruct i; discriminate.
  - destruct i as [|i'].
    + cbn in Hi. injection Hi as -> ->. cbn [first_included]. now rewrite Hin.
    + cbn [first_included]. rewrite (Hbefore 0%nat e0 v0) by (reflexivity || lia).
      apply (IH i'); [exact Hi | exact Hin|].
      intros j e v' Hj Hlook. apply (Hbefore (S j) e v'); [lia | exact Hlook].
Qed.

Lemma first_included_None {A : Type} (text : string) (table : list (string * A))
  (expr : string) (v : A) :
  first_included text table = None -> In (expr, v) table -> JS.includes text expr = false.
Proof.
  induction table as [|[e0 v0] table' IH]; intros Hnone Hin; [destruct Hin|].
  cbn [first_included] in Hnone. destruct (JS.includes text e0) eqn:He0; [discriminate|].
  destruct Hin as [Heq|Hin]; [congruence | now apply IH].
Qed.

(** C4 as stated fails: [night] is one of the named expressions and occurs
    in the message [see you at midnight], but the result is the value of
    [midnight], which is declared before it. *)
Lemma C4_counterexample :
  In ("night", "20:00") TIME_EXPRESSIONS
  /\ JS.includes (JS.toLowerCase "see you at midnight") "night" = true
  /\ extractTime "see you at midnight" = Some "00:00"
  /\ extractTime "see you at midnight" <> Some "20:00".
Proof.
  split; [cbn; tauto|]. split; [vm_compute; reflexivity|].
  split; [vm_compute; reflexivity | vm_compute; discriminate].
Qed.

(** C4, amended: time extraction returns the value of the first entry of
    the table, in declaration order, whose expression occurs in the
    lower-cased message: for each named expression and every message that
    contains it and none of the expressions declared before it, the result
    is the value declared for it, whatever the surrounding text. *)
Theorem C4_first_named_expression (message expr time : string) (i : nat) :
  TIME_EXPRESSIONS !! i = Some (expr, time) ->
  JS.includes (JS.toLowerCase message) expr = true ->
  (forall (j : nat) e t, (j < i)%nat -> TIME_EXPRESSIONS !! j = Some (e, t) ->
                         JS.includes (JS.toLowerCase message) e = false) ->
  extractTime message = Some time.
Proof.
  intros Hi Hin Hbefore. unfold extractTime.
  now rewrite (first_included_first _ _ i expr time Hi Hin Hbefore).
Qed.

(** C4 at the message [let's meet at noon ok?]. *)
Lemma C4_first_named_expression_witness :
  TIME_EXPRESSIONS !! 0%nat = Some ("noon", "12:00")
  /\ JS.includes (JS.toLowerCase "let's meet at noon ok?") "noon" = true
  /\ extractTime "let's meet at noon ok?" = Some "12:00".
Proof.
  split; [reflexivity|]. split; [vm_compute; reflexivity|].
  apply (C4_first_named_expression "let's meet at noon ok?" "noon" "12:00" 0).
  - reflexivity.
  - vm_compute. reflexivity.
  - intros j e t Hj. lia.
Defined.

(** Substrings: [s.includes(sub)] holds exactly when [s] is some text,
    then [sub], then some text. *)
Lemma prefix_app (sub s : string) :
  String.prefix sub s = true <-> exists post, s = sub +:+ post.
Proof.
  revert s. induction sub as [|c sub' IH]; intros s.
  - split; [intros _; now exists s | intros _; destruct s; reflexivity].
  - destruct s as [|x s']; cbn [String.prefix].
    + split; [discriminate | intros [post H]; discriminate].
    + destruct (ascii_dec c x) as [->|Hne].
      * rewrite IH. split; intros [post H]; exists post.
        -- now rewrite H.
        -- now injection H.
      * split; [discriminate | intros [post H]; injection H; congruence].
Qed.

Lemma includes_app (s sub : string) :
  JS.includes s sub = true <-> exists pre post, s = pre +:+ sub +:+ post.
Proof.
  induction s as [|x s' IH].
  - cbn [JS.includes]. rewrite orb_false_r, prefix_app. split.
    + intros [post H]. now exists EmptyString, post.
    + intros (pre & post & H). destruct pre; [now exists post | discriminate].
  - cbn [JS.includes]. rewrite orb_true_iff, prefix_app, IH. split.
    + intros [[post H] | (pre & post & H)].
      * now exists EmptyString, post.
      * exists (String x pre), post. cbn. now rewrite H.
    + intros (pre & post & H). destruct pre as [|y pre'].
      * left. now exists post.
      * right. exists pre', post. now injection H.
Qed.

Lemma app_assoc_string (a b c : string) : (a +:+ b) +:+ c = a +:+ b +:+ c.
Proof.
  induction a as [|x a' IH]; [reflexivity|].
  change (String x ((a' +:+ b) +:+ c) = String x (a' +:+ b +:+ c)). now rewrite IH.
Qed.

Lemma includes_inner (s pre sub post : string) :
  JS.includes s (pre +:+ sub +:+ post) = true -> JS.includes s sub = true.
Proof.
  rewrite !includes_app. intros (pre0 & post0 & ->).
  exists (pre0 +:+ pre), (post +:+ post0). now rewrite !app_assoc_string.
Qed.

(** Three entries of the table can never be returned for their own
    expression: [afternoon] contains [noon], [early morning] contains
    [morning] and [late night] contains [night], all declared earlier. *)
Lemma shadowed_expressions_never_returned (message expr time : string) :
  In (expr, time) [("afternoon", "14:00"); ("early morning", "07:00");
                   ("late night", "23:00")] ->
  JS.includes (JS.toLowerCase message) expr = true ->
  extractTime message <> Some time.
Proof.
  intros Hin Hinc. unfold extractTime, TIME_EXPRESSIONS. cbn [first_included].
  destruct Hin as [[= <- <-]|[[= <- <-]|[[= <- <-]|[]]]]; cbn [String.append] in Hinc.
  - apply (includes_inner _ "after" "noon" "") in Hinc. rewrite Hinc. congruence.
  - apply (includes_inner _ "early " "morning" "") in Hinc.
    repeat case_match; congruence.
  - apply (includes_inner _ "late " "night" "") in Hinc.
    repeat case_match; congruence.
Qed.

(** ** Meridian normalisation *)

(** In the pattern branch the message holds no named expression, so the
    evening cue of the normalisation is never met there. *)
Lemma no_evening_cue_in_pattern_branch (message : string) :
  first_included (JS.toLowerCase message) TIME_EXPRESSIONS = None ->
  JS.includes (JS.toLowerCase message) "evening" = false
  /\ JS.includes (JS.toLowerCase message) "night" = false.
Proof.
  intros Hnone. split.
  - apply (first_included_None _ _ "evening" "18:00" Hnone). cbn. tauto.
  - apply (first_included_None _ _ "night" "20:00" Hnone). cbn. tauto.
Qed.



(** ** Weekday resolution *)

(** Moving the day of the month by [k] moves the date by [k] days. *)
Lemma setDate_getDate_add (t k : Z) :
  Date.setDate t (Date.getDate t + k) = t + k * Date.msPerDay.
Proof.
  unfold Date.setDate, Date.getDate, Date.MakeDay, Date.Day, Date.TimeWithinDay.
  generalize (Date.days_from_civil (Date.getFullYear t + Date.getMonth t / 12)
                (Date.getMonth t mod 12 + 1) 1).
  intros D. unfold Date.msPerDay. lia_div.
Qed.

Lemma Day_add_days (t k : Z) : Date.Day (t + k * Date.msPerDay) = Date.Day t + k.
Proof. unfold Date.Day, Date.msPerDay. lia_div. Qed.

Lemma getDay_add_days (t k : Z) :
  Date.getDay (t + k * Date.msPerDay) = (Date.getDay t + k) mod 7.
Proof. unfold Date.getDay. rewrite Day_add_days. lia_div. Qed.

Lemma getDay_range (t : Z) : 0 <= Date.getDay t <= 6.
Proof. unfold Date.getDay. lia_div. Qed.

Lemma getWeekdayDate_friday_next (w : World) :
  getWeekdayDate w "friday" "next" =
    Some (now w + (5 - Date.getDay (now w) + 7) * Date.msPerDay).
Proof.
  rewrite <- setDate_getDate_add. reflexivity.
Qed.

Lemma getWeekdayDate_friday_last (w : World) :
  let lastDay := Date.make (Date.getFullYear (now w)) (Date.getMonth (now w) + 1) 0 in
  let daysToAdd := 5 - Date.getDay lastDay in
  getWeekdayDate w "friday" "last" =
    Some (lastDay + (if 0 <? daysToAdd then daysToAdd - 7 else daysToAdd) * Date.msPerDay).
Proof.
  intros lastDay daysToAdd. rewrite <- setDate_getDate_add. reflexivity.
Qed.

(** C3 as stated fails.  On Saturday 2026-11-07 the [next] Friday is
    2026-11-13, six days ahead, not seven to thirteen.  On Tuesday
    2026-11-03 the [last] Friday is 2026-11-27, the last Friday of the
    month, which is after today, not before it. *)
Lemma C3_counterexample :
  let saturday := Date.make 2026 10 7 + 36000000 in
  let tuesday := Date.make 2026 10 3 + 36000000 in
  (exists d, getWeekdayDate (world_at saturday) "friday" "next" = Some d
             /\ d = Date.make 2026 10 13 + 36000000
             /\ Date.Day d - Date.Day saturday = 6
             /\ ~ (7 <= Date.Day d - Date.Day saturday <= 13))
  /\ (exists d, getWeekdayDate (world_at tuesday) "friday" "last" = Some d
                /\ d = Date.make 2026 10 27
                /\ ~ (d < Date.startOfDay tuesday)).
Proof.
  intros saturday tuesday. split.
  - eexists. split; [vm_compute; reflexivity|].
    split; [reflexivity|]. split; [reflexivity|]. vm_compute. intros [H _]. now apply H.
  - eexists. split; [vm_compute; reflexivity|].
    split; [reflexivity|]. vm_compute. discriminate.
Qed.

(** C3, amended: for every current date, [next] applied to [friday] gives a
    Friday that lies 6 to 12 days after today, at the current time of day;
    [last] gives the last Friday of the current month, that is the Friday
    among the final seven days of the month, at midnight, wherever today
    lies in the month. *)
Theorem C3_weekday_resolution (w : World) :
  let today := now w in
  let lastDay := Date.make (Date.getFullYear today) (Date.getMonth today + 1) 0 in
  (exists d, getWeekdayDate w "friday" "next" = Some d
             /\ Date.getDay d = 5
             /\ 6 <= Date.Day d - Date.Day today <= 12
             /\ Date.TimeWithinDay d = Date.TimeWithinDay today)
  /\ (exists d, getWeekdayDate w "friday" "last" = Some d
                /\ Date.getDay d = 5
                /\ Date.Day lastDay - 6 <= Date.Day d <= Date.Day lastDay
                /\ Date.TimeWithinDay d = 0).
Proof.
  intros today lastDay. split.
  - eexists. split; [apply getWeekdayDate_friday_next|].
    fold today. pose proof (getDay_range today) as Hr.
    split; [|split].
    + rewrite getDay_add_days. lia_div.
    + rewrite Day_add_days. lia_div.
    + unfold Date.TimeWithinDay, Date.msPerDay. lia_div.
  - eexists. split; [apply getWeekdayDate_friday_last|].
    fold today. fold lastDay. pose proof (getDay_range lastDay) as Hr.
    assert (Hmid : Date.TimeWithinDay lastDay = 0).
    { unfold lastDay, Date.make, Date.TimeWithinDay, Date.msPerDay.
      apply Z.mod_mul. discriminate. }
    split; [|split].
    + rewrite getDay_add_days. destruct (Z.ltb_spec 0 (5 - Date.getDay lastDay)); lia_div.
    + rewrite Day_add_days. destruct (Z.ltb_spec 0 (5 - Date.getDay lastDay)); lia_div.
    + revert Hmid. unfold Date.TimeWithinDay, Date.msPerDay.
      destruct (Z.ltb_spec 0 (5 - Date.getDay lastDay)); lia_div.
Qed.

(** ** Future-date validity *)

(** Outside the relative expressions, the resolver is the resolved date
    filtered by the validity rule. *)
Lemma parseDateInput_resolvedDate (w : World) (input : string) :
  first_included (JS.toLowerCase input) DATE_EXPRESSIONS = None ->
  parseDateInput w input =
    match resolvedDate w input with
    | Some d => if Date.startOfDay (now w) <=? d then Some d else None
    | None => None
    end.
Proof.
  intros Hnone. unfold parseDateInput, resolvedDate. rewrite Hnone.
  destruct (exec false numericDatePattern (JS.toLowerCase input)) as [numericMatch|].
  - destruct (numericParts (Date.startOfDay (now w)) numericMatch) as [[year month] day].
    unfold validatedDate. destruct (madeDate year month day); reflexivity.
  - destruct (scanMonths (Date.startOfDay (now w)) (JS.toLowerCase input) 0 monthNames)
      as [[[year month] day]|].
    + unfold validatedDate. destruct (madeDate year month day); reflexivity.
    + destruct (parseDate w input); reflexivity.
Qed.

(** C7: for an input that goes through a non-relative branch of date
    resolution, a date is returned only if it is the resolved date and it
    is on or after today at midnight; when the resolved date is before
    today at midnight, there is no result. *)
Theorem C7_future_date_rule (w : World) (input : string) :
  first_included (JS.toLowerCase input) DATE_EXPRESSIONS = None ->
  (forall d, parseDateInput w input = Some d ->
             resolvedDate w input = Some d /\ Date.startOfDay (now w) <= d)
  /\ (forall d, resolvedDate w input = Some d -> d < Date.startOfDay (now w) ->
                parseDateInput w input = None)
  /\ (forall d, resolvedDate w input = Some d -> Date.startOfDay (now w) <= d ->
                parseDateInput w input = Some d).
Proof.
  intros Hnone. rewrite (parseDateInput_resolvedDate w input Hnone).
  destruct (resolvedDate w input) as [d0|].
  - destruct (Z.leb_spec (Date.startOfDay (now w)) d0) as [Hle|Hlt].
    + split; [|split].
      * intros d [= <-]. split; [reflexivity | exact Hle].
      * intros d [= <-] Hd. lia.
      * intros d [= <-] _. reflexivity.
    + split; [|split].
      * intros d Hd. discriminate.
      * reflexivity.
      * intros d [= <-] Hd. lia.
  - split; [|split]; intros d Hd; discriminate.
Qed.

(** C7 on 2026-11-03 at 10:00, for the numeric input [2/11]: the resolved
    date 2026-11-02 is before today, and there is no result. *)
Lemma C7_future_date_rule_witness :
  let w := world_at (Date.make 2026 10 3 + 36000000) in
  first_included (JS.toLowerCase "2/11") DATE_EXPRESSIONS = None
  /\ resolvedDate w "2/11" = Some (Date.make 2026 10 2)
  /\ Date.make 2026 10 2 < Date.startOfDay (now w)
  /\ parseDateInput w "2/11" = None.
Proof.
  intros w.
  assert (H1 : first_included (JS.toLowerCase "2/11") DATE_EXPRESSIONS = None)
    by (vm_compute; reflexivity).
  assert (H2 : resolvedDate w "2/11" = Some (Date.make 2026 10 2))
    by (vm_compute; reflexivity).
  assert (H3 : Date.make 2026 10 2 < Date.startOfDay (now w)) by (vm_compute; reflexivity).
  split; [exact H1|]. split; [exact H2|]. split; [exact H3|].
  exact (proj1 (proj2 (C7_future_date_rule w "2/11" H1)) _ H2 H3).
Defined.

(** The four non-relative branches on 2026-11-03: a date of the past is
    refused, today and later dates are returned. *)
Example future_date_examples :
  let w := {| now := Date.make 2026 10 3 + 36000000;
              parseDate := fun text => if String.eqb text "2026-01-01T00:00"
                                       then Some (Date.make 2026 0 1) else None;
              utcEpoch := 0;
              toLocaleDateString := fun _ => "";
              toLocaleTimeString := fun _ => "";
              isUserAuthorized := fun _ => true;
              startAuthProcess := fun _ => None;
              createMeeting := fun _ _ _ _ _ _ => true;
              listUpcomingEvents := fun _ _ _ _ => Some [];
              serviceReplies := fun _ _ _ => [] |} in
  map (parseDateInput w)
    ["2/11"; "3/11"; "25-12-2026"; "2nd november"; "25th December";
     "first november"; "first december"; "2026-01-01T00:00"]
  = [None; Some (Date.make 2026 10 3); Some (Date.make 2026 11 25); None;
     Some (Date.make 2026 11 25); None; Some (Date.make 2026 11 1); None].
Proof. vm_compute. reflexivity. Qed.

(** * Further properties *)

(** ** What a match reads *)

Ltac char_cases x :=
  destruct x as [[] [] [] [] [] [] [] []]; vm_compute; intros; try reflexivity; try discriminate.

Lemma all_chars_app (Q : ascii -> bool) (a b : string) :
  all_chars Q (a +:+ b) = all_chars Q a && all_chars Q b.
Proof.
  induction a as [|x a' IH]; [reflexivity|].
  change (Q x && all_chars Q (a' +:+ b) = Q x && all_chars Q a' && all_chars Q b).
  rewrite IH. now rewrite andb_assoc.
Qed.

Lemma any_char_app (Q : ascii -> bool) (a b : string) :
  any_char Q (a +:+ b) = any_char Q a || any_char Q b.
Proof.
  induction a as [|x a' IH]; [reflexivity|].
  change (Q x || any_char Q (a' +:+ b) = Q x || any_char Q a' || any_char Q b).
  rewrite IH. now rewrite orb_assoc.
Qed.

Lemma m_star (ci : bool) (r' : regex) (k : mstate -> option mstate) (s : mstate) :
  m ci (Star r') k s = star_loop ci r' k (S (String.length (rest s))) s.
Proof. reflexivity. Qed.

(** A successful match reads a piece of the text and hands the rest to its
    continuation; every character read is accepted by an atom of the
    pattern. *)
Lemma m_inv (ci : bool) (Q : ascii -> bool) (r : regex) :
  atoms_in ci Q r ->
  forall k s e, m ci r k s = Some e ->
  exists s' consumed,
    k s' = Some e /\ rest s = consumed +:+ rest s' /\ all_chars Q consumed = true.
Proof.
  induction r as [|c|neg ranges|r1 IH1 r2 IH2|r1 IH1 r2 IH2|r' IH|n r' IH| | |];
    intros Hatoms k s e H; try rewrite m_star in H; cbn [m atoms_in] in *.
  - exists s, EmptyString. auto.
  - destruct (rest s) as [|x t] eqn:Hrest; [discriminate|].
    destruct (char_eq ci c x) eqn:Hc; [|discriminate].
    exists (advance x t s), (String x EmptyString). cbn. rewrite (Hatoms x Hc). auto.
  - destruct (rest s) as [|x t] eqn:Hrest; [discriminate|].
    destruct (class_has ci neg ranges x) eqn:Hc; [|discriminate].
    exists (advance x t s), (String x EmptyString). cbn. rewrite (Hatoms x Hc). auto.
  - destruct Hatoms as [H1 H2].
    destruct (IH1 H1 _ _ _ H) as (s1 & c1 & Hk1 & Hr1 & Hq1).
    destruct (IH2 H2 _ _ _ Hk1) as (s2 & c2 & Hk2 & Hr2 & Hq2).
    exists s2, (c1 +:+ c2). split; [exact Hk2|]. split.
    + rewrite Hr1, Hr2. now rewrite app_assoc_string.
    + rewrite all_chars_app, Hq1, Hq2. reflexivity.
  - destruct Hatoms as [H1 H2].
    destruct (m ci r1 k s) as [e1|] eqn:Hm1.
    + simplify_eq. apply (IH1 H1 _ _ _ Hm1).
    + apply (IH2 H2 _ _ _ H).
  - revert H. generalize (S (String.length (rest s))). intros fuel. revert s.
    induction fuel as [|fuel' IHf]; intros s H; cbn [star_loop] in H.
    + exists s, EmptyString. split; [exact H|]. split; reflexivity.
    + fold (star_loop ci r' k) in H.
      match type of H with
      | match ?scrut with _ => _ end = _ => destruct scrut as [e1|] eqn:Hm1
      end.
      * simplify_eq.
        destruct (IH Hatoms _ _ _ Hm1) as (s1 & c1 & Hk1 & Hr1 & Hq1).
        destruct (Nat.ltb (pos s) (pos s1)); [|discriminate].
        destruct (IHf _ Hk1) as (s2 & c2 & Hk2 & Hr2 & Hq2).
        exists s2, (c1 +:+ c2). split; [exact Hk2|]. split.
        -- rewrite Hr1, Hr2. now rewrite app_assoc_string.
        -- rewrite all_chars_app, Hq1, Hq2. reflexivity.
      * exists s, EmptyString. auto.
  - destruct (IH Hatoms _ _ _ H) as (s1 & c1 & Hk1 & Hr1 & Hq1).
    eexists _, c1. split; [exact Hk1|]. split; [exact Hr1 | exact Hq1].
  - destruct (before s); [discriminate|]. exists s, EmptyString. auto.
  - destruct (rest s) eqn:Hrest; [|discriminate]. exists s, EmptyString.
    rewrite Hrest. auto.
  - destruct (xorb (word_before s) (word_after s)); [|discriminate].
    exists s, EmptyString. auto.
Qed.

Lemma atoms_in_any (ci : bool) (r : regex) : atoms_in ci (fun _ => true) r.
Proof. induction r; cbn; auto. Qed.

(** A pattern that has to read a character satisfying [Q] fails where the
    text has none left. *)
Lemma reads_one_fails (ci : bool) (Q : ascii -> bool) (r : regex) :
  reads_one ci Q r ->
  forall k s, any_char Q (rest s) = false -> m ci r k s = None.
Proof.
  induction r as [|c|neg ranges|r1 IH1 r2 IH2|r1 IH1 r2 IH2|r' IH|n r' IH| | |];
    intros Hreads k s Hnone; cbn [m reads_one] in *; try contradiction.
  - destruct (rest s) as [|x t]; [reflexivity|]. cbn in Hnone.
    apply orb_false_iff in Hnone. destruct Hnone as [Hx _].
    destruct (char_eq ci c x) eqn:Hc; [|reflexivity]. rewrite (Hreads x Hc) in Hx. discriminate.
  - destruct (rest s) as [|x t]; [reflexivity|]. cbn in Hnone.
    apply orb_false_iff in Hnone. destruct Hnone as [Hx _].
    destruct (class_has ci neg ranges x) eqn:Hc; [|reflexivity].
    rewrite (Hreads x Hc) in Hx. discriminate.
  - destruct Hreads as [H1|H2]; [now apply IH1|].
    destruct (m ci r1 (m ci r2 k) s) as [e|] eqn:Hm; [|reflexivity].
    destruct (m_inv ci (fun _ => true) r1 (atoms_in_any ci r1) _ _ _ Hm)
      as (s1 & c1 & Hk1 & Hr1 & _).
    rewrite (IH2 H2 k s1) in Hk1; [discriminate|].
    rewrite Hr1, any_char_app in Hnone. apply orb_false_iff in Hnone. tauto.
  - destruct Hreads as [H1 H2]. rewrite (IH1 H1 k s Hnone). now apply IH2.
  - now apply IH.
Qed.

(** A pattern that can match the empty text succeeds wherever its
    continuation always succeeds. *)
Lemma nullable_succeeds (ci : bool) (r : regex) :
  nullable r = true ->
  forall k, (forall s, is_some (k s) = true) -> forall s, is_some (m ci r k s) = true.
Proof.
  induction r as [|c|neg ranges|r1 IH1 r2 IH2|r1 IH1 r2 IH2|r' IH|n r' IH| | |];
    intros Hnull k Hk s; try rewrite m_star; cbn [m nullable] in *; try discriminate.
  - apply Hk.
  - apply andb_true_iff in Hnull. destruct Hnull as [H1 H2].
    apply IH1; [exact H1|]. intros s1. now apply IH2.
  - destruct (m ci r1 k s) as [e|] eqn:Hm; [reflexivity|].
    destruct (nullable r1) eqn:H1.
    + pose proof (IH1 eq_refl k Hk s) as Hs. rewrite Hm in Hs. discriminate.
    + now apply IH2.
  - generalize (S (String.length (rest s))). intros fuel.
    destruct fuel as [|fuel']; cbn [star_loop]; [apply Hk|].
    match goal with
    | |- is_some (match ?scrut with _ => _ end) = true => destruct scrut; [reflexivity | apply Hk]
    end.
  - apply IH; [exact Hnull|]. intros s1. apply Hk.
Qed.

(** A search fails in a text where the pattern fails at every position. *)
Lemma search_none (ci : bool) (r : regex) (Q : ascii -> bool) :
  reads_one ci Q r ->
  forall t b p, any_char Q t = false -> search ci r b p t = None.
Proof.
  intros Hreads t. induction t as [|x t' IH]; intros b p Hnone;
    cbn [search]; unfold match_at; rewrite (reads_one_fails ci Q r Hreads) by exact Hnone.
  - reflexivity.
  - apply IH. cbn in Hnone. apply orb_false_iff in Hnone. tauto.
Qed.

(** A search succeeds in a text that has a position where the pattern
    matches: here, a character satisfying [Q] at which it always does. *)
Lemma search_some (ci : bool) (r : regex) (Q : ascii -> bool) :
  (forall s x t, rest s = String x t -> Q x = true -> is_some (m ci r Some s) = true) ->
  forall t b p, any_char Q t = true -> is_some (search ci r b p t) = true.
Proof.
  intros Hat t. induction t as [|x t' IH]; intros b p Hany; [discriminate|].
  cbn [search]. unfold match_at.
  destruct (m ci r Some (MState b (String x t') p [])) as [e|] eqn:Hm; [reflexivity|].
  cbn in Hany. destruct (Q x) eqn:Hx.
  - pose proof (Hat (MState b (String x t') p []) x t' eq_refl Hx) as Hs.
    rewrite Hm in Hs. discriminate.
  - apply IH. exact Hany.
Qed.

(** ** Time extraction: which messages give a time *)

Lemma m_class (ci neg : bool) (ranges : list (ascii * ascii))
  (k : mstate -> option mstate) (s : mstate) :
  m ci (Class neg ranges) k s =
    match rest s with
    | String x t => if class_has ci neg ranges x then k (advance x t s) else None
    | EmptyString => None
    end.
Proof. reflexivity. Qed.

Lemma digit_class_sound (ci : bool) (x : ascii) :
  class_has ci false [("0", "9")]%char x = true -> JS.is_digit x = true.
Proof. destruct ci; char_cases x. Qed.

Lemma digit_class_complete (ci : bool) (x : ascii) :
  JS.is_digit x = true -> class_has ci false [("0", "9")]%char x = true.
Proof. destruct ci; char_cases x. Qed.

Lemma digits12_reads_digit (ci : bool) (n : nat) :
  reads_one ci JS.is_digit (Group n digits12).
Proof. cbn. left. intros x. apply digit_class_sound. Qed.

(** Each of the five time patterns has to read a digit. *)
Lemma timePatterns_read_digit (ci : bool) (r : regex) :
  In (ci, r) timePatterns -> reads_one ci JS.is_digit r.
Proof.
  unfold timePatterns. intros [H|[H|[H|[H|[H|[]]]]]]; injection H as <- <-.
  - left. apply digits12_reads_digit.
  - left. apply digits12_reads_digit.
  - left. apply digits12_reads_digit.
  - left. apply digits12_reads_digit.
  - right. right. left. apply digits12_reads_digit.
Qed.

Lemma first_match_none (patterns : list (bool * regex)) (message : string) :
  (forall ci r, In (ci, r) patterns -> reads_one ci JS.is_digit r) ->
  has_digit message = false ->
  first_match patterns message = None.
Proof.
  intros Hall Hnone. induction patterns as [|[ci r] patterns' IH]; [reflexivity|].
  cbn [first_match]. unfold exec.
  rewrite (search_none ci r JS.is_digit) by (try apply Hall; try exact Hnone; now left).
  apply IH. intros ci' r' Hin. apply Hall. now right.
Qed.

(** The first time pattern matches at every digit. *)
Lemma first_time_pattern_at_digit (s : mstate) (x : ascii) (t : string) :
  rest s = String x t -> JS.is_digit x = true ->
  is_some
    (m true (seq [Group 1 digits12; Opt (seq [Char ":"; Group 2 (seq [digit; digit])]);
                  Star space;
                  Opt (Group 3 (alt [lit "am"; lit "pm"; lit "a.m."; lit "p.m."]))])
       Some s) = true.
Proof.
  intros Hrest Hx.
  set (tail := seq [Opt (seq [Char ":"; Group 2 (seq [digit; digit])]); Star space;
                    Opt (Group 3 (alt [lit "am"; lit "pm"; lit "a.m."; lit "p.m."]))]).
  change (is_some
            (m true (Class false [("0", "9")]%char)
               (m true (Opt digit)
                  (fun s1 => m true tail Some
                               (set_cap 1 (substring 0 (pos s1 - pos s) (rest s)) s1)))
               s) = true).
  rewrite m_class, Hrest, (digit_class_complete true x Hx).
  apply (nullable_succeeds true (Opt digit) eq_refl). intros s1.
  apply (nullable_succeeds true tail eq_refl Some). reflexivity.
Qed.

(** The pattern branch of time extraction is decided by its first
    pattern alone, which matches exactly the messages that hold a digit; so
    time extraction gives no result exactly for the messages with no named
    expression and no digit. *)
Theorem extractTime_digit_or_named (message : string) :
  first_match timePatterns message = first_match (take 1 timePatterns) message
  /\ (is_some (first_match timePatterns message) = has_digit message)
  /\ (extractTime message = None <->
      first_included (JS.toLowerCase message) TIME_EXPRESSIONS = None
      /\ has_digit message = false).
Proof.
  assert (Hfirst : is_some (first_match timePatterns message) = has_digit message
                   /\ first_match timePatterns message
                      = first_match (take 1 timePatterns) message).
  { destruct (has_digit message) eqn:Hd.
    - unfold timePatterns. cbn [take first_match].
      destruct (exec true
                  (seq [Group 1 digits12; Opt (seq [Char ":"; Group 2 (seq [digit; digit])]);
                        Star space;
                        Opt (Group 3 (alt [lit "am"; lit "pm"; lit "a.m."; lit "p.m."]))])
                  message) as [res|] eqn:Hex; [split; reflexivity|].
      unfold exec in Hex.
      pose proof (search_some true _ JS.is_digit first_time_pattern_at_digit
                    message None 0%nat Hd) as Hs.
      rewrite Hex in Hs. discriminate.
    - rewrite !first_match_none; try exact Hd; try apply timePatterns_read_digit.
      + split; reflexivity.
      + intros ci r Hin. apply timePatterns_read_digit.
        unfold timePatterns in *. cbn [take] in Hin. destruct Hin as [Hin|[]]. now left. }
  destruct Hfirst as [Hsome Heq]. split; [exact Heq|]. split; [exact Hsome|].
  unfold extractTime.
  destruct (first_included (JS.toLowerCase message) TIME_EXPRESSIONS) as [[expr time]|].
  - split; [discriminate | intros [H _]; discriminate].
  - rewrite <- Hsome. destruct (first_match timePatterns message); cbn [is_some].
    + split; [discriminate | intros [_ H]; discriminate].
    + split; auto.
Qed.

(** ** Email validation *)

Lemma search_bol_only_at_start (ci : bool) (r : regex) (t : string) (c : ascii) (p : nat) :
  search ci (Seq Bol r) (Some c) p t = None.
Proof.
  revert c p. induction t as [|x t' IH]; intros c p; cbn [search]; unfold match_at;
    cbn [m before]; [reflexivity | apply IH].
Qed.

(** An anchored pattern is tested at the start of the text only. *)
Lemma test_anchored (ci : bool) (r : regex) (t : string) :
  test ci (Seq Bol r) t = is_some (m ci r Some (MState None t 0 [])).
Proof.
  unfold test, exec. destruct t as [|x t']; cbn [search]; unfold match_at; cbn [m before].
  - destruct (m ci r Some (MState None EmptyString 0 [])); reflexivity.
  - destruct (m ci r Some (MState None (String x t') 0 [])); [reflexivity|].
    now rewrite search_bol_only_at_start.
Qed.

Lemma append_empty_r (t : string) : t +:+ EmptyString = t.
Proof.
  induction t as [|x t' IH]; [reflexivity|].
  change (String x (t' +:+ EmptyString) = String x t'). now rewrite IH.
Qed.

(** An address accepted by [validateEmail] is returned unchanged, is
    made only of letters, digits and the characters [._%+-@], and holds an
    [@]: no white space, comma or bracket gets through, so a list of
    addresses is never accepted. *)
Theorem validateEmail_accepts_only_addresses (email accepted : string) :
  validateEmail email = Some accepted ->
  accepted = email
  /\ all_chars email_char email = true
  /\ JS.includes email "@" = true.
Proof.
  unfold validateEmail. destruct (test false emailRegex email) eqn:Htest; [|discriminate].
  intros [= <-]. split; [reflexivity|].
  unfold emailRegex in Htest. cbn [seq] in Htest. rewrite test_anchored in Htest.
  set (local := Class false [("a", "z"); ("A", "Z"); ("0", "9"); (".", "."); ("_", "_");
                             ("%", "%"); ("+", "+"); ("-", "-")]%char) in *.
  set (domain := Class false [("a", "z"); ("A", "Z"); ("0", "9"); (".", ".");
                              ("-", "-")]%char) in *.
  set (s0 := MState None email 0 []) in *.
  destruct (m false (Seq (Plus local) (Seq (Char "@") (Seq (Plus domain) (Seq (Char ".")
              (Seq letter (Seq letter (Seq (Star letter) Eol))))))) Some s0)
    as [e|] eqn:Hm; [clear Htest | discriminate].
  split.
  - change (m false (Seq (Plus local) (Seq (Char "@") (Seq (Plus domain) (Seq (Char ".")
              (Seq letter (Seq letter (Star letter))))))) (m false Eol Some) s0 = Some e) in Hm.
    apply (m_inv false email_char) in Hm.
    + destruct Hm as (s' & consumed & Hk & Hrest & Hall). cbn [m] in Hk.
      destruct (rest s') eqn:Hr; [|discriminate].
      cbn [rest s0] in Hrest. subst s0. cbn [rest] in Hrest.
      rewrite Hrest, append_empty_r. exact Hall.
    + subst local domain. unfold letter, Plus. cbn [atoms_in].
      repeat split; intros x; char_cases x.
  - change (m false (Plus local) (m false (Seq (Char "@") (Seq (Plus domain) (Seq (Char ".")
              (Seq letter (Seq letter (Seq (Star letter) Eol)))))) Some) s0 = Some e) in Hm.
    apply (m_inv false (fun _ => true) _ (atoms_in_any _ _)) in Hm.
    destruct Hm as (s1 & c1 & Hk & Hrest & _). cbn [m] in Hk.
    destruct (rest s1) as [|x t] eqn:Hr; [discriminate|].
    unfold char_eq in Hk. destruct (Ascii.eqb_spec "@" x) as [<-|]; [|discriminate].
    subst s0. cbn [rest] in Hrest. apply includes_app. exists c1, t. exact Hrest.
Qed.

(** ** The dialogue: isolation between users *)

(** The [switch] changes the store at most by deleting the entry of the
    user. *)
Lemma onStep_store (w : World) (store : gmap Z MeetingState) (userId : Z)
  (userMessage : string) (state : MeetingState) :
  match onStep w store userId userMessage state with
  | Return r => states r = store
  | Break _ store' _ => store' = store \/ store' = delete userId store
  | Throw => True
  end.
Proof.
  unfold onStep, confirmYes. repeat case_match; simplify_eq; cbn [states]; auto.
Qed.

Lemma handleMeetingRequest_other_users (w : World) (store : gmap Z MeetingState)
  (userId other : Z) (userMessage : string) :
  other <> userId ->
  states (handleMeetingRequest w store userId userMessage) !! other = store !! other.
Proof.
  intros Hne. unfold handleMeetingRequest, meetingTry.
  destruct (hasCancelKeyword userMessage && is_some (store !! userId)).
  { cbn [states]. now rewrite lookup_delete_ne. }
  destruct (store !! userId) as [state|] eqn:Hstate.
  - pose proof (onStep_store w store userId userMessage state) as Hflow.
    destruct (onStep w store userId userMessage state) as [r|state' store' sent|]; cbn [states].
    + now rewrite Hflow.
    + rewrite lookup_insert_ne by congruence.
      destruct Hflow as [-> | ->]; [reflexivity | now rewrite lookup_delete_ne].
    + now rewrite lookup_delete_ne.
  - cbn [states]. now rewrite lookup_insert_ne.
Qed.

Lemma handleCancelRequest_other_users (w : World) (store : gmap Z MeetingState)
  (userId other : Z) (userMessage : string) :
  other <> userId ->
  states (handleCancelRequest w store userId userMessage) !! other = store !! other.
Proof.
  intros Hne. unfold handleCancelRequest, cancelTry.
  repeat case_match; simplify_eq; cbn [states]; rewrite ?lookup_insert_ne by congruence;
    reflexivity.
Qed.

(** A message changes no dialogue but the one of its sender: whatever the
    route, the entry of every other user is what it was. *)
Theorem handleMessage_other_users (w : World) (store : gmap Z MeetingState)
  (ctx : Context) (other : Z) :
  from_id ctx <> Some other ->
  states (result (handleMessage w store ctx)) !! other = store !! other.
Proof.
  intros Hother. unfold handleMessage, served.
  destruct (message_text ctx) as [text|]; [|reflexivity].
  destruct (from_id ctx) as [userId|]; [|reflexivity].
  assert (Hne : other <> userId) by congruence.
  repeat case_match; cbn [result states]; try reflexivity.
  - now apply handleMeetingRequest_other_users.
  - now apply handleCancelRequest_other_users.
Qed.

Lemma handleMessage_other_users_witness :
  let store : gmap Z MeetingState := <[8 := durationState]> ∅ in
  let ctx := {| message_text := Some "schedule a call at 3pm"; from_id := Some 7 |} in
  from_id ctx <> Some 8
  /\ states (result (handleMessage (world_at 0) store ctx)) !! 8 = store !! 8.
Proof.
  intros store ctx.
  assert (H : from_id ctx <> Some 8) by (cbn; congruence).
  split; [exact H|]. exact (handleMessage_other_users (world_at 0) store ctx 8 H).
Defined.

(** ** The dialogue: a step is reached only with its slots filled *)

Lemma or_undefined_truthy (o : option string) (t : string) :
  or_undefined o = Some t -> truthy_str (Some t) = true.
Proof.
  unfold or_undefined. destruct (truthy_str o) eqn:H; [|discriminate]. now intros ->.
Qed.

Lemma initialState_slots (w : World) (userMessage : string) :
  slots_for_step (initialState w userMessage) = true.
Proof.
  unfold initialState. cbv zeta.
  match goal with
  | |- slots_for_step {| step := _; details := ?d |} = true => generalize d
  end.
  intros d. unfold slots_for_step. cbn [step details].
  destruct (is_some (date d)), (truthy_str (time d)),
    (Nat.eqb (List.length (attendees d)) 0), (truthy_num (duration d)); reflexivity.
Qed.

Lemma onStep_slots (w : World) (store : gmap Z MeetingState) (userId : Z)
  (userMessage : string) (state : MeetingState) :
  slots_for_step state = true ->
  match onStep w store userId userMessage state with
  | Break state' _ _ => slots_for_step state' = true
  | _ => True
  end.
Proof.
  intros Hslots. unfold onStep, confirmYes.
  destruct state as [st d]. unfold slots_for_step in *. cbn [step details] in *.
  destruct st; try discriminate; repeat case_match; simplify_eq; cbn in *; auto.
  all: repeat match goal with
              | H : _ && _ = true |- _ => apply andb_true_iff in H; destruct H
              | H : or_undefined _ = Some _ |- _ => apply or_undefined_truthy in H
              | H : _ || _ = false |- _ => apply orb_false_iff in H; destruct H
              | H : (_ <=? 0) = false |- _ => apply Z.leb_gt in H
              end.
  all: rewrite ?andb_true_iff; repeat split; auto.
  all: try (repeat match goal with
                   | H : ?x = _ |- context [?x] => rewrite H
                   end; cbn; auto; fail).
  all: apply negb_true_iff, Z.eqb_neq; lia.
Qed.

Lemma handleMeetingRequest_slots (w : World) (store : gmap Z MeetingState)
  (userId : Z) (userMessage : string) :
  slots_filled store ->
  slots_filled (states (handleMeetingRequest w store userId userMessage)).
Proof.
  intros H. unfold handleMeetingRequest, meetingTry.
  assert (Hdel : slots_filled (delete userId store)).
  { intros u st Hu. apply lookup_delete_Some in Hu. destruct Hu as [_ Hu]. eauto. }
  assert (Hins : forall st0 store0, slots_for_step st0 = true -> slots_filled store0 ->
                                    slots_filled (<[userId := st0]> store0)).
  { intros st0 store0 Hst0 H0 u st Hu. apply lookup_insert_Some in Hu.
    destruct Hu as [[_ <-]|[_ Hu]]; eauto. }
  destruct (hasCancelKeyword userMessage && is_some (store !! userId)); [exact Hdel|].
  destruct (store !! userId) as [state|] eqn:Hstate.
  - pose proof (onStep_slots w store userId userMessage state (H _ _ Hstate)) as Hslots.
    pose proof (onStep_store w store userId userMessage state) as Hstore.
    destruct (onStep w store userId userMessage state) as [r|state' store' sent|]; cbn [states].
    + now rewrite Hstore.
    + destruct Hstore as [-> | ->]; now apply Hins.
    + exact Hdel.
  - cbn [states]. apply Hins; [apply initialState_slots | exact H].
Qed.

Lemma slots_filled_no_cancel (store : gmap Z MeetingState) :
  slots_filled store -> no_cancel_dialogue store.
Proof.
  intros H u st Hu. specialize (H u st Hu). unfold slots_for_step in H.
  destruct (step st); try reflexivity; discriminate.
Qed.

Lemma handleMessage_slots (w : World) (store : gmap Z MeetingState) (ctx : Context) :
  slots_filled store -> slots_filled (states (result (handleMessage w store ctx))).
Proof.
  intros Hstore. unfold handleMessage, served.
  destruct (message_text ctx) as [text|]; [|exact Hstore].
  destruct (from_id ctx) as [userId|]; [|exact Hstore].
  destruct (userId =? 0); [exact Hstore|].
  destruct (isMeetingRequest (JS.trim text)) eqn:Hmeeting; cbn [orb].
  { cbn [result]. now apply handleMeetingRequest_slots. }
  destruct (is_some (store !! userId)).
  { cbn [result]. now apply handleMeetingRequest_slots. }
  destruct (test false cancelPhrase (JS.toLowerCase (JS.trim text))) eqn:Hcancel.
  { apply cancelPhrase_isMeetingRequest in Hcancel. congruence. }
  repeat case_match; exact Hstore.
Qed.

(** From the empty store, whatever messages arrive and whatever the
    collaborators answer, every dialogue in the store has the slots of its
    step: a dialogue at the [time] step has a date, at the [email] step a
    date and a time, at the [duration] step also an attendee, and at the
    [description] and [confirm] steps all four of date, time, attendee and
    duration. *)
Theorem reachable_dialogues_have_their_slots (inbox : list (World * Context))
  (userId : Z) (state : MeetingState) :
  run_messages ∅ inbox !! userId = Some state ->
  slots_for_step state = true
  /\ (step state = StepConfirm ->
      is_some (date (details state)) = true
      /\ truthy_str (time (details state)) = true
      /\ attendees (details state) <> []
      /\ truthy_num (duration (details state)) = true).
Proof.
  assert (Hgen : forall store, slots_filled store -> slots_filled (run_messages store inbox)).
  { induction inbox as [|[w ctx] inbox' IH]; intros store Hstore; [exact Hstore|].
    cbn [run_messages]. apply IH. now apply handleMessage_slots. }
  assert (Hall : slots_filled (run_messages ∅ inbox)).
  { apply Hgen. intros u st Hu. rewrite lookup_empty in Hu. discriminate. }
  intros Hstate. pose proof (Hall _ _ Hstate) as Hslots. split; [exact Hslots|].
  intros Hstep. unfold slots_for_step in Hslots. rewrite Hstep in Hslots.
  repeat (apply andb_true_iff in Hslots; destruct Hslots as [Hslots ?]).
  repeat split; auto.
  destruct (attendees (details state)); [discriminate | congruence].
Qed.

Lemma reachable_dialogues_have_their_slots_witness :
  let inbox :=
    [(world_at (Date.make 2026 10 3),
      {| message_text := Some "schedule a meeting with john@x.com today at 3pm for 30 minutes";
         from_id := Some 7 |})] in
  let state :=
    {| step := StepConfirm;
       details := {| date := Some (Date.make 2026 10 3); time := Some "15:00";
                     duration := Some 30; attendees := ["john@x.com"];
                     description := None; meetingId := None; meetings := None |} |} in
  run_messages ∅ inbox !! 7 = Some state
  /\ slots_for_step state = true.
Proof.
  intros inbox state.
  assert (H : run_messages ∅ inbox !! 7 = Some state) by (vm_compute; reflexivity).
  split; [exact H|]. exact (proj1 (reachable_dialogues_have_their_slots inbox 7 state H)).
Defined.

(** ** The dialogue: replies and errors *)

(** Every message to the dialogue handler gets exactly one reply, unless
    the user is in a dialogue of the cancel-meeting flow. *)
Theorem handleMeetingRequest_one_reply (w : World) (store : gmap Z MeetingState)
  (userId : Z) (userMessage : string) :
  (forall state, store !! userId = Some state -> isCancelStep (step state) = false) ->
  List.length (replies (handleMeetingRequest w store userId userMessage)) = 1%nat.
Proof.
  intros Hflow. unfold handleMeetingRequest, meetingTry.
  destruct (hasCancelKeyword userMessage) eqn:Hkw; cbn [andb].
  - destruct (store !! userId) as [state|]; reflexivity.
  - destruct (store !! userId) as [state|]; [|reflexivity].
    specialize (Hflow state eq_refl).
    assert (Hc : isCancelKeyword userMessage = false).
    { destruct (isCancelKeyword userMessage) eqn:Hc; [|reflexivity].
      apply isCancelKeyword_hasCancelKeyword in Hc. congruence. }
    unfold onStep, confirmYes. rewrite Hc.
    destruct (step state); try discriminate; repeat case_match; simplify_eq; reflexivity.
Qed.

Lemma handleMeetingRequest_one_reply_witness :
  let store : gmap Z MeetingState := <[7 := durationState]> ∅ in
  (forall state, store !! 7 = Some state -> isCancelStep (step state) = false)
  /\ List.length (replies (handleMeetingRequest (world_at 0) store 7 "soon")) = 1%nat.
Proof.
  intros store.
  assert (H : forall state, store !! 7 = Some state -> isCancelStep (step state) = false).
  { intros state Hs. subst store. rewrite lookup_insert_eq in Hs. now injection Hs as <-. }
  split; [exact H|]. exact (handleMeetingRequest_one_reply (world_at 0) store 7 "soon" H).
Defined.

(** When the dialogue of the user has the slots of its step, the error
    reply of the handler has one cause only: the user confirms, is not
    authorised, and the authorisation cannot be started.  A missing slot
    never makes the confirmation fail. *)
Theorem handleMeetingRequest_error_cause (w : World) (store : gmap Z MeetingState)
  (userId : Z) (userMessage : string) :
  (forall state, store !! userId = Some state -> slots_for_step state = true) ->
  In ReplyError (replies (handleMeetingRequest w store userId userMessage)) ->
  (exists state, store !! userId = Some state /\ step state = StepConfirm)
  /\ JS.includes (JS.toLowerCase userMessage) "yes" = true
  /\ isUserAuthorized w userId = false
  /\ startAuthProcess w userId = None
  /\ states (handleMeetingRequest w store userId userMessage) = delete userId store.
Proof.
  intros Hslots. unfold handleMeetingRequest, meetingTry.
  destruct (hasCancelKeyword userMessage && is_some (store !! userId)).
  { cbn. intros [H|[]]. discriminate. }
  destruct (store !! userId) as [state|] eqn:Hstate.
  2:{ cbn. intros [H|[]]. discriminate. }
  specialize (Hslots state eq_refl). unfold slots_for_step in Hslots.
  unfold onStep, confirmYes.
  destruct (step state) eqn:Hstep; try discriminate;
    repeat case_match; simplify_eq; cbn [replies states In]; intros Hin.
  all: try (destruct Hin as [Hin|[]]; discriminate).
  all: try (destruct Hin; fail).
  all: try (destruct Hin as [Hin|[]];
            match type of Hin with (if ?c then _ else _) = _ => destruct c end;
            discriminate).
  all: try (exfalso;
            repeat (apply andb_true_iff in Hslots; destruct Hslots as [Hslots ?]);
            repeat match goal with
                   | H : ?x = _, H' : context [?x] |- _ => rewrite H in H'
                   end;
            cbn in *; discriminate).
  all: repeat split; eauto.
  all: match goal with H : negb _ = true |- _ => apply negb_true_iff in H; exact H end.
Qed.

Lemma handleMeetingRequest_error_cause_witness :
  let store : gmap Z MeetingState := <[7 := confirmState]> ∅ in
  (forall state, store !! 7 = Some state -> slots_for_step state = true)
  /\ In ReplyError (replies (handleMeetingRequest world_without_auth store 7 "yes"))
  /\ isUserAuthorized world_without_auth 7 = false
  /\ states (handleMeetingRequest world_without_auth store 7 "yes") = delete 7 store.
Proof.
  intros store.
  assert (H1 : forall state, store !! 7 = Some state -> slots_for_step state = true).
  { intros state Hs. subst store. rewrite lookup_insert_eq in Hs. now injection Hs as <-. }
  assert (H2 : In ReplyError (replies (handleMeetingRequest world_without_auth store 7 "yes"))).
  { vm_compute. now left. }
  split; [exact H1|]. split; [exact H2|].
  pose proof (handleMeetingRequest_error_cause world_without_auth store 7 "yes" H1 H2) as H.
  split; [apply H | apply H].
Defined.

(** ** Relative date expressions *)

Lemma includes_tomorrow_of_day_after (text : string) :
  JS.includes text "day after tomorrow" = true -> JS.includes text "tomorrow" = true.
Proof. apply (includes_inner text "day after " "tomorrow" ""). Qed.

(** Every input that mentions [tomorrow] resolves to the current moment if
    it also mentions [today], and else to the same time of day one day
    later.  The entry [day after tomorrow] of the table is never used: an
    input that contains it contains [tomorrow], which is declared before
    it, so the resolver never answers with the day after tomorrow. *)
Theorem parseDateInput_tomorrow (w : World) (input : string) :
  JS.includes (JS.toLowerCase input) "tomorrow" = true ->
  parseDateInput w input =
    Some (if JS.includes (JS.toLowerCase input) "today" then now w
          else now w + Date.msPerDay)
  /\ (JS.includes (JS.toLowerCase input) "day after tomorrow" = true ->
      parseDateInput w input <> Some (now w + 2 * Date.msPerDay)).
Proof.
  intros Htom.
  assert (Heq : parseDateInput w input =
                Some (if JS.includes (JS.toLowerCase input) "today" then now w
                      else now w + Date.msPerDay)).
  { unfold parseDateInput, DATE_EXPRESSIONS. cbn [first_included].
    destruct (JS.includes (JS.toLowerCase input) "today"); [reflexivity|].
    rewrite Htom. now rewrite setDate_getDate_add, Z.mul_1_l. }
  split; [exact Heq|]. intros _. rewrite Heq.
  destruct (JS.includes (JS.toLowerCase input) "today"); unfold Date.msPerDay;
    intros [= H]; lia.
Qed.

Lemma parseDateInput_tomorrow_witness :
  let w := world_at (Date.make 2026 10 3 + 36000000) in
  JS.includes (JS.toLowerCase "the day after tomorrow") "tomorrow" = true
  /\ parseDateInput w "the day after tomorrow" = Some (Date.make 2026 10 4 + 36000000).
Proof.
  intros w.
  assert (H : JS.includes (JS.toLowerCase "the day after tomorrow") "tomorrow" = true)
    by (vm_compute; reflexivity).
  split; [exact H|].
  exact (proj1 (parseDateInput_tomorrow w "the day after tomorrow" H)).
Defined.

(** An input without [today] and [tomorrow]: [next week] is the same time
    of day seven days later; without [next week], [weekend] is the same
    time of day on a Saturday, today if today is a Saturday and else the
    coming one.  Neither result is ever before the current moment. *)
Theorem parseDateInput_day_offsets (w : World) (input : string) :
  JS.includes (JS.toLowerCase input) "today" = false ->
  JS.includes (JS.toLowerCase input) "tomorrow" = false ->
  (JS.includes (JS.toLowerCase input) "next week" = true ->
   parseDateInput w input = Some (now w + 7 * Date.msPerDay))
  /\ (JS.includes (JS.toLowerCase input) "next week" = false ->
      JS.includes (JS.toLowerCase input) "weekend" = true ->
      exists d, parseDateInput w input = Some d
                /\ Date.getDay d = 6
                /\ 0 <= Date.Day d - Date.Day (now w) <= 6
                /\ Date.TimeWithinDay d = Date.TimeWithinDay (now w)
                /\ now w <= d).
Proof.
  intros Htoday Htom.
  assert (Hday : JS.includes (JS.toLowerCase input) "day after tomorrow" = false).
  { destruct (JS.includes (JS.toLowerCase input) "day after tomorrow") eqn:H; [|reflexivity].
    apply includes_tomorrow_of_day_after in H. congruence. }
  unfold parseDateInput, DATE_EXPRESSIONS. cbn [first_included].
  rewrite Htoday, Htom, Hday. split.
  - intros ->. now rewrite setDate_getDate_add.
  - intros -> ->. eexists. split; [reflexivity|].
    rewrite setDate_getDate_add. pose proof (getDay_range (now w)) as Hr.
    split; [|split; [|split]].
    + rewrite getDay_add_days. lia_div.
    + rewrite Day_add_days. lia.
    + unfold Date.TimeWithinDay, Date.msPerDay. lia_div.
    + unfold Date.msPerDay. lia.
Qed.

Lemma parseDateInput_day_offsets_witness :
  let w := world_at (Date.make 2026 10 3 + 36000000) in
  JS.includes (JS.toLowerCase "this weekend") "today" = false
  /\ JS.includes (JS.toLowerCase "this weekend") "tomorrow" = false
  /\ JS.includes (JS.toLowerCase "this weekend") "next week" = false
  /\ JS.includes (JS.toLowerCase "this weekend") "weekend" = true
  /\ exists d, parseDateInput w "this weekend" = Some d
               /\ Date.getDay d = 6
               /\ 0 <= Date.Day d - Date.Day (now w) <= 6
               /\ Date.TimeWithinDay d = Date.TimeWithinDay (now w)
               /\ now w <= d.
Proof.
  intros w.
  assert (H1 : JS.includes (JS.toLowerCase "this weekend") "today" = false)
    by (vm_compute; reflexivity).
  assert (H2 : JS.includes (JS.toLowerCase "this weekend") "tomorrow" = false)
    by (vm_compute; reflexivity).
  assert (H3 : JS.includes (JS.toLowerCase "this weekend") "next week" = false)
    by (vm_compute; reflexivity).
  assert (H4 : JS.includes (JS.toLowerCase "this weekend") "weekend" = true)
    by (vm_compute; reflexivity).
  split; [exact H1|]. split; [exact H2|]. split; [exact H3|]. split; [exact H4|].
  exact (proj2 (parseDateInput_day_offsets w "this weekend" H1 H2) H3 H4).
Defined.

(** ** Weekday resolution, every weekday and qualifier *)

Lemma indexOf_weekdays_range (name : string) (i : Z) :
  indexOf name weekdays 0 = Some i -> 0 <= i <= 6.
Proof.
  unfold weekdays. cbn [indexOf]. repeat case_match; intros [= <-]; lia.
Qed.

(** A name that is no weekday gives no date.  For a weekday, with any
    qualifier but [last]: the result falls on that weekday, at the current
    time of day; with [next] it lies 1 to 13 days ahead, and with [this],
    [coming] or no known qualifier it lies 1 to 7 days ahead, never today. *)
Theorem getWeekdayDate_ahead (w : World) (weekday qualifier : string) :
  (indexOf (JS.toLowerCase weekday) weekdays 0 = None ->
   getWeekdayDate w weekday qualifier = None)
  /\ (forall targetDay,
        indexOf (JS.toLowerCase weekday) weekdays 0 = Some targetDay ->
        JS.toLowerCase qualifier <> "last" ->
        exists d, getWeekdayDate w weekday qualifier = Some d
                  /\ Date.getDay d = targetDay
                  /\ Date.TimeWithinDay d = Date.TimeWithinDay (now w)
                  /\ 1 <= Date.Day d - Date.Day (now w) <= 13
                  /\ (JS.toLowerCase qualifier <> "next" ->
                      Date.Day d - Date.Day (now w) <= 7)).
Proof.
  split.
  - intros Hnone. unfold getWeekdayDate. now rewrite Hnone.
  - intros targetDay Hidx Hlast. unfold getWeekdayDate. rewrite Hidx.
    pose proof (indexOf_weekdays_range _ _ Hidx) as Ht.
    pose proof (getDay_range (now w)) as Hr.
    destruct (String.eqb_spec (JS.toLowerCase qualifier) "last") as [|_]; [contradiction|].
    assert (Hwrap : forall k, 1 <= k <= 13 -> (k <= 7 \/ JS.toLowerCase qualifier = "next") ->
                    (Date.getDay (now w) + k) mod 7 = targetDay ->
                    exists d, Some (Date.setDate (now w) (Date.getDate (now w) + k)) = Some d
                      /\ Date.getDay d = targetDay
                      /\ Date.TimeWithinDay d = Date.TimeWithinDay (now w)
                      /\ 1 <= Date.Day d - Date.Day (now w) <= 13
                      /\ (JS.toLowerCase qualifier <> "next" ->
                          Date.Day d - Date.Day (now w) <= 7)).
    { intros k Hk Hseven Hmod. eexists. split; [reflexivity|].
      rewrite setDate_getDate_add, getDay_add_days, Day_add_days.
      split; [exact Hmod|]. split; [unfold Date.TimeWithinDay, Date.msPerDay; lia_div|].
      split; [lia|]. intros Hnext. destruct Hseven; [lia | contradiction]. }
    destruct (String.eqb_spec (JS.toLowerCase qualifier) "next") as [Hn|Hn].
    { apply Hwrap; [lia | now right | lia_div]. }
    assert (Hdefault :
      exists d, Some (Date.setDate (now w)
                        (Date.getDate (now w)
                         + (if targetDay - Date.getDay (now w) <=? 0
                            then targetDay - Date.getDay (now w) + 7
                            else targetDay - Date.getDay (now w)))) = Some d
                /\ Date.getDay d = targetDay
                /\ Date.TimeWithinDay d = Date.TimeWithinDay (now w)
                /\ 1 <= Date.Day d - Date.Day (now w) <= 13
                /\ (JS.toLowerCase qualifier <> "next" ->
                    Date.Day d - Date.Day (now w) <= 7)).
    { destruct (Z.leb_spec (targetDay - Date.getDay (now w)) 0);
        (apply Hwrap; [lia | left; lia | lia_div]). }
    repeat case_match; exact Hdefault.
Qed.

Lemma getWeekdayDate_ahead_witness :
  let w := world_at (Date.make 2026 10 3 + 36000000) in
  indexOf (JS.toLowerCase "Tuesday") weekdays 0 = Some 2
  /\ JS.toLowerCase "this" <> "last"
  /\ exists d, getWeekdayDate w "Tuesday" "this" = Some d
               /\ Date.getDay d = 2
               /\ Date.TimeWithinDay d = Date.TimeWithinDay (now w)
               /\ 1 <= Date.Day d - Date.Day (now w) <= 13
               /\ (JS.toLowerCase "this" <> "next" ->
                   Date.Day d - Date.Day (now w) <= 7).
Proof.
  intros w.
  assert (H1 : indexOf (JS.toLowerCase "Tuesday") weekdays 0 = Some 2) by reflexivity.
  assert (H2 : JS.toLowerCase "this" <> "last") by (vm_compute; congruence).
  split; [exact H1|]. split; [exact H2|].
  exact (proj2 (getWeekdayDate_ahead w "Tuesday" "this") 2 H1 H2).
Defined.

(** ** Witnesses of the email property *)

Lemma validateEmail_accepts_only_addresses_witness :
  validateEmail "john@x.com" = Some "john@x.com"
  /\ all_chars email_char "john@x.com" = true
  /\ JS.includes "john@x.com" "@" = true.
Proof.
  assert (H : validateEmail "john@x.com" = Some "john@x.com") by (vm_compute; reflexivity).
  split; [exact H|].
  exact (proj2 (validateEmail_accepts_only_addresses "john@x.com" "john@x.com" H)).
Defined.

(** ** Casual chat *)

Lemma countSame_push_same (userMessage : string) (msgs : list ChatMessage) :
  countSame userMessage (msgs ++ [{| role := RoleUser; content := userMessage |}])
  = S (countSame userMessage msgs).
Proof.
  unfold countSame. rewrite List.filter_app, List.map_app, List.filter_app, List.length_app.
  cbn. rewrite String.eqb_refl. cbn. lia.
Qed.

Lemma pickRandom_in (cw : ChatWorld) (choices : list string) :
  choices <> [] -> In (pickRandom cw choices) choices.
Proof.
  intros Hne. unfold pickRandom.
  assert (Hlt : (randomBelow cw (List.length choices) mod List.length choices
                 < List.length choices)%nat).
  { apply Nat.mod_upper_bound. destruct choices; [congruence | discriminate]. }
  apply lookup_lt_is_Some_2 in Hlt. destruct Hlt as [choice Hchoice].
  rewrite Hchoice. cbn. apply list_elem_of_In. eapply list_elem_of_lookup_2. exact Hchoice.
Qed.

(** A greeting that is no meeting request is answered by the number of
    times the user has already sent the same text, letter case apart: the
    first time by one of the six greetings, the second time by the
    hey-again text, the third time by the hi-once-more text, and from the
    fourth time on by the saying-hi-a-lot text.  The user message and the
    answer are appended to the history; the time of the last update is not
    refreshed. *)
Theorem handleChat_greeting (cw : ChatWorld) (conversations : gmap Z Conversation)
  (userId : Z) (userMessage : string) :
  isMeetingRequest userMessage = false ->
  isGreeting userMessage = true ->
  let old := default (freshConversation cw) (conversations !! userId) in
  let earlier := countSame userMessage (messages old) in
  let response :=
    match earlier with
    | 0%nat => getRandomGreeting cw
    | 1%nat => "Hey again! 👋 Nice to see you're still here!"
    | 2%nat => "Hi once more! You're very friendly today! 😊"
    | _ => "I see you're saying hi a lot! I'm always here and happy to chat. What's on your mind? 🌟"
    end in
  handleChat cw conversations userId userMessage =
    (<[userId := {| messages := messages old
                                ++ [{| role := RoleUser; content := userMessage |};
                                    {| role := RoleAssistant; content := response |}];
                    lastUpdate := lastUpdate old |}]> conversations,
     response)
  /\ (earlier = 0%nat -> In response greetings).
Proof.
  intros Hmeeting Hgreeting old earlier response. split.
  - subst response earlier old. unfold handleChat. rewrite Hmeeting, Hgreeting.
    unfold push. cbn [messages lastUpdate]. fold (freshConversation cw).
    destruct (conversations !! userId) as [found|].
    + change (default (freshConversation cw) (Some found)) with found.
      rewrite countSame_push_same, insert_insert_eq, <- app_assoc.
      destruct (countSame userMessage (messages found)) as [|[|[|n]]]; reflexivity.
    + change (default (freshConversation cw) None) with (freshConversation cw).
      rewrite countSame_push_same, <- app_assoc.
      destruct (countSame userMessage (messages (freshConversation cw))) as [|[|[|n]]];
        reflexivity.
  - intros Hzero. subst response. rewrite Hzero. apply pickRandom_in. discriminate.
Qed.

Lemma handleChat_greeting_witness :
  let conversations : gmap Z Conversation :=
    <[7 := {| messages := [{| role := RoleSystem; content := "You are Remo" |};
                           {| role := RoleUser; content := "Hello" |};
                           {| role := RoleAssistant; content := "Hi there!" |};
                           {| role := RoleUser; content := "hello" |};
                           {| role := RoleAssistant; content := "Hey again!" |}];
              lastUpdate := 500 |}]> ∅ in
  isMeetingRequest "HELLO" = false
  /\ isGreeting "HELLO" = true
  /\ snd (handleChat chat_world conversations 7 "HELLO")
     = "Hi once more! You're very friendly today! 😊".
Proof.
  intros conversations.
  assert (H1 : isMeetingRequest "HELLO" = false) by (vm_compute; reflexivity).
  assert (H2 : isGreeting "HELLO" = true) by (vm_compute; reflexivity).
  split; [exact H1|]. split; [exact H2|].
  rewrite (proj1 (handleChat_greeting chat_world conversations 7 "HELLO" H1 H2)).
  vm_compute. reflexivity.
Defined.

Lemma history_shape_push (conversation : Conversation) (msg : ChatMessage) (t : Z) :
  role msg <> RoleSystem ->
  history_shape conversation ->
  history_shape {| messages := messages conversation ++ [msg]; lastUpdate := t |}.
Proof.
  intros Hrole (prompt & rest & Hm & Hall). exists prompt, (rest ++ [msg])%list.
  cbn [messages]. rewrite Hm. split; [reflexivity|].
  apply Forall_app. split; [exact Hall|]. now constructor.
Qed.

(** The histories kept by [handleChat]: each opens with the one system
    message it was created with and holds no other (the note about
    repetitions sent to the completion service is never stored); a history
    is only ever extended, never shortened or dropped; and the histories of
    the other users are not touched. *)
Theorem handleChat_histories (cw : ChatWorld) (conversations : gmap Z Conversation)
  (userId : Z) (userMessage : string) :
  histories_shaped conversations ->
  let after := fst (handleChat cw conversations userId userMessage) in
  histories_shaped after
  /\ (forall old, conversations !! userId = Some old ->
        exists new (added : list ChatMessage),
          after !! userId = Some new /\ messages new = (messages old ++ added)%list)
  /\ (forall other, other <> userId -> after !! other = conversations !! other).
Proof.
  intros Hshaped after.
  assert (Hfresh : history_shape (freshConversation cw)).
  { eexists _, []. split; [reflexivity | constructor]. }
  assert (Hins : forall (m0 : gmap Z Conversation) c, histories_shaped m0 -> history_shape c ->
                                histories_shaped (<[userId := c]> m0)).
  { intros m0 c H0 Hc u c' Hu. apply lookup_insert_Some in Hu.
    destruct Hu as [[_ <-]|[_ Hu]]; eauto. }
  subst after. unfold handleChat. fold (freshConversation cw).
  destruct (isMeetingRequest userMessage).
  { cbn [fst]. split; [exact Hshaped|]. split; [|reflexivity].
    intros old Hold. exists old, []. now rewrite app_nil_r. }
  set (user := {| role := RoleUser; content := userMessage |}).
  assert (Hold : history_shape (default (freshConversation cw) (conversations !! userId))).
  { destruct (conversations !! userId) eqn:Hc; cbn; eauto. }
  assert (Hpushed : history_shape
                      (push user (default (freshConversation cw) (conversations !! userId)))).
  { unfold push. apply history_shape_push; [discriminate | exact Hold]. }
  assert (Hkept : histories_shaped
                    (match conversations !! userId with
                     | Some _ => <[userId := push user
                                     (default (freshConversation cw) (conversations !! userId))]>
                                   conversations
                     | None => conversations
                     end)).
  { destruct (conversations !! userId); [now apply Hins | exact Hshaped]. }
  destruct (conversations !! userId) as [found|] eqn:Hfound; cbn [default] in *.
  - repeat case_match; cbn [fst]; (split; [|split]).
    all: try (apply Hins; [exact Hkept|];
              unfold push; apply history_shape_push; [discriminate | exact Hpushed]).
    all: try exact Hkept.
    all: try (intros other Hne; rewrite ?lookup_insert_ne by congruence; reflexivity).
    all: intros old [= <-]; rewrite ?lookup_insert_eq; eexists _, _;
      (split; [reflexivity|]); unfold push; cbn [messages];
      rewrite <- ?app_assoc; reflexivity.
  - repeat case_match; cbn [fst]; (split; [|split]).
    all: try (apply Hins; [exact Hshaped|];
              unfold push; apply history_shape_push; [discriminate | exact Hpushed]).
    all: try exact Hshaped.
    all: try (intros other Hne; rewrite ?lookup_insert_ne by congruence; reflexivity).
    all: intros old Hold'; discriminate.
Qed.

Lemma handleChat_histories_witness :
  let conversations : gmap Z Conversation := <[7 := freshConversation chat_world]> ∅ in
  histories_shaped conversations
  /\ histories_shaped (fst (handleChat chat_world conversations 7 "tell me a joke")).
Proof.
  intros conversations.
  assert (H : histories_shaped conversations).
  { intros u c Hu. subst conversations. apply lookup_insert_Some in Hu.
    destruct Hu as [[_ <-]|[_ Hu]]; [|rewrite lookup_empty in Hu; discriminate].
    eexists _, []. split; [reflexivity | constructor]. }
  split; [exact H|].
  exact (proj1 (handleChat_histories chat_world conversations 7 "tell me a joke" H)).
Defined.

(** ** The clean-ups of the conversations *)

Lemma cleanup_lookup (threshold current : Z) (conversations : gmap Z Conversation)
  (userId : Z) (conversation : Conversation) :
  cleanup threshold current conversations !! userId = Some conversation
  <-> conversations !! userId = Some conversation
      /\ current - lastUpdate conversation <= threshold.
Proof.
  unfold cleanup. rewrite map_lookup_filter_Some. cbn [snd]. split; intros [H1 H2]; split;
    auto; lia.
Qed.

(** Each clean-up keeps exactly the conversations updated within its
    threshold.  The hourly clean-up is subsumed by the five-minute one: run
    at most 55 minutes after it, it finds nothing to delete, and run before
    it, it changes nothing of its result. *)
Theorem cleanups_subsumed (earlier later : Z) (conversations : gmap Z Conversation) :
  earlier <= later ->
  later - earlier <= 3300000 ->
  hourlyCleanup later (minuteCleanup earlier conversations)
    = minuteCleanup earlier conversations
  /\ minuteCleanup later (hourlyCleanup later conversations)
     = minuteCleanup later conversations
  /\ (forall userId conversation,
        minuteCleanup earlier conversations !! userId = Some conversation
        <-> conversations !! userId = Some conversation
            /\ earlier - lastUpdate conversation <= 300000).
Proof.
  intros Hle Hgap. split; [|split].
  - unfold hourlyCleanup. apply map_filter_id. intros u c Hu. cbn [snd].
    apply cleanup_lookup in Hu. lia.
  - apply map_eq. intros u. apply option_eq. intros c.
    unfold minuteCleanup, hourlyCleanup. rewrite !cleanup_lookup. intuition lia.
  - intros u c. unfold minuteCleanup. rewrite cleanup_lookup. intuition lia.
Qed.

Lemma cleanups_subsumed_witness :
  600000 <= 660000
  /\ 660000 - 600000 <= 3300000
  /\ hourlyCleanup 660000 (minuteCleanup 600000 two_conversations)
     = minuteCleanup 600000 two_conversations.
Proof.
  assert (H1 : 600000 <= 660000) by lia.
  assert (H2 : 660000 - 600000 <= 3300000) by lia.
  split; [exact H1|]. split; [exact H2|].
  exact (proj1 (cleanups_subsumed 600000 660000 two_conversations H1 H2)).
Defined.

(** ** Greetings and how-are-you messages *)

Lemma strip_starts (a b : ascii) (word : string) (s s' : mstate) :
  strip true (String a (String b word)) s = Some s' -> starts_ci a b (rest s).
Proof.
  cbn [strip]. destruct (rest s) as [|x t] eqn:Hrest; [discriminate|].
  destruct (char_eq true a x) eqn:Ha; [|discriminate]. cbn [rest advance].
  destruct t as [|y t']; [discriminate|].
  destruct (char_eq true b y) eqn:Hb; [|discriminate]. intros _.
  exists x, y, t'. auto.
Qed.

Lemma anchored_word_starts (a b : ascii) (word : string) (r : regex) (t : string) :
  test true (Seq Bol (Seq (lit (String a (String b word))) r)) t = true
  \/ test true (Seq Bol (lit (String a (String b word)))) t = true ->
  starts_ci a b t.
Proof.
  rewrite !test_anchored. intros [H|H].
  - change (m true (Seq (lit (String a (String b word))) r) Some (MState None t 0 []))
      with (m true (lit (String a (String b word))) (m true r Some) (MState None t 0 []))
      in H.
    rewrite m_lit in H.
    destruct (strip true (String a (String b word)) (MState None t 0 [])) eqn:Hs;
      [|discriminate].
    exact (strip_starts _ _ _ _ _ Hs).
  - rewrite m_lit in H.
    destruct (strip true (String a (String b word)) (MState None t 0 [])) eqn:Hs;
      [|discriminate].
    exact (strip_starts _ _ _ _ _ Hs).
Qed.

Lemma starts_ci_agree (a b a' b' : ascii) (t : string) :
  starts_ci a b t -> starts_ci a' b' t ->
  JS.upper_char a = JS.upper_char a' /\ JS.upper_char b = JS.upper_char b'.
Proof.
  intros (x & y & t1 & -> & Ha & Hb) (x' & y' & t2 & [= <- <- _] & Ha' & Hb').
  unfold char_eq in *.
  apply Ascii.eqb_eq in Ha, Hb, Ha', Hb'. split; congruence.
Qed.

(** No message is both a greeting and a how-are-you message: the order of
    the two tests in [handleChat] does not matter, and a how-are-you
    message never gets a greeting for an answer. *)
Theorem greeting_is_not_how_are_you (message : string) :
  isGreeting message = true -> isHowAreYou message = false.
Proof.
  intros Hg. destruct (isHowAreYou message) eqn:Hh; [|reflexivity]. exfalso.
  assert (Hhow : starts_ci "h" "o" (JS.trim message)).
  { unfold isHowAreYou, howAreYouPatterns in Hh. cbn [existsb] in Hh.
    rewrite !orb_true_iff in Hh.
    destruct Hh as [H|[H|[H|[H|H]]]]; try discriminate.
    - apply (anchored_word_starts "h" "o" "w are you" Empty). now right.
    - apply (anchored_word_starts "h" "o" "w"
               (seq [Opt (Group 1 (Char "'")); lit "s it going"])). now left.
    - apply (anchored_word_starts "h" "o" "w do you feel" Empty). now right.
    - apply (anchored_word_starts "h" "o" "w"
               (seq [Opt (Group 1 (Char "'")); lit "re you"])). now left. }
  unfold isGreeting, greetingPatterns in Hg. cbn [existsb] in Hg.
  rewrite !orb_true_iff in Hg.
  destruct Hg as [H|[H|[H|[H|[H|H]]]]]; try discriminate.
  - pose proof (anchored_word_starts "h" "i" "" WordB _ (or_introl H)) as Hs.
    destruct (starts_ci_agree _ _ _ _ _ Hs Hhow) as [_ Hb]. vm_compute in Hb. discriminate.
  - pose proof (anchored_word_starts "h" "e" "llo" WordB _ (or_introl H)) as Hs.
    destruct (starts_ci_agree _ _ _ _ _ Hs Hhow) as [_ Hb]. vm_compute in Hb. discriminate.
  - pose proof (anchored_word_starts "h" "e" "y" WordB _ (or_introl H)) as Hs.
    destruct (starts_ci_agree _ _ _ _ _ Hs Hhow) as [_ Hb]. vm_compute in Hb. discriminate.
  - pose proof (anchored_word_starts "g" "r" "eetings" WordB _ (or_introl H)) as Hs.
    destruct (starts_ci_agree _ _ _ _ _ Hs Hhow) as [Ha _]. vm_compute in Ha. discriminate.
  - pose proof (anchored_word_starts "g" "o" "od"
                  (seq [Star space;
                        Group 1 (alt [lit "morning"; lit "afternoon"; lit "evening"]); WordB])
                  _ (or_introl H)) as Hs.
    destruct (starts_ci_agree _ _ _ _ _ Hs Hhow) as [Ha _]. vm_compute in Ha. discriminate.
Qed.

Lemma greeting_is_not_how_are_you_witness :
  isGreeting "  Hey, how are you?" = true /\ isHowAreYou "  Hey, how are you?" = false.
Proof.
  assert (H : isGreeting "  Hey, how are you?" = true) by (vm_compute; reflexivity).
  split; [exact H|]. exact (greeting_is_not_how_are_you "  Hey, how are you?" H).
Defined.

(** ** The update route *)

(** Every message whose lower-cased text matches the update pattern of the
    router is a meeting request: each of its five verbs is among the verbs
    of [/\b(update|change|modify)\b/i] or [/\b(reschedule|move|postpone)\b/i]. *)
Lemma updateVerb_isMeetingRequest (userMessage : string) :
  test false updateVerb (JS.toLowerCase userMessage) = true ->
  isMeetingRequest userMessage = true.
Proof.
  intros H.
  set (P2 := seq [WordB; Group 1 (alt [lit "update"; lit "change"; lit "modify"]); WordB]).
  set (P3 := seq [WordB; Group 1 (alt [lit "reschedule"; lit "move"; lit "postpone"]); WordB]).
  assert (Hkw : test true (Alt P2 P3) userMessage = true).
  { apply (test_lower updateVerb); [|exact H]. intros s Hs.
    destruct (m false updateVerb Some (lower_state s)) as [e|] eqn:Hm; [|discriminate].
    assert (Hw : word_at true ["update"; "change"; "move"; "postpone"; "reschedule"] s).
    { apply word_at_lower.
      apply (bounded_word_sound false 1 _ Empty Some _ e); [discriminate|]. exact Hm. }
    destruct Hw as (Hb & word & s' & Hin & Hs' & Hb').
    cbn [m].
    assert (H2 : In word ["update"; "change"; "modify"] ->
                 is_some (m true P2 Some s) = true).
    { intros Hin2. apply (bounded_word_complete true 1 ["update"; "change"; "modify"]).
      split; [exact Hb|]. exists word, s'. auto. }
    assert (H3 : In word ["reschedule"; "move"; "postpone"] ->
                 is_some (m true P3 Some s) = true).
    { intros Hin3. apply (bounded_word_complete true 1 ["reschedule"; "move"; "postpone"]).
      split; [exact Hb|]. exists word, s'. auto. }
    destruct (m true P2 Some s) as [e2|] eqn:Hm2; [reflexivity|].
    cbn [In] in Hin, H2, H3.
    destruct Hin as [<-|[<-|[<-|[<-|[<-|[]]]]]];
      try (apply H3; tauto); discriminate H2; tauto. }
  assert (Hor : test true P2 userMessage = true \/ test true P3 userMessage = true).
  { clear H. revert Hkw. unfold test, exec. generalize (@None ascii), O.
    induction userMessage as [|c t IH]; intros b p; cbn [search]; unfold match_at;
      cbn [m].
    - destruct (m true P2 Some (MState b EmptyString p [])); [now left|].
      destruct (m true P3 Some (MState b EmptyString p [])); [now right | discriminate].
    - destruct (m true P2 Some (MState b (String c t) p [])); [now left|].
      destruct (m true P3 Some (MState b (String c t) p [])); [now right|].
      apply IH. }
  unfold isMeetingRequest, meetingKeywords. cbn [existsb]. fold P2 P3.
  destruct Hor as [-> | ->]; rewrite ?orb_true_r; reflexivity.
Qed.

(** The router never invokes [handleUpdateRequest]: a message with one of
    the verbs update, change, move, postpone or reschedule is a meeting
    request, and that route is taken first.  Such a message starts or
    continues a scheduling dialogue instead. *)
Theorem update_route_unreachable (w : World) (store : gmap Z MeetingState)
  (ctx : Context) :
  invoked (handleMessage w store ctx) <> Some UpdateRequest.
Proof.
  unfold handleMessage, served.
  destruct (message_text ctx) as [text|]; [|discriminate].
  destruct (from_id ctx) as [userId|]; [|discriminate].
  destruct (userId =? 0); [discriminate|].
  destruct (isMeetingRequest (JS.trim text)) eqn:Hmeeting; cbn [orb]; [discriminate|].
  destruct (is_some (store !! userId)); [discriminate|].
  destruct (test false cancelPhrase (JS.toLowerCase (JS.trim text))); [discriminate|].
  destruct (test false listPhrase (JS.toLowerCase (JS.trim text))); [discriminate|].
  destruct (test false updateVerb (JS.toLowerCase (JS.trim text))) eqn:Hupdate;
    [|discriminate].
  apply updateVerb_isMeetingRequest in Hupdate. congruence.
Qed.

(** ** Listing meetings: the range *)

Lemma Day_startOfDay (t : Z) : Date.Day (Date.startOfDay t) = Date.Day t.
Proof. unfold Date.startOfDay, Date.Day, Date.msPerDay. lia_div. Qed.

Lemma Day_endOfDay (t : Z) : Date.Day (endOfDay t) = Date.Day t.
Proof. unfold endOfDay, Date.Day, Date.msPerDay. lia_div. Qed.

Lemma chosenRange_days (w : World) (message : string) :
  let chosen := chosenRange w message in
  0 <= Date.Day (endDate chosen) - Date.Day (startDate chosen) <= 7
  /\ (days chosen = 1 \/ days chosen = 7).
Proof.
  pose proof (getDay_range (now w)) as Hday.
  unfold chosenRange, single. repeat case_match; cbn [startDate endDate days];
    rewrite ?setDate_getDate_add, ?Day_add_days; lia.
Qed.

(** Whatever the message, the range asked from the calendar consists of
    whole days: it starts at midnight, ends in the last millisecond of the
    same day or of one of the seven days after it, and [days] is 1 or 7.
    The start is therefore always before the end, and the reply for an
    empty calendar always names both ends, also for a single day. *)
Theorem listRange_whole_days (w : World) (message : string) :
  let range := listRange w message in
  Date.TimeWithinDay (startDate range) = 0
  /\ Date.TimeWithinDay (endDate range) = Date.msPerDay - 1
  /\ 0 <= Date.Day (endDate range) - Date.Day (startDate range) <= 7
  /\ (days range = 1 \/ days range = 7)
  /\ noMeetingsText w range =
       "No meetings found for " +:+ toLocaleDateString w (Some (startDate range)) +:+
       " to " +:+ toLocaleDateString w (Some (endDate range)) +:+ "! 📅".
Proof.
  destruct (chosenRange_days w message) as [Hspan Hdays].
  unfold listRange. cbn [startDate endDate days] in *.
  assert (Hlt : (Date.startOfDay (startDate (chosenRange w message))
                 <? endOfDay (endDate (chosenRange w message))) = true).
  { apply Z.ltb_lt. unfold Date.startOfDay, endOfDay. unfold Date.msPerDay. lia. }
  split; [|split; [|split; [|split]]].
  - unfold Date.startOfDay, Date.TimeWithinDay, Date.msPerDay. lia_div.
  - unfold endOfDay, Date.TimeWithinDay, Date.msPerDay. lia_div.
  - rewrite Day_startOfDay, Day_endOfDay. exact Hspan.
  - exact Hdays.
  - unfold noMeetingsText. cbn [startDate endDate]. rewrite Hlt. reflexivity.
Qed.

(** Without a specific date in the message, [tomorrow] gives the whole of
    tomorrow, whatever else the message says.  The test for
    [day after tomorrow] comes after it and is never reached: such a
    message is answered with the meetings of tomorrow. *)
Theorem listRange_tomorrow (w : World) (message : string) :
  mentionsDate message = false ->
  JS.includes message "tomorrow" = true ->
  listRange w message =
    {| startDate := Date.startOfDay (now w) + Date.msPerDay;
       endDate := Date.startOfDay (now w) + 2 * Date.msPerDay - 1;
       days := 1 |}
  /\ Date.Day (startDate (listRange w message)) <> Date.Day (now w) + 2.
Proof.
  intros Hdate Htom. unfold listRange, chosenRange. rewrite Hdate, Htom.
  cbn [single startDate endDate days]. rewrite setDate_getDate_add. split.
  - f_equal; unfold Date.startOfDay, endOfDay, Date.Day, Date.msPerDay; lia_div.
  - rewrite Day_startOfDay, Day_add_days. lia.
Qed.

Lemma listRange_tomorrow_witness :
  let message := "show my meetings for the day after tomorrow" in
  mentionsDate message = false
  /\ JS.includes message "tomorrow" = true
  /\ startDate (listRange (world_at 0) message) = Date.msPerDay.
Proof.
  intros message.
  assert (H1 : mentionsDate message = false) by (vm_compute; reflexivity).
  assert (H2 : JS.includes message "tomorrow" = true) by (vm_compute; reflexivity).
  split; [exact H1|]. split; [exact H2|].
  rewrite (proj1 (listRange_tomorrow (world_at 0) message H1 H2)). reflexivity.
Defined.


(** ** Listing meetings: the grouping by date *)

Lemma groupOf_addMeeting (d date : string) (meeting : CalendarEvent) (groups : Groups) :
  groupOf d (addMeeting date meeting groups)
  = (groupOf d groups ++ if String.eqb date d then [meeting] else [])%list.
Proof.
  induction groups as [|[d0 dayMeetings] others IH]; cbn [addMeeting groupOf].
  - reflexivity.
  - destruct (String.eqb d0 date) eqn:Hdate; cbn [groupOf].
    + apply String.eqb_eq in Hdate. subst d0.
      destruct (String.eqb date d); [reflexivity | now rewrite app_nil_r].
    + destruct (String.eqb d0 d) eqn:Hd; [|exact IH].
      apply String.eqb_eq in Hd. subst d0. rewrite String.eqb_sym, Hdate.
      now rewrite app_nil_r.
Qed.

Lemma dates_addMeeting (d date : string) (meeting : CalendarEvent) (groups : Groups) :
  d ∈ (addMeeting date meeting groups).*1 <-> d = date \/ d ∈ groups.*1.
Proof.
  induction groups as [|[d0 dayMeetings] others IH]; cbn [addMeeting].
  - cbn. rewrite !elem_of_cons, elem_of_nil. tauto.
  - destruct (String.eqb d0 date) eqn:Hdate; cbn [fmap list_fmap fst].
    + apply String.eqb_eq in Hdate. subst d0. rewrite !elem_of_cons. tauto.
    + change (list_fmap _ _ fst ?l) with (l.*1). rewrite !elem_of_cons, IH. tauto.
Qed.

Lemma NoDup_addMeeting (date : string) (meeting : CalendarEvent) (groups : Groups) :
  NoDup groups.*1 -> NoDup (addMeeting date meeting groups).*1.
Proof.
  induction groups as [|[d0 dayMeetings] others IH]; cbn [addMeeting]; intros Hnd.
  - cbn. apply NoDup_singleton.
  - destruct (String.eqb d0 date) eqn:Hdate; [exact Hnd|].
    cbn [fmap list_fmap fst] in *. change (list_fmap _ _ fst ?l) with (l.*1) in *.
    apply NoDup_cons in Hnd. destruct Hnd as [Hnot Hnd]. apply NoDup_cons. split.
    + rewrite dates_addMeeting. intros [->|Hin]; [|tauto].
      rewrite String.eqb_refl in Hdate. discriminate.
    + now apply IH.
Qed.

Lemma length_addMeeting (date : string) (meeting : CalendarEvent) (groups : Groups) :
  (1 <= length (addMeeting date meeting groups) <= S (length groups))%nat.
Proof.
  induction groups as [|[d0 dayMeetings] others IH]; cbn [addMeeting].
  - cbn. lia.
  - destruct (String.eqb d0 date); cbn [length]; lia.
Qed.

Lemma groupOf_elem (d : string) (dayMeetings : list CalendarEvent) (groups : Groups) :
  NoDup groups.*1 -> (d, dayMeetings) ∈ groups -> groupOf d groups = dayMeetings.
Proof.
  induction groups as [|[d0 ms0] others IH]; intros Hnd Hin.
  - apply elem_of_nil in Hin. destruct Hin.
  - cbn [fmap list_fmap fst] in Hnd. change (list_fmap _ _ fst ?l) with (l.*1) in Hnd.
    apply NoDup_cons in Hnd. destruct Hnd as [Hnot Hnd]. cbn [groupOf].
    apply elem_of_cons in Hin. destruct Hin as [[= <- <-]|Hin].
    + now rewrite String.eqb_refl.
    + destruct (String.eqb d0 d) eqn:Hd; [|now apply IH].
      apply String.eqb_eq in Hd. subst d0. exfalso. apply Hnot.
      apply list_elem_of_fmap. exists (d, dayMeetings). auto.
Qed.

Lemma elem_groupOf (d : string) (groups : Groups) :
  d ∈ groups.*1 -> (d, groupOf d groups) ∈ groups.
Proof.
  induction groups as [|[d0 ms0] others IH]; intros Hin.
  - apply elem_of_nil in Hin. destruct Hin.
  - cbn [groupOf]. destruct (String.eqb d0 d) eqn:Hd.
    + apply String.eqb_eq in Hd. subst d0. apply elem_of_cons. now left.
    + cbn [fmap list_fmap fst] in Hin. apply elem_of_cons in Hin.
      destruct Hin as [->|Hin]; [rewrite String.eqb_refl in Hd; discriminate|].
      apply elem_of_cons. right. now apply IH.
Qed.

(** The grouping after the meetings [seen], continued over [meetings]. *)
Lemma groupByDate_invariant (w : World) (meetings seen : list CalendarEvent)
  (groups : Groups) :
  NoDup groups.*1 ->
  (forall d, groupOf d groups = List.filter (fun x => String.eqb (dateKey w x) d) seen) ->
  (forall d, d ∈ groups.*1 <-> exists x, x ∈ seen /\ dateKey w x = d) ->
  (length groups <= length seen)%nat ->
  let result :=
    fold_left (fun meetingsByDate meeting =>
                 addMeeting (dateKey w meeting) meeting meetingsByDate) meetings groups in
  NoDup result.*1
  /\ (forall d, groupOf d result
                = List.filter (fun x => String.eqb (dateKey w x) d) (seen ++ meetings))
  /\ (forall d, d ∈ result.*1 <-> exists x, x ∈ (seen ++ meetings)%list /\ dateKey w x = d)
  /\ (length result <= length (seen ++ meetings))%nat
  /\ (meetings <> [] -> (1 <= length result)%nat).
Proof.
  revert seen groups.
  induction meetings as [|meeting meetings' IH]; intros seen groups Hnd Hof Hdates Hlen;
    cbn [fold_left].
  - rewrite app_nil_r. repeat split; try tauto; try apply Hdates; auto.
  - assert (Hstep : (seen ++ meeting :: meetings' = (seen ++ [meeting]) ++ meetings')%list)
      by now rewrite <- app_assoc.
    destruct (IH (seen ++ [meeting])%list
                 (addMeeting (dateKey w meeting) meeting groups)) as (R1 & R2 & R3 & R4 & R5).
    + now apply NoDup_addMeeting.
    + intros d. rewrite groupOf_addMeeting, List.filter_app, Hof. reflexivity.
    + intros d. rewrite dates_addMeeting, Hdates. split.
      * intros [->|(x & Hx & Hk)].
        -- exists meeting. split; [|reflexivity]. apply elem_of_app. right.
           apply list_elem_of_singleton. reflexivity.
        -- exists x. split; [|exact Hk]. apply elem_of_app. now left.
      * intros (x & Hx & Hk). apply elem_of_app in Hx. destruct Hx as [Hx|Hx].
        -- right. exists x. auto.
        -- apply list_elem_of_singleton in Hx. subst x. now left.
    + pose proof (length_addMeeting (dateKey w meeting) meeting groups).
      rewrite length_app. cbn [length]. lia.
    + rewrite Hstep. repeat split; auto.
      * apply R3.
      * apply R3.
      * intros _. destruct meetings' as [|m' ms'].
        -- cbn [fold_left]. apply length_addMeeting.
        -- apply R5. discriminate.
Qed.

Lemma groupByDate_facts (w : World) (meetings : list CalendarEvent) :
  NoDup (groupByDate w meetings).*1
  /\ (forall d, groupOf d (groupByDate w meetings)
                = List.filter (fun x => String.eqb (dateKey w x) d) meetings)
  /\ (forall d, d ∈ (groupByDate w meetings).*1
                <-> exists x, x ∈ meetings /\ dateKey w x = d)
  /\ (length (groupByDate w meetings) <= length meetings)%nat
  /\ (meetings <> [] -> (1 <= length (groupByDate w meetings))%nat).
Proof.
  apply (groupByDate_invariant w meetings [] []).
  - apply NoDup_nil_2.
  - reflexivity.
  - intros d. cbn. split.
    + intros H. apply elem_of_nil in H. destruct H.
    + intros (x & Hx & _). apply elem_of_nil in Hx. destruct Hx.
  - reflexivity.
Qed.

(** The grouping is a partition of the meetings by the text of their
    date: no date has two groups, the group of a date holds exactly the
    meetings of that date, in the order of the calendar's answer, and is
    never empty; so every meeting is listed once, under its own date. *)
Theorem groupByDate_partition (w : World) (meetings : list CalendarEvent) :
  let meetingsByDate := groupByDate w meetings in
  NoDup meetingsByDate.*1
  /\ (forall date dayMeetings,
        (date, dayMeetings) ∈ meetingsByDate ->
        dayMeetings <> []
        /\ dayMeetings
           = List.filter (fun meeting => String.eqb (dateKey w meeting) date) meetings)
  /\ (forall meeting,
        meeting ∈ meetings ->
        exists dayMeetings,
          (dateKey w meeting, dayMeetings) ∈ meetingsByDate /\ meeting ∈ dayMeetings).
Proof.
  destruct (groupByDate_facts w meetings) as (Hnd & Hof & Hdates & _ & _).
  cbn zeta. split; [exact Hnd|]. split.
  - intros date dayMeetings Hin.
    assert (Heq : dayMeetings
                  = List.filter (fun meeting => String.eqb (dateKey w meeting) date) meetings).
    { rewrite <- Hof. symmetry. now apply groupOf_elem. }
    split; [|exact Heq].
    assert (Hdate : date ∈ (groupByDate w meetings).*1).
    { apply list_elem_of_fmap. exists (date, dayMeetings). auto. }
    apply Hdates in Hdate. destruct Hdate as (x & Hx & Hk).
    assert (Hxin : In x dayMeetings).
    { rewrite Heq. apply List.filter_In. split; [now apply list_elem_of_In|].
      now apply String.eqb_eq. }
    intros ->. destruct Hxin.
  - intros meeting Hin. exists (groupOf (dateKey w meeting) (groupByDate w meetings)).
    split.
    + apply elem_groupOf. apply Hdates. exists meeting. auto.
    + rewrite Hof. apply list_elem_of_In, List.filter_In.
      split; [now apply list_elem_of_In | apply String.eqb_refl].
Qed.

(** ** Listing meetings: the replies *)



(** ** The list route *)

Lemma last_char_app (a b : string) (x : option ascii) :
  last_char (a +:+ b) x = last_char b (last_char a x).
Proof. revert x. induction a as [|c a' IH]; intros x; [reflexivity | apply IH]. Qed.

(** Where a successful match hands over to its continuation: the text it
    has read, and the character before the new position. *)
Lemma m_inv_before (ci : bool) (r : regex) :
  forall k s e, m ci r k s = Some e ->
  exists s' consumed,
    k s' = Some e /\ rest s = consumed +:+ rest s'
    /\ before s' = last_char consumed (before s).
Proof.
  induction r as [|c|neg ranges|r1 IH1 r2 IH2|r1 IH1 r2 IH2|r' IH|n r' IH| | |];
    intros k s e H; try rewrite m_star in H; cbn [m] in *.
  - exists s, EmptyString. auto.
  - destruct (rest s) as [|x t] eqn:Hrest; [discriminate|].
    destruct (char_eq ci c x) eqn:Hc; [|discriminate].
    exists (advance x t s), (String x EmptyString). cbn. auto.
  - destruct (rest s) as [|x t] eqn:Hrest; [discriminate|].
    destruct (class_has ci neg ranges x) eqn:Hc; [|discriminate].
    exists (advance x t s), (String x EmptyString). cbn. auto.
  - destruct (IH1 _ _ _ H) as (s1 & c1 & Hk1 & Hr1 & Hb1).
    destruct (IH2 _ _ _ Hk1) as (s2 & c2 & Hk2 & Hr2 & Hb2).
    exists s2, (c1 +:+ c2). split; [exact Hk2|]. split.
    + rewrite Hr1, Hr2. now rewrite app_assoc_string.
    + rewrite last_char_app, <- Hb1. exact Hb2.
  - destruct (m ci r1 k s) as [e1|] eqn:Hm1.
    + simplify_eq. apply (IH1 _ _ _ Hm1).
    + apply (IH2 _ _ _ H).
  - revert H. generalize (S (String.length (rest s))). intros fuel. revert s.
    induction fuel as [|fuel' IHf]; intros s H; cbn [star_loop] in H.
    + exists s, EmptyString. split; [exact H|]. split; reflexivity.
    + fold (star_loop ci r' k) in H.
      match type of H with
      | match ?scrut with _ => _ end = _ => destruct scrut as [e1|] eqn:Hm1
      end.
      * simplify_eq.
        destruct (IH _ _ _ Hm1) as (s1 & c1 & Hk1 & Hr1 & Hb1).
        destruct (Nat.ltb (pos s) (pos s1)); [|discriminate].
        destruct (IHf _ Hk1) as (s2 & c2 & Hk2 & Hr2 & Hb2).
        exists s2, (c1 +:+ c2). split; [exact Hk2|]. split.
        -- rewrite Hr1, Hr2. now rewrite app_assoc_string.
        -- rewrite last_char_app, <- Hb1. exact Hb2.
      * exists s, EmptyString. auto.
  - destruct (IH _ _ _ H) as (s1 & c1 & Hk1 & Hr1 & Hb1).
    eexists _, c1. split; [exact Hk1|]. split; [exact Hr1 | exact Hb1].
  - destruct (before s) eqn:Hbefore; [discriminate|]. exists s, EmptyString.
    rewrite Hbefore. auto.
  - destruct (rest s) eqn:Hrest; [|discriminate]. exists s, EmptyString.
    rewrite Hrest. auto.
  - destruct (xorb (word_before s) (word_after s)); [|discriminate].
    exists s, EmptyString. auto.
Qed.

(** A successful search matches at some position of the text. *)
Lemma search_inv (ci : bool) (r : regex) (t : string) :
  forall b p, is_some (search ci r b p t) = true ->
  exists read t' s,
    t = read +:+ t' /\ rest s = t' /\ before s = last_char read b
    /\ is_some (m ci r Some s) = true.
Proof.
  induction t as [|c t1 IH]; intros b p H; cbn [search] in H; unfold match_at in H.
  - destruct (m ci r Some (MState b EmptyString p [])) as [e|] eqn:Hm; [|discriminate].
    exists EmptyString, EmptyString, (MState b EmptyString p []). rewrite Hm. auto.
  - destruct (m ci r Some (MState b (String c t1) p [])) as [e|] eqn:Hm.
    + exists EmptyString, (String c t1), (MState b (String c t1) p []). rewrite Hm. auto.
    + destruct (IH _ _ H) as (read & t' & s & -> & Hrest & Hbefore & Hs).
      exists (String c read), t', s. auto.
Qed.

(** A search succeeds when the pattern matches at some position. *)
Lemma search_at (ci : bool) (r : regex) (read t' : string) :
  forall b p,
    (forall s, rest s = t' -> before s = last_char read b ->
               is_some (m ci r Some s) = true) ->
    is_some (search ci r b p (read +:+ t')) = true.
Proof.
  induction read as [|c read' IH]; intros b p Hat.
  - change (EmptyString +:+ t') with t'.
    pose proof (Hat (MState b t' p []) eq_refl eq_refl) as Hs.
    destruct t'; cbn [search]; unfold match_at;
      destruct (m ci r Some (MState b _ p [])); try reflexivity; discriminate.
  - change (String c read' +:+ t') with (String c (read' +:+ t')).
    cbn [search]. unfold match_at.
    destruct (m ci r Some (MState b (String c (read' +:+ t')) p [])); [reflexivity|].
    apply IH. exact Hat.
Qed.

Lemma strip_exact (word : string) (s s' : mstate) :
  strip false word s = Some s' -> rest s = word +:+ rest s'.
Proof.
  revert s. induction word as [|c word' IH]; intros s H; cbn [strip] in H.
  - now simplify_eq.
  - destruct (rest s) as [|x t] eqn:Hrest; [discriminate|].
    unfold char_eq in H. destruct (Ascii.eqb c x) eqn:Hc; [|discriminate].
    apply Ascii.eqb_eq in Hc. subst x. apply IH in H. cbn [rest advance] in H.
    now rewrite H.
Qed.

(** Reading a word depends on the text and on the character before only. *)
Lemma strip_same_text (ci : bool) (word : string) (s s0 s' : mstate) :
  rest s0 = rest s -> before s0 = before s -> strip ci word s = Some s' ->
  exists s0', strip ci word s0 = Some s0' /\ rest s0' = rest s' /\ before s0' = before s'.
Proof.
  revert s s0. induction word as [|c word' IH]; intros s s0 Hrest Hbefore H;
    cbn [strip] in *.
  - simplify_eq. exists s0. auto.
  - rewrite Hrest. destruct (rest s) as [|x t]; [discriminate|].
    destruct (char_eq ci c x); [|discriminate].
    apply (IH (advance x t s)); auto.
Qed.

Lemma word_at_same_text (ci : bool) (words : list string) (s s0 : mstate) :
  rest s0 = rest s -> before s0 = before s -> word_at ci words s -> word_at ci words s0.
Proof.
  intros Hrest Hbefore (Hb & word & s' & Hin & Hs & Hb').
  destruct (strip_same_text ci word s s0 s' Hrest Hbefore Hs) as (s0' & Hs0 & Hr0 & Hb0).
  unfold word_at, at_boundary, word_before, word_after in *.
  rewrite Hrest, Hbefore. split; [exact Hb|].
  exists word, s0'. rewrite Hr0, Hb0. auto.
Qed.

(** A message with the word [schedule] in its lower-cased text is a meeting
    request. *)
Lemma schedule_word_isMeetingRequest (userMessage : string) :
  test false (seq [WordB; Group 1 (lit "schedule"); WordB]) (JS.toLowerCase userMessage)
  = true ->
  isMeetingRequest userMessage = true.
Proof.
  intros H.
  assert (Hkw : test true
                  (seq [WordB;
                        Group 1 (alt [lit "schedule"; seq [lit "set"; Star space; lit "up"];
                                      lit "book"; lit "arrange"; lit "plan"]); WordB])
                  userMessage = true).
  { apply (test_lower (seq [WordB; Group 1 (lit "schedule"); WordB])); [|exact H].
    intros s Hs.
    destruct (m false (seq [WordB; Group 1 (lit "schedule"); WordB]) Some (lower_state s))
      as [e|] eqn:Hm; [|discriminate].
    assert (Hw : word_at true ["schedule"] s).
    { apply word_at_lower.
      apply (bounded_word_sound false 1 ["schedule"] Empty Some _ e); [discriminate|].
      exact Hm. }
    destruct Hw as (Hb & word & s' & [<-|[]] & Hs' & Hb').
    cbn [seq m]. fold (at_boundary s). rewrite Hb.
    apply (m_alt_is_some _ _ _ _ (lit "schedule")); [now left|].
    rewrite m_lit, Hs'.
    match goal with |- context [xorb (word_before ?x) (word_after ?x)] =>
      change (xorb (word_before x) (word_after x)) with (at_boundary s') end.
    rewrite Hb'. reflexivity. }
  unfold isMeetingRequest, meetingKeywords. cbn [existsb]. rewrite Hkw. reflexivity.
Qed.

(** A message whose lower-cased text matches the list pattern of the router
    is a meeting request, by its word [schedule], or names [meetings] or
    [calendar]. *)
Lemma listPhrase_words (userMessage : string) :
  test false listPhrase (JS.toLowerCase userMessage) = true ->
  isMeetingRequest userMessage = true
  \/ JS.includes (JS.toLowerCase userMessage) "meetings" = true
  \/ JS.includes (JS.toLowerCase userMessage) "calendar" = true.
Proof.
  intros H. unfold test, exec in H.
  destruct (search false listPhrase None 0 (JS.toLowerCase userMessage)) as [found|] eqn:Hsearch;
    [clear H | discriminate].
  destruct (search_inv false listPhrase (JS.toLowerCase userMessage) None O)
    as (read & t' & s & Htext & Hrest & Hbefore & Hs); [now rewrite Hsearch|].
  destruct (m false listPhrase Some s) as [e|] eqn:Hm; [clear Hs | discriminate].
  change (m false listPhrase Some s)
    with (m false
            (seq [WordB; Group 1 (alt [lit "check"; lit "list"; lit "show"; lit "view";
                                       lit "get"]); WordB; Star dot])
            (m false (seq [WordB; Group 2 (alt [lit "meetings"; lit "schedule";
                                                lit "calendar"]); WordB]) Some) s) in Hm.
  apply m_inv_before in Hm. destruct Hm as (s1 & consumed & Hk & Hr1 & Hb1).
  assert (Hw : word_at false ["meetings"; "schedule"; "calendar"] s1).
  { apply (bounded_word_sound false 2 _ Empty Some _ e); [discriminate|]. exact Hk. }
  assert (Hsplit : JS.toLowerCase userMessage = (read +:+ consumed) +:+ rest s1).
  { rewrite Htext, <- Hrest, Hr1. now rewrite app_assoc_string. }
  destruct Hw as (Hb & word & s2 & Hin & Hs2 & Hb2).
  cbn [In] in Hin. destruct Hin as [<-|[<-|[<-|[]]]].
  - right. left. apply includes_app. exists (read +:+ consumed), (rest s2).
    rewrite Hsplit. now rewrite (strip_exact _ _ _ Hs2).
  - left. apply schedule_word_isMeetingRequest. unfold test, exec.
    assert (Hfound : is_some (search false (seq [WordB; Group 1 (lit "schedule"); WordB])
                                None 0 (JS.toLowerCase userMessage)) = true).
    { rewrite Hsplit. apply search_at. intros s0 Hrest0 Hbefore0.
      apply (bounded_word_complete false 1 ["schedule"]).
      apply (word_at_same_text false _ s1); [exact Hrest0| |].
      - rewrite Hbefore0, Hb1, last_char_app, Hbefore. reflexivity.
      - split; [exact Hb|]. exists "schedule", s2. split; [now left|]. auto. }
    exact Hfound.
  - right. right. apply includes_app. exists (read +:+ consumed), (rest s2).
    rewrite Hsplit. now rewrite (strip_exact _ _ _ Hs2).
Qed.

(** The list route is taken only for a message that names [meetings] or
    [calendar]: the alternative [schedule] of the list pattern never
    decides, since a message with the word [schedule] is a meeting request
    and starts a scheduling dialogue instead. *)
Theorem list_route_words (w : World) (store : gmap Z MeetingState) (ctx : Context) :
  invoked (handleMessage w store ctx) = Some ListMeetingsRequest ->
  exists text,
    message_text ctx = Some text
    /\ isMeetingRequest (JS.trim text) = false
    /\ (JS.includes (JS.toLowerCase (JS.trim text)) "meetings"
        || JS.includes (JS.toLowerCase (JS.trim text)) "calendar") = true.
Proof.
  unfold handleMessage, served.
  destruct (message_text ctx) as [text|]; [|discriminate].
  destruct (from_id ctx) as [userId|]; [|discriminate].
  destruct (userId =? 0); [discriminate|].
  destruct (isMeetingRequest (JS.trim text)) eqn:Hmeeting; cbn [orb]; [discriminate|].
  destruct (is_some (store !! userId)); [discriminate|].
  destruct (test false cancelPhrase (JS.toLowerCase (JS.trim text))); [discriminate|].
  destruct (test false listPhrase (JS.toLowerCase (JS.trim text))) eqn:Hlist.
  - intros _. exists text. split; [reflexivity|]. split; [exact Hmeeting|].
    apply listPhrase_words in Hlist. rewrite orb_true_iff.
    destruct Hlist as [Hm|Hlist]; [congruence | exact Hlist].
  - destruct (test false updateVerb (JS.toLowerCase (JS.trim text))); discriminate.
Qed.

Lemma list_route_words_witness :
  let ctx := {| message_text := Some "Show my calendar"; from_id := Some 7 |} in
  invoked (handleMessage (world_at 0) ∅ ctx) = Some ListMeetingsRequest
  /\ exists text, message_text ctx = Some text
                  /\ isMeetingRequest (JS.trim text) = false
                  /\ (JS.includes (JS.toLowerCase (JS.trim text)) "meetings"
                      || JS.includes (JS.toLowerCase (JS.trim text)) "calendar") = true.
Proof.
  intros ctx.
  assert (H : invoked (handleMessage (world_at 0) ∅ ctx) = Some ListMeetingsRequest)
    by (vm_compute; reflexivity).
  split; [exact H|]. exact (list_route_words (world_at 0) ∅ ctx H).
Defined.

(** ** What a match reads *)

Lemma length_append (a b : string) :
  String.length (a +:+ b) = (String.length a + String.length b)%nat.
Proof. induction a as [|c a' IH]; simpl; [reflexivity | now f_equal]. Qed.

(** A successful match reads a piece of the text and hands the rest to its
    continuation: the characters read are accepted by the atoms of the
    pattern, the position moves by their number, and a pattern without
    groups leaves the captures as they are. *)
Lemma m_reads (ci : bool) (Q : ascii -> bool) (r : regex) :
  atoms_in ci Q r ->
  forall k s e, m ci r k s = Some e ->
  exists s' consumed,
    k s' = Some e /\ rest s = consumed +:+ rest s'
    /\ before s' = last_char consumed (before s)
    /\ pos s' = (pos s + String.length consumed)%nat
    /\ all_chars Q consumed = true
    /\ (group_free r = true -> caps s' = caps s).
Proof.
  induction r as [|c|neg ranges|r1 IH1 r2 IH2|r1 IH1 r2 IH2|r' IH|n r' IH| | |];
    intros Hatoms k s e H; try rewrite m_star in H; cbn [m atoms_in group_free] in *.
  - exists s, EmptyString. cbn. rewrite Nat.add_0_r. auto 10.
  - destruct (rest s) as [|x t] eqn:Hrest; [discriminate|].
    destruct (char_eq ci c x) eqn:Hc; [|discriminate].
    exists (advance x t s), (String x EmptyString). cbn. rewrite (Hatoms x Hc).
    repeat split; auto; lia.
  - destruct (rest s) as [|x t] eqn:Hrest; [discriminate|].
    destruct (class_has ci neg ranges x) eqn:Hc; [|discriminate].
    exists (advance x t s), (String x EmptyString). cbn. rewrite (Hatoms x Hc).
    repeat split; auto; lia.
  - destruct Hatoms as [H1 H2].
    destruct (IH1 H1 _ _ _ H) as (s1 & c1 & Hk1 & Hr1 & Hb1 & Hp1 & Hq1 & Hc1).
    destruct (IH2 H2 _ _ _ Hk1) as (s2 & c2 & Hk2 & Hr2 & Hb2 & Hp2 & Hq2 & Hc2).
    exists s2, (c1 +:+ c2). split; [exact Hk2|]. split; [|split; [|split; [|split]]].
    + rewrite Hr1, Hr2. now rewrite app_assoc_string.
    + rewrite last_char_app, <- Hb1. exact Hb2.
    + rewrite Hp2, Hp1, length_append. lia.
    + rewrite all_chars_app, Hq1, Hq2. reflexivity.
    + intros Hg. apply andb_true_iff in Hg. destruct Hg as [Hg1 Hg2].
      rewrite (Hc2 Hg2). exact (Hc1 Hg1).
  - destruct Hatoms as [H1 H2].
    destruct (m ci r1 k s) as [e1|] eqn:Hm1.
    + simplify_eq.
      destruct (IH1 H1 _ _ _ Hm1) as (s1 & c1 & Hk1 & Hr1 & Hb1 & Hp1 & Hq1 & Hc1).
      exists s1, c1. repeat split; auto. intros Hg. apply andb_true_iff in Hg. tauto.
    + destruct (IH2 H2 _ _ _ H) as (s1 & c1 & Hk1 & Hr1 & Hb1 & Hp1 & Hq1 & Hc1).
      exists s1, c1. repeat split; auto. intros Hg. apply andb_true_iff in Hg. tauto.
  - revert H. generalize (S (String.length (rest s))). intros fuel. revert s.
    induction fuel as [|fuel' IHf]; intros s H; cbn [star_loop] in H.
    + exists s, EmptyString. cbn. rewrite Nat.add_0_r. auto 10.
    + fold (star_loop ci r' k) in H.
      match type of H with
      | match ?scrut with _ => _ end = _ => destruct scrut as [e1|] eqn:Hm1
      end.
      * simplify_eq.
        destruct (IH Hatoms _ _ _ Hm1) as (s1 & c1 & Hk1 & Hr1 & Hb1 & Hp1 & Hq1 & Hc1).
        destruct (Nat.ltb (pos s) (pos s1)); [|discriminate].
        destruct (IHf _ Hk1) as (s2 & c2 & Hk2 & Hr2 & Hb2 & Hp2 & Hq2 & Hc2).
        exists s2, (c1 +:+ c2). split; [exact Hk2|]. split; [|split; [|split; [|split]]].
        -- rewrite Hr1, Hr2. now rewrite app_assoc_string.
        -- rewrite last_char_app, <- Hb1. exact Hb2.
        -- rewrite Hp2, Hp1, length_append. lia.
        -- rewrite all_chars_app, Hq1, Hq2. reflexivity.
        -- intros Hg. rewrite (Hc2 Hg). exact (Hc1 Hg).
      * exists s, EmptyString. cbn. rewrite Nat.add_0_r. auto 10.
  - destruct (IH Hatoms _ _ _ H) as (s1 & c1 & Hk1 & Hr1 & Hb1 & Hp1 & Hq1 & Hc1).
    eexists _, c1. split; [exact Hk1|]. cbn [set_cap rest before pos].
    repeat split; auto. discriminate.
  - destruct (before s) eqn:Hbefore; [discriminate|]. exists s, EmptyString.
    cbn. rewrite Hbefore, Nat.add_0_r. auto 10.
  - destruct (rest s) eqn:Hrest; [|discriminate]. exists s, EmptyString.
    cbn. rewrite Hrest, Nat.add_0_r. auto 10.
  - destruct (xorb (word_before s) (word_after s)); [|discriminate].
    exists s, EmptyString. cbn. rewrite Nat.add_0_r. auto 10.
Qed.

Lemma substring_read (a b : string) :
  substring 0 (String.length a) (a +:+ b) = a.
Proof.
  induction a as [|c a' IH]; simpl.
  - destruct b; reflexivity.
  - now f_equal.
Qed.

(** The text of a match is the text read. *)
Lemma matched_read (s e : mstate) (consumed : string) :
  rest s = consumed +:+ rest e ->
  pos e = (pos s + String.length consumed)%nat ->
  substring 0 (pos e - pos s) (rest s) = consumed.
Proof.
  intros Hrest Hpos. rewrite Hrest, Hpos.
  replace (pos s + String.length consumed - pos s)%nat with (String.length consumed) by lia.
  apply substring_read.
Qed.
(** ** The duration read from the first message *)

Lemma toLowerCase_app (a b : string) :
  JS.toLowerCase (a +:+ b) = JS.toLowerCase a +:+ JS.toLowerCase b.
Proof.
  induction a as [|c a' IH]; [reflexivity|].
  change (String c a' +:+ b) with (String c (a' +:+ b)).
  cbn [JS.toLowerCase]. rewrite IH. reflexivity.
Qed.

Lemma lower_upper_char (c : ascii) : JS.lower_char (JS.upper_char c) = JS.lower_char c.
Proof. by_cases_on_char c. Qed.

Lemma char_eq_lower (c x : ascii) :
  char_eq true c x = true -> JS.lower_char x = JS.lower_char c.
Proof.
  unfold char_eq. intros H. apply Ascii.eqb_eq in H.
  rewrite <- (lower_upper_char x), <- H. apply lower_upper_char.
Qed.

(** A successful search gives the match at some state. *)
Lemma search_match_at (ci : bool) (r : regex) (t : string) :
  forall b p res, search ci r b p t = Some res -> exists s, match_at ci r s = Some res.
Proof.
  induction t as [|c t1 IH]; intros b p res H; cbn [search] in H.
  - destruct (match_at ci r (MState b EmptyString p [])) as [res0|] eqn:Hm; [|discriminate].
    simplify_eq. eauto.
  - destruct (match_at ci r (MState b (String c t1) p [])) as [res0|] eqn:Hm.
    + simplify_eq. eauto.
    + eapply IH. exact H.
Qed.

(** Reading a word, letter case apart: the text read is the word up to
    letter case. *)
Lemma strip_reads (word : string) (s s' : mstate) :
  strip true word s = Some s' ->
  exists read,
    rest s = read +:+ rest s'
    /\ pos s' = (pos s + String.length read)%nat
    /\ caps s' = caps s
    /\ JS.toLowerCase read = JS.toLowerCase word.
Proof.
  revert s. induction word as [|c word' IH]; intros s H; cbn [strip] in H.
  - simplify_eq. exists EmptyString. cbn. rewrite Nat.add_0_r. auto.
  - destruct (rest s) as [|x t] eqn:Hrest; [discriminate|].
    destruct (char_eq true c x) eqn:Hc; [|discriminate].
    destruct (IH _ H) as (read & Hr & Hp & Hcaps & Hl). cbn [advance rest pos caps] in *.
    exists (String x read). simpl. rewrite Hr, Hp, Hl, (char_eq_lower c x Hc).
    repeat split; auto; lia.
Qed.

Lemma strip_app (ci : bool) (a b : string) (s : mstate) :
  strip ci (a +:+ b) s
  = match strip ci a s with Some s' => strip ci b s' | None => None end.
Proof.
  revert s. induction a as [|c a' IH]; intros s; [reflexivity|].
  simpl. destruct (rest s) as [|x t]; [reflexivity|].
  destruct (char_eq ci c x); [apply IH | reflexivity].
Qed.

Lemma m_alt2 (ci : bool) (r1 r2 : regex) (k : mstate -> option mstate) (s : mstate) :
  m ci (Alt r1 r2) k s
  = match m ci r1 k s with Some e => Some e | None => m ci r2 k s end.
Proof. reflexivity. Qed.

(** A word with an optional plural [s]. *)
Lemma word_with_s_reads (word : string) (s e : mstate) :
  m true (Seq (lit word) (Opt (Char "s"))) Some s = Some e ->
  exists read,
    rest s = read +:+ rest e
    /\ pos e = (pos s + String.length read)%nat
    /\ caps e = caps s
    /\ (JS.toLowerCase read = JS.toLowerCase word
        \/ JS.toLowerCase read = JS.toLowerCase word +:+ "s").
Proof.
  intros H. cbn [m] in H. rewrite m_lit in H.
  destruct (strip true word s) as [s1|] eqn:Hs; [|discriminate].
  destruct (strip_reads _ _ _ Hs) as (read & Hr & Hp & Hcaps & Hl).
  cbn [m Opt] in H.
  destruct (rest s1) as [|x t] eqn:Hrest1.
  - simplify_eq. exists read. rewrite Hrest1. auto.
  - destruct (char_eq true "s" x) eqn:Hx.
    + simplify_eq. exists (read +:+ String x EmptyString). cbn [advance rest pos caps].
      rewrite app_assoc_string, length_append, toLowerCase_app, Hl. simpl.
      rewrite (char_eq_lower _ _ Hx). repeat split; auto; lia.
    + simplify_eq. exists read. rewrite Hrest1. auto.
Qed.

Lemma space_class_sound (ci : bool) (x : ascii) :
  class_has ci false [("009", "013"); (" ", " ")]%char x = true -> JS.is_space x = true.
Proof. destruct ci; char_cases x. Qed.

(** The word [hour] does not start in a piece of text without an [h]. *)
Lemma includes_hour_skip (a b : string) :
  all_chars (fun x => negb (Ascii.eqb (JS.lower_char x) "h")) a = true ->
  JS.includes (JS.toLowerCase (a +:+ b)) "hour" = JS.includes (JS.toLowerCase b) "hour".
Proof.
  induction a as [|x a' IH]; intros H; [reflexivity|].
  simpl in H. apply andb_true_iff in H. destruct H as [Hx Ha].
  change (String x a' +:+ b) with (String x (a' +:+ b)).
  cbn [JS.toLowerCase JS.includes String.prefix].
  destruct (ascii_dec "h" (JS.lower_char x)) as [Heq|Hne].
  - rewrite <- Heq in Hx. discriminate.
  - cbn [orb]. now apply IH.
Qed.

Lemma all_chars_impl (P Q : ascii -> bool) (t : string) :
  (forall x, P x = true -> Q x = true) -> all_chars P t = true -> all_chars Q t = true.
Proof.
  intros HPQ. induction t as [|x t' IH]; [reflexivity|]. simpl.
  rewrite !andb_true_iff. intros [Hx Ht]. split; [now apply HPQ | now apply IH].
Qed.

(** Integers below [two53] are doubles, and no integer from [two53] on is
    rounded below it. *)
Lemma toNumber_small (n : Z) : Z.abs n < JS.two53 -> JS.toNumber n = n.
Proof.
  intros H. unfold JS.toNumber. destruct (Z.leb_spec JS.two53 (Z.abs n)); [lia | reflexivity].
Qed.

Lemma round53_large (n : Z) : JS.two53 <= n -> JS.two53 <= JS.round53 n.
Proof.
  intros H. unfold JS.round53, JS.two53 in *.
  assert (Hlog : 53 <= Z.log2 n) by (apply (Z.log2_le_mono (2 ^ 53) n); exact H).
  assert (Hn : 0 < n) by lia.
  destruct (Z.log2_spec n Hn) as [Hlow _].
  set (e := Z.log2 n - 52) in *.
  assert (Hpow : 2 ^ Z.log2 n = 2 ^ 52 * 2 ^ e).
  { unfold e. rewrite <- Z.pow_add_r by lia. f_equal. lia. }
  assert (He : 2 <= 2 ^ e).
  { change 2 with (2 ^ 1) at 1. apply Z.pow_le_mono_r; unfold e; lia. }
  assert (Hq : 2 ^ 52 <= n / 2 ^ e).
  { apply Z.div_le_lower_bound; [lia|]. rewrite Z.mul_comm, <- Hpow. exact Hlow. }
  set (q := n / 2 ^ e) in *.
  assert (Hq' : 2 ^ 52 <= (if (2 ^ (e - 1) <? n mod 2 ^ e)
                               || ((n mod 2 ^ e =? 2 ^ (e - 1)) && Z.odd q)
                            then q + 1 else q)).
  { destruct ((2 ^ (e - 1) <? n mod 2 ^ e) || ((n mod 2 ^ e =? 2 ^ (e - 1)) && Z.odd q));
      lia. }
  change 9007199254740992 with (2 ^ 52 * 2). apply Z.mul_le_mono_nonneg; lia.
Qed.

Lemma toNumber_large (n : Z) : JS.two53 <= n -> JS.two53 <= JS.toNumber n.
Proof.
  intros H. unfold JS.toNumber.
  destruct (Z.leb_spec JS.two53 (Z.abs n)); [|exact H].
  rewrite Z.abs_eq, Z.sgn_pos by (unfold JS.two53 in *; lia).
  pose proof (round53_large n H) as Hr.
  assert (Hinf : JS.two53 <= JS.infinity) by (vm_compute; discriminate).
  lia.
Qed.

Lemma times_finite (x y : Z) :
  y <> 0 -> JS.isFinite y = true ->
  JS.times (Some x) (Some y) = Some (JS.toNumber (x * y)).
Proof.
  intros Hy Hfin. unfold JS.times. rewrite Hfin.
  destruct (Z.eqb_spec y 0) as [->|_]; [now destruct Hy|].
  now rewrite andb_false_r.
Qed.

(** What the duration pattern reads: a number, white space and a unit.
    The pattern knows the units min, minute(s), hr(s) and hour(s), but the
    number is taken as hours only when the text of the match contains
    [hour]: a duration in [hr] or [hrs] is taken as that many minutes.
    A unit [minute] or [minutes] is read as [min].  The number read and its
    product with 60 are doubles: they are exact below [two53] and rounded
    from there on, so 9007199254740993 minutes are taken as
    9007199254740992 and 9007199254740991 hours as 540431955284459456
    minutes. *)
Theorem analyzeMeetingRequest_duration (message : string) (durationMatch : mresult) :
  exec true durationPattern message = Some durationMatch ->
  (exists number spaces unit,
    matched durationMatch = number +:+ spaces +:+ unit
    /\ group 1 durationMatch = Some number
    /\ all_chars JS.is_digit number = true
    /\ all_chars JS.is_space spaces = true
    /\ In (JS.toLowerCase unit) ["min"; "hr"; "hrs"; "hour"; "hours"]
    /\ x_duration (extractedInfo (analyzeMeetingRequest message))
       = (if String.eqb (JS.toLowerCase unit) "hour"
             || String.eqb (JS.toLowerCase unit) "hours"
          then JS.times (JS.toNumber <$> JS.parseInt number) (Some 60)
          else JS.toNumber <$> JS.parseInt number)
    /\ (forall n,
          JS.parseInt number = Some n -> Z.abs (n * 60) < JS.two53 ->
          x_duration (extractedInfo (analyzeMeetingRequest message))
          = Some (if String.eqb (JS.toLowerCase unit) "hour"
                     || String.eqb (JS.toLowerCase unit) "hours"
                  then n * 60 else n)))
  /\ x_duration (extractedInfo (analyzeMeetingRequest "9007199254740993 minutes"))
     = Some 9007199254740992
  /\ x_duration (extractedInfo (analyzeMeetingRequest "9007199254740991 hours"))
     = Some 540431955284459456
  /\ 9007199254740991 * 60 = 540431955284459460.
Proof.
  intros Hexec.
  assert (Hshape : exists number spaces unit,
             matched durationMatch = number +:+ spaces +:+ unit
             /\ group 1 durationMatch = Some number
             /\ all_chars JS.is_digit number = true
             /\ all_chars JS.is_space spaces = true
             /\ In (JS.toLowerCase unit) ["min"; "hr"; "hrs"; "hour"; "hours"]).
  { unfold exec in Hexec. apply search_match_at in Hexec. destruct Hexec as [s Hat].
    unfold match_at in Hat.
    destruct (m true durationPattern Some s) as [e|] eqn:Hm; [|discriminate].
    simplify_eq. cbn [matched]. unfold group. cbn [groups].
    set (units := alt [lit "min"; seq [lit "minute"; Opt (Char "s")];
                       seq [lit "hr"; Opt (Char "s")]; seq [lit "hour"; Opt (Char "s")]]).
    change (m true durationPattern Some s)
      with (m true (Plus digit)
              (fun s1 => m true (Star space) (m true units Some)
                           (set_cap 1 (substring 0 (pos s1 - pos s) (rest s)) s1)) s) in Hm.
    apply (m_reads true JS.is_digit) in Hm;
      [|cbn; split; intros x; apply digit_class_sound].
    destruct Hm as (s1 & number & Hk1 & Hr1 & _ & Hp1 & Hq1 & _).
    rewrite (matched_read s s1 number Hr1 Hp1) in Hk1.
    apply (m_reads true JS.is_space) in Hk1; [|cbn; intros x; apply space_class_sound].
    destruct Hk1 as (s2 & spaces & Hk2 & Hr2 & _ & Hp2 & Hq2 & Hc2).
    specialize (Hc2 eq_refl). cbn [set_cap rest pos caps] in Hr2, Hp2, Hc2.
    assert (Hunit : exists unit,
               rest s2 = unit +:+ rest e
               /\ pos e = (pos s2 + String.length unit)%nat
               /\ caps e = caps s2
               /\ In (JS.toLowerCase unit) ["min"; "hr"; "hrs"; "hour"; "hours"]).
    { unfold units in Hk2. cbn [alt seq] in Hk2. rewrite m_alt2, m_lit in Hk2.
      destruct (strip true "min" s2) as [s3|] eqn:Hmin.
      - simplify_eq. destruct (strip_reads _ _ _ Hmin) as (read & Hr & Hp & Hc & Hl).
        exists read. repeat split; auto. rewrite Hl. vm_compute. auto 10.
      - assert (Hminute : m true (Seq (lit "minute") (Opt (Char "s"))) Some s2 = None).
        { cbn [m]. rewrite m_lit.
          change "minute" with ("min" +:+ "ute"). rewrite strip_app, Hmin. reflexivity. }
        rewrite m_alt2, Hminute, m_alt2 in Hk2.
        destruct (m true (Seq (lit "hr") (Opt (Char "s"))) Some s2) as [e1|] eqn:Hhr.
        + simplify_eq. destruct (word_with_s_reads _ _ _ Hhr) as (read & Hr & Hp & Hc & Hl).
          exists read. repeat split; auto.
          destruct Hl as [Hl|Hl]; rewrite Hl; vm_compute; auto 10.
        + destruct (word_with_s_reads _ _ _ Hk2) as (read & Hr & Hp & Hc & Hl).
          exists read. repeat split; auto.
          destruct Hl as [Hl|Hl]; rewrite Hl; vm_compute; auto 10. }
    destruct Hunit as (unit & Hr3 & Hp3 & Hc3 & Hin).
    exists number, spaces, unit. split; [|split; [|split; [|split]]]; auto.
    - apply matched_read.
      + rewrite Hr1, Hr2, Hr3, !app_assoc_string. reflexivity.
      + rewrite Hp3, Hp2, Hp1, !length_append. lia.
    - rewrite Hc3, Hc2. cbn. reflexivity. }
  destruct Hshape as (number & spaces & unit & Hmatched & Hgroup & Hnum & Hsp & Hin).
  split; [|split; [vm_compute; reflexivity | split; [vm_compute; reflexivity | reflexivity]]].
  assert (Hduration :
            x_duration (extractedInfo (analyzeMeetingRequest message))
            = (if String.eqb (JS.toLowerCase unit) "hour"
                  || String.eqb (JS.toLowerCase unit) "hours"
               then JS.times (JS.toNumber <$> JS.parseInt number) (Some 60)
               else JS.toNumber <$> JS.parseInt number)).
  { unfold analyzeMeetingRequest. cbn [extractedInfo x_duration].
    rewrite Hexec, Hgroup, Hmatched. cbn [default].
    rewrite includes_hour_skip
      by (eapply all_chars_impl; [|exact Hnum]; intros x; char_cases x).
    rewrite includes_hour_skip
      by (eapply all_chars_impl; [|exact Hsp]; intros x; char_cases x).
    cbn [In] in Hin. destruct Hin as [<-|[<-|[<-|[<-|[<-|[]]]]]]; reflexivity. }
  exists number, spaces, unit. repeat split; auto.
  intros n Hn Hsmall. rewrite Hduration, Hn. cbn [fmap option_fmap option_map].
  assert (Hn60 : Z.abs n < JS.two53) by lia.
  rewrite (toNumber_small n Hn60).
  rewrite times_finite by (try lia; vm_compute; reflexivity).
  rewrite (toNumber_small (n * 60) Hsmall).
  destruct (String.eqb (JS.toLowerCase unit) "hour" || String.eqb (JS.toLowerCase unit) "hours");
    reflexivity.
Qed.

Lemma analyzeMeetingRequest_duration_witness :
  exec true durationPattern "schedule a call for 2 hrs" = Some twoHrsMatch
  /\ matched twoHrsMatch = "2 hrs"
  /\ x_duration (extractedInfo (analyzeMeetingRequest "schedule a call for 2 hrs")) = Some 2
  /\ exists number spaces unit,
       matched twoHrsMatch = number +:+ spaces +:+ unit
       /\ group 1 twoHrsMatch = Some number
       /\ all_chars JS.is_digit number = true
       /\ all_chars JS.is_space spaces = true
       /\ In (JS.toLowerCase unit) ["min"; "hr"; "hrs"; "hour"; "hours"]
       /\ x_duration (extractedInfo (analyzeMeetingRequest "schedule a call for 2 hrs"))
          = (if String.eqb (JS.toLowerCase unit) "hour"
                || String.eqb (JS.toLowerCase unit) "hours"
             then JS.times (JS.toNumber <$> JS.parseInt number) (Some 60)
             else JS.toNumber <$> JS.parseInt number)
       /\ (forall n,
             JS.parseInt number = Some n -> Z.abs (n * 60) < JS.two53 ->
             x_duration (extractedInfo (analyzeMeetingRequest "schedule a call for 2 hrs"))
             = Some (if String.eqb (JS.toLowerCase unit) "hour"
                        || String.eqb (JS.toLowerCase unit) "hours"
                     then n * 60 else n)).
Proof.
  assert (H : exec true durationPattern "schedule a call for 2 hrs" = Some twoHrsMatch)
    by (vm_compute; reflexivity).
  split; [exact H|]. split; [reflexivity|]. split; [vm_compute; reflexivity|].
  exact (proj1 (analyzeMeetingRequest_duration "schedule a call for 2 hrs" twoHrsMatch H)).
Defined.

(** ** The time read from the first message *)

(** The time pattern of the analysis matches at every digit. *)
Lemma timePattern_at_digit (s : mstate) (x : ascii) (t : string) :
  rest s = String x t -> JS.is_digit x = true ->
  is_some (m false timePattern Some s) = true.
Proof.
  intros Hrest Hx.
  set (tail := seq [Opt (seq [Char ":"; Group 2 (seq [digit; digit])]); Star space;
                    Opt (Group 3 (alt [lit "am"; lit "pm"; lit "AM"; lit "PM"]))]).
  change (is_some
            (m false (Class false [("0", "9")]%char)
               (m false (Opt digit)
                  (fun s1 => m false tail Some
                               (set_cap 1 (substring 0 (pos s1 - pos s) (rest s)) s1)))
               s) = true).
  rewrite m_class, Hrest, (digit_class_complete false x Hx).
  apply (nullable_succeeds false (Opt digit) eq_refl). intros s1.
  apply (nullable_succeeds false tail eq_refl Some). reflexivity.
Qed.

(** The text of a match of the time pattern starts with a digit. *)
Lemma timePattern_matched_digit (s : mstate) (timeMatch : mresult) :
  match_at false timePattern s = Some timeMatch -> has_digit (matched timeMatch) = true.
Proof.
  unfold match_at. intros H.
  destruct (m false timePattern Some s) as [e|] eqn:Hm; [|discriminate].
  simplify_eq. cbn [matched].
  set (tail := seq [Opt (seq [Char ":"; Group 2 (seq [digit; digit])]); Star space;
                    Opt (Group 3 (alt [lit "am"; lit "pm"; lit "AM"; lit "PM"]))]).
  change (m false timePattern Some s)
    with (m false (Class false [("0", "9")]%char)
            (m false (Opt digit)
               (fun s1 => m false tail Some
                            (set_cap 1 (substring 0 (pos s1 - pos s) (rest s)) s1)))
            s) in Hm.
  rewrite m_class in Hm. destruct (rest s) as [|x t] eqn:Hrest; [discriminate|].
  destruct (class_has false false [("0", "9")]%char x) eqn:Hx; [|discriminate].
  apply digit_class_sound in Hx.
  apply (m_reads false (fun _ => true)) in Hm; [|apply atoms_in_any].
  destruct Hm as (s1 & c1 & Hk1 & Hr1 & _ & Hp1 & _ & _).
  apply (m_reads false (fun _ => true)) in Hk1; [|apply atoms_in_any].
  destruct Hk1 as (s2 & c2 & Hk2 & Hr2 & _ & Hp2 & _ & _).
  simplify_eq. cbn [advance set_cap rest pos] in *.
  rewrite <- Hrest.
  rewrite (matched_read s e (String x (c1 +:+ c2))).
  - unfold has_digit. cbn [any_char]. now rewrite Hx.
  - rewrite Hrest, Hr1, Hr2.
    change (String x (c1 +:+ c2) +:+ rest e) with (String x ((c1 +:+ c2) +:+ rest e)).
    now rewrite app_assoc_string.
  - rewrite Hp2, Hp1. simpl. rewrite length_append. lia.
Qed.

Lemma first_included_In {A : Type} (text : string) (table : list (string * A))
  (expr : string) (v : A) :
  first_included text table = Some (expr, v) -> In (expr, v) table.
Proof.
  induction table as [|[e0 v0] table' IH]; cbn [first_included]; [discriminate|].
  destruct (JS.includes text e0).
  - intros [= <- <-]. now left.
  - intros H. right. now apply IH.
Qed.

(** Time extraction answers every text that holds a digit, and never with
    the empty text. *)
Lemma extractTime_of_digit (text : string) :
  has_digit text = true -> truthy_str (extractTime text) = true.
Proof.
  intros Hd. unfold extractTime.
  destruct (first_included (JS.toLowerCase text) TIME_EXPRESSIONS) as [[expr time]|] eqn:Hf.
  - apply first_included_In in Hf. unfold TIME_EXPRESSIONS in Hf. cbn [In] in Hf.
    repeat (destruct Hf as [Hf|Hf]; [injection Hf as <- <-; reflexivity|]). destruct Hf.
  - unfold timePatterns. cbn [first_match].
    destruct (exec true
                (seq [Group 1 digits12; Opt (seq [Char ":"; Group 2 (seq [digit; digit])]);
                      Star space;
                      Opt (Group 3 (alt [lit "am"; lit "pm"; lit "a.m."; lit "p.m."]))])
                text) as [res|] eqn:Hex.
    + unfold timeOfMatch.
      match goal with |- truthy_str (Some (?a +:+ _)) = true => destruct a end; reflexivity.
    + unfold exec in Hex.
      pose proof (search_some true _ JS.is_digit first_time_pattern_at_digit
                    text None 0%nat Hd) as Hs.
      rewrite Hex in Hs. discriminate.
Qed.

(** Without a digit the time pattern of the analysis finds nothing. *)
Lemma timePattern_without_digit (message : string) :
  has_digit message = false -> exec false timePattern message = None.
Proof.
  intros Hd. unfold exec. apply (search_none false timePattern JS.is_digit); [|exact Hd].
  left. apply digits12_reads_digit.
Qed.

(** The analysis of the first message finds a time exactly when the
    message holds a digit, whatever the digit stands for: the number of a
    duration or a digit of an address fills the time slot as well. *)
Theorem analyzeMeetingRequest_time (message : string) :
  hasTime (analyzeMeetingRequest message) = has_digit message
  /\ truthy_str (x_time (extractedInfo (analyzeMeetingRequest message)))
     = has_digit message.
Proof.
  unfold analyzeMeetingRequest. cbn [hasTime extractedInfo x_time].
  destruct (has_digit message) eqn:Hd.
  - destruct (exec false timePattern message) as [timeMatch|] eqn:Hex.
    + split; [reflexivity|]. unfold exec in Hex.
      apply search_match_at in Hex. destruct Hex as [s Hat].
      apply timePattern_matched_digit in Hat. apply extractTime_of_digit in Hat.
      unfold or_undefined. rewrite Hat. exact Hat.
    + unfold exec in Hex.
      pose proof (search_some false _ JS.is_digit timePattern_at_digit
                    message None 0%nat Hd) as Hs.
      rewrite Hex in Hs. discriminate.
  - rewrite (timePattern_without_digit message Hd). split; reflexivity.
Qed.

(** ** Named times and the cancel keywords *)

Lemma noon_hasCancelKeyword (userMessage : string) :
  JS.includes (JS.toLowerCase userMessage) "noon" = true ->
  hasCancelKeyword userMessage = true.
Proof.
  intros H. apply (includes_inner _ "" "no" "on") in H.
  unfold hasCancelKeyword, cancelKeywords. cbn [existsb]. rewrite H.
  now rewrite !orb_true_r.
Qed.

Lemma initialState_time (w : World) (userMessage : string) :
  truthy_str (x_time (extractedInfo (analyzeMeetingRequest userMessage))) = false ->
  time (details (initialState w userMessage)) = None
  /\ (step (initialState w userMessage) = StepDate
      \/ step (initialState w userMessage) = StepTime).
Proof.
  intros Hno. unfold initialState. rewrite Hno.
  repeat case_match; cbn in *; auto; try discriminate.
Qed.

(** The named times [noon] and [afternoon] can never be given without a
    digit.  In the first message the time is read from digits only, so the
    dialogue opens without a time; in a dialogue the word contains the
    cancel keyword [no], so the answer deletes the dialogue instead of
    setting the time. *)
Theorem noon_never_sets_time (w : World) (store : gmap Z MeetingState) (userId : Z)
  (userMessage : string) :
  JS.includes (JS.toLowerCase userMessage) "noon" = true ->
  has_digit userMessage = false ->
  let after := handleMeetingRequest w store userId userMessage in
  match store !! userId with
  | Some _ => states after = delete userId store /\ replies after = [ReplyCancelled]
  | None =>
      exists state,
        states after !! userId = Some state
        /\ time (details state) = None
        /\ (step state = StepDate \/ step state = StepTime)
  end.
Proof.
  intros Hnoon Hdigit. cbn zeta.
  destruct (store !! userId) as [state|] eqn:Hstate.
  - rewrite (handleMeetingRequest_cancel w store userId state userMessage Hstate
               (noon_hasCancelKeyword _ Hnoon)).
    split; reflexivity.
  - rewrite (handleMeetingRequest_new w store userId userMessage Hstate).
    cbn [states]. exists (initialState w userMessage).
    rewrite lookup_insert_eq. split; [reflexivity|].
    apply initialState_time. unfold analyzeMeetingRequest.
    cbn [extractedInfo x_time]. now rewrite (timePattern_without_digit userMessage Hdigit).
Qed.

Lemma noon_never_sets_time_witness :
  let userMessage := "Noon would be good" in
  JS.includes (JS.toLowerCase userMessage) "noon" = true
  /\ has_digit userMessage = false
  /\ states (handleMeetingRequest (world_at 0) askedForDate 7 userMessage) = ∅.
Proof.
  intros userMessage.
  assert (H1 : JS.includes (JS.toLowerCase userMessage) "noon" = true)
    by (vm_compute; reflexivity).
  assert (H2 : has_digit userMessage = false) by (vm_compute; reflexivity).
  split; [exact H1|]. split; [exact H2|].
  pose proof (noon_never_sets_time (world_at 0) askedForDate 7 userMessage H1 H2) as H.
  cbn zeta in H.
  change (askedForDate !! 7) with (Some (initialState (world_at 0)
            "schedule a meeting with a@b.com at 3pm")) in H.
  destruct H as [H _]. rewrite H. vm_compute. reflexivity.
Defined.

(** ** The attendees across the steps *)




(** ** The calendar service: the events returned *)

Lemma insertSorted_Permutation (service : CalendarService.Service) (event : CalendarEvent)
  (sorted : list CalendarEvent) :
  CalendarService.insertSorted service event sorted ≡ₚ event :: sorted.
Proof.
  induction sorted as [|next others IH]; cbn [CalendarService.insertSorted]; [reflexivity|].
  destruct (CalendarService.notAfter service event next); [reflexivity|].
  rewrite IH. apply Permutation_swap.
Qed.

Lemma sortByStart_Permutation (service : CalendarService.Service)
  (events : list CalendarEvent) :
  CalendarService.sortByStart service events ≡ₚ events.
Proof.
  induction events as [|event others IH]; cbn [CalendarService.sortByStart]; [reflexivity|].
  rewrite insertSorted_Permutation. now rewrite IH.
Qed.

Lemma insertSorted_sorted (service : CalendarService.Service) (event : CalendarEvent)
  (sorted : list CalendarEvent) :
  is_some (CalendarService.startTime service event) = true ->
  Forall (fun other => is_some (CalendarService.startTime service other) = true) sorted ->
  StronglySorted (startsInOrder service) sorted ->
  StronglySorted (startsInOrder service) (CalendarService.insertSorted service event sorted).
Proof.
  intros Hevent Hall Hsorted.
  induction sorted as [|next others IH]; cbn [CalendarService.insertSorted].
  - apply SSorted_cons; [apply SSorted_nil | apply Forall_nil_2].
  - apply Forall_cons in Hall. destruct Hall as [Hnext Hall].
    apply StronglySorted_inv in Hsorted. destruct Hsorted as [Hsorted Hfirst].
    unfold CalendarService.notAfter.
    destruct (CalendarService.startTime service event) as [eventTime|] eqn:He;
      [|discriminate].
    destruct (CalendarService.startTime service next) as [nextTime|] eqn:Hn;
      [|discriminate].
    destruct (eventTime <=? nextTime) eqn:Hle.
    + apply Z.leb_le in Hle.
      assert (Hen : startsInOrder service event next).
      { exists eventTime, nextTime. auto. }
      apply SSorted_cons; [apply SSorted_cons; assumption|].
      apply Forall_cons. split; [exact Hen|].
      eapply Forall_impl; [exact Hfirst|]. intros other (a & b & Ha & Hb & Hab).
      exists eventTime, b. rewrite Hn in Ha. simplify_eq. split; [exact He|].
      split; [exact Hb | lia].
    + apply Z.leb_gt in Hle. apply SSorted_cons; [now apply IH|].
      rewrite insertSorted_Permutation. apply Forall_cons. split; [|exact Hfirst].
      exists nextTime, eventTime. split; [exact Hn|]. split; [exact He | lia].
Qed.

Lemma sortByStart_sorted (service : CalendarService.Service) (events : list CalendarEvent) :
  Forall (fun event => is_some (CalendarService.startTime service event) = true) events ->
  StronglySorted (startsInOrder service) (CalendarService.sortByStart service events).
Proof.
  induction events as [|event others IH]; intros Hall; cbn [CalendarService.sortByStart].
  - apply SSorted_nil.
  - apply Forall_cons in Hall. destruct Hall as [Hevent Hall].
    apply insertSorted_sorted; [exact Hevent| |now apply IH].
    rewrite sortByStart_Permutation. exact Hall.
Qed.

(** An event that passes the filter starts within the window, also after
    its conversion. *)
Lemma inWindow_startsWithin (service : CalendarService.Service) (timeMin timeMax : Z)
  (event : CalendarService.ApiEvent) :
  CalendarService.inWindow service timeMin timeMax event = true ->
  startsWithin service timeMin timeMax (CalendarService.toCalendarEvent service event).
Proof.
  unfold CalendarService.inWindow, startsWithin, CalendarService.startTime.
  cbn [CalendarService.toCalendarEvent start_dateTime].
  destruct (CalendarService.startText event) as [text|]; [|discriminate].
  change (default (CalendarService.isoNow service) (Some text)) with text.
  destruct (CalendarService.parseText service text) as [eventStart|]; [|discriminate].
  intros H. apply andb_true_iff in H. destruct H as [H1 H2].
  apply Z.leb_le in H1, H2. exists eventStart. auto.
Qed.

(* SLOT_SERVICE *)

(** ** The dialogues of the cancel flow *)

(** A dialogue at a step of the cancel flow is never continued.  Its
    owner's messages all go to [handleMeetingRequest], whose [switch] has no
    case for these steps: a message with a cancel keyword deletes the
    dialogue, and any other message, the answer [yes] included, gets no
    reply and leaves the store as it is.  No meeting is ever cancelled. *)
Theorem cancel_dialogue_never_continues (w : World) (store : gmap Z MeetingState)
  (ctx : Context) (text : string) (userId : Z) (state : MeetingState) :
  message_text ctx = Some text ->
  from_id ctx = Some userId ->
  userId <> 0 ->
  store !! userId = Some state ->
  isCancelStep (step state) = true ->
  let outcome := handleMessage w store ctx in
  invoked outcome = Some MeetingRequest
  /\ (if hasCancelKeyword (JS.trim text)
      then states (result outcome) = delete userId store
           /\ replies (result outcome) = [ReplyCancelled]
      else states (result outcome) = store /\ replies (result outcome) = []).
Proof.
  intros Htext Hfrom Hid Hstate Hstep. cbn zeta. unfold handleMessage.
  rewrite Htext, Hfrom. apply Z.eqb_neq in Hid. rewrite Hid, Hstate.
  cbn [is_some]. rewrite orb_true_r. cbn [invoked result]. split; [reflexivity|].
  destruct (hasCancelKeyword (JS.trim text)) eqn:Hkw.
  - rewrite (handleMeetingRequest_cancel w store userId state _ Hstate Hkw).
    split; reflexivity.
  - rewrite (handleMeetingRequest_onStep w store userId state _ Hstate Hkw).
    unfold onStep. destruct (step state); try discriminate; cbn [states replies];
      (split; [now apply insert_id | reflexivity]).
Qed.

Lemma cancel_dialogue_never_continues_witness :
  let ctx := {| message_text := Some "Yes"; from_id := Some 7 |} in
  (step <$> askedToConfirmCancel !! 7) = Some StepConfirmCancel
  /\ states (result (handleMessage world_with_one_meeting askedToConfirmCancel ctx))
     = askedToConfirmCancel
  /\ replies (result (handleMessage world_with_one_meeting askedToConfirmCancel ctx)) = [].
Proof.
  intros ctx. split; [vm_compute; reflexivity|].
  destruct (askedToConfirmCancel !! 7) as [state|] eqn:Hstate;
    [|vm_compute in Hstate; discriminate].
  assert (Hstep : isCancelStep (step state) = true).
  { vm_compute in Hstate. simplify_eq. reflexivity. }
  assert (Hid : 7 <> 0) by lia.
  destruct (cancel_dialogue_never_continues world_with_one_meeting askedToConfirmCancel ctx
              "Yes" 7 state eq_refl eq_refl Hid Hstate Hstep) as [_ H].
  exact H.
Defined.

(* SLOT_TAIL *)
